(** * Gleason: data preparation and TFRecord pipeline

    A shallow embedding of [src/prepare_tfrecords.py] and [src/tfrecord.py]
    (Python 2, NumPy, TensorFlow 1.x) together with the properties of the
    label resolver, the record codec, the bulk encoder, the class-weight
    aggregation, the decode/augment pipeline, the normalization and VGG
    preprocessing, the colour distortions and the per-image mean.

    Conventions.
    - A Python 2 [str] is a byte string: it is a Stdlib [string] (a list of
      8-bit characters).
    - Python exceptions are values of [exn]; a computation that may raise
      has type [result A].
    - Python and TensorFlow floats are carried by the rationals they denote;
      every arithmetic operation is the exact operation followed by rounding
      to nearest (ties to even) at the precision of the format. *)

From Stdlib Require Import ZArith QArith Qabs Qround Qpower Qcanon Lia Lqa Ascii String List.
From stdpp Require Import base option list strings gmap.

Local Open Scope Z_scope.

(** ** Exceptions and fallible computations *)

Inductive exn : Type :=
  | IndexError          (* sequence index out of range, too many indices *)
  | KeyError            (* missing dict key *)
  | ZeroDivisionError   (* int or float division by zero *)
  | UnicodeDecodeError  (* implicit ascii decoding of a non-ascii str *)
  | ValueError          (* int64 range of a protobuf field, static shape checks *)
  | IOError             (* unreadable image file *)
  | InvalidArgumentError (* TensorFlow shape or feature mismatch at run time *)
  | OutOfRangeError     (* a TensorFlow queue cannot deliver a batch *)
  | ConfigurationError. (* named by the specification; no source path raises it *)

Inductive result (A : Type) : Type :=
  | Ok (a : A)
  | Raise (e : exn).
Arguments Ok {A} a.
Arguments Raise {A} e.

#[global] Instance exn_eq_dec : EqDecision exn.
Proof. solve_decision. Defined.

#[global] Instance result_ret : MRet result := fun A a => Ok a.
#[global] Instance result_bind : MBind result := fun A B f m =>
  match m with
  | Ok a => f a
  | Raise e => Raise e
  end.
#[global] Instance result_fmap : FMap result := fun A B f m =>
  match m with
  | Ok a => Ok (f a)
  | Raise e => Raise e
  end.

Definition is_ok {A} (m : result A) : bool :=
  match m with Ok _ => true | Raise _ => false end.

(** [for x in l: acc = body(acc, x)], stopping at the first exception. *)
Fixpoint for_each {A S : Type} (body : S -> A -> result S) (l : list A) (s : S)
  : result S :=
  match l with
  | [] => Ok s
  | x :: rest => s' ← body s x; for_each body rest s'
  end.

(** [[f(x) for x in l]], evaluated left to right, stopping at the first
    exception. *)
Fixpoint comprehension {A B : Type} (f : A -> result B) (l : list A)
  : result (list B) :=
  match l with
  | [] => Ok []
  | x :: rest => y ← f x; ys ← comprehension f rest; Ok (y :: ys)
  end.

(** ** Python 2 byte strings *)

Module PyStr.

(** [s.split(sep)] for a one-character separator: every occurrence of the
    separator splits, empty tokens are kept, the result is never empty. *)
Fixpoint split (sep : ascii) (s : string) : list string :=
  match s with
  | EmptyString => [EmptyString]
  | String c s' =>
      if Ascii.eqb c sep then EmptyString :: split sep s'
      else match split sep s' with
           | tok :: toks => String c tok :: toks
           | [] => [String c EmptyString]
           end
  end.

(** [c.lower()] in the C locale: only A-Z change. *)
Definition lower_char (c : ascii) : ascii :=
  let n := N_of_ascii c in
  if ((65 <=? n) && (n <=? 90))%N then ascii_of_N (n + 32) else c.

Fixpoint lower (s : string) : string :=
  match s with
  | EmptyString => EmptyString
  | String c s' => String (lower_char c) (lower s')
  end.

(** [l[i]] for [i >= 0]. *)
Definition index {A} (l : list A) (i : nat) : result A :=
  match l !! i with
  | Some x => Ok x
  | None => Raise IndexError
  end.

(** [l[-1]]. *)
Definition last_item {A} (l : list A) : result A :=
  match List.rev l with
  | x :: _ => Ok x
  | [] => Raise IndexError
  end.

Fixpoint contains (c : ascii) (s : string) : bool :=
  match s with
  | EmptyString => false
  | String c' s' => Ascii.eqb c' c || contains c s'
  end.

(** every byte is below 128 *)
Fixpoint is_ascii (s : string) : bool :=
  match s with
  | EmptyString => true
  | String c s' => (N_of_ascii c <? 128)%N && is_ascii s'
  end.

(** [s.encode('utf-8')] on a [str]: Python 2 first decodes the bytes with
    the default codec (ascii), then encodes the text as UTF-8. *)
Definition encode_utf8 (s : string) : result string :=
  if is_ascii s then Ok s else Raise UnicodeDecodeError.

End PyStr.

(** ** prepare_tfrecords.py: the label resolver *)

(** Lines 86-87 (and 55-56):
    [file_name = img.split('/')[-1].split('_')]
    [class_name = file_name[0].lower() + '_' + file_name[1]] *)
Definition class_name_of (img : string) : result string :=
  base ← PyStr.last_item (PyStr.split "/" img);
  let file_name := PyStr.split "_" base in
  t0 ← PyStr.index file_name 0;
  t1 ← PyStr.index file_name 1;
  Ok (PyStr.lower t0 +:+ "_" +:+ t1).

(** Lines 89-96: the if/elif chain on [class_name]. *)
Definition label_of_class (class_name : string) : Z :=
  if String.eqb class_name "gleason_5" then 3
  else if String.eqb class_name "gleason_4" then 2
  else if String.eqb class_name "gleason_3" then 1
  else 0.

(** One iteration of the loop of [build_tfrecords]: the label appended for
    [img]. *)
Definition resolve_label (img : string) : result Z :=
  class_name ← class_name_of img;
  Ok (label_of_class class_name).

(** The class key in the words of the specification: the two leading
    underscore-delimited tokens of a file name, both lower-cased, joined by an
    underscore.  There is no key when the name has fewer than two tokens. *)
Definition spec_class_key (name : string) : option string :=
  match PyStr.split "_" name with
  | t0 :: t1 :: _ => Some (PyStr.lower t0 +:+ "_" +:+ PyStr.lower t1)
  | _ => None
  end.

(** The table of the specification. *)
Definition spec_label_table (key : string) : Z :=
  if String.eqb key "gleason_5" then 3
  else if String.eqb key "gleason_4" then 2
  else if String.eqb key "gleason_3" then 1
  else 0.

(** ** IEEE-754 arithmetic on the rationals

    A finite float is the rational it denotes.  [rnd prec q] is the nearest
    rational with a [prec]-bit significand, ties to even; the exponent range
    is taken unbounded (no overflow, no subnormals).  [prec = 53] is Python's
    [float] and NumPy's [float64], [prec = 24] is [float32]. *)

Module Float.

Definition round_half_even (q : Q) : Z :=
  let f := Qfloor q in
  match (q - inject_Z f ?= 1 # 2)%Q with
  | Lt => f
  | Gt => f + 1
  | Eq => if Z.even f then f else f + 1
  end.

(** [floor (log2 a)] for [a > 0] *)
Definition ilog2 (a : Q) : Z :=
  let e0 := Z.log2 (Qnum a) - Z.log2 (Zpos (Qden a)) in
  if Qle_bool (Qpower 2 e0) a then e0 else e0 - 1.

Definition rnd (prec : Z) (q : Q) : Q :=
  if Qeq_bool q 0 then 0%Q
  else
    let a := Qabs q in
    let s := prec - 1 - ilog2 a in
    let m := inject_Z (round_half_even (a * Qpower 2 s)) in
    Qred ((if Qle_bool 0 q then m else - m) / Qpower 2 s).

Definition binary64 : Q -> Q := rnd 53.
Definition binary32 : Q -> Q := rnd 24.

(** Python: [a / b] on two ints under [from __future__ import division];
    the quotient is correctly rounded. *)
Definition int_truediv (a b : Z) : result Q :=
  if b =? 0 then Raise ZeroDivisionError
  else Ok (binary64 (inject_Z a / inject_Z b)).

(** Python: [x / y] on two floats. *)
Definition float_div (x y : Q) : result Q :=
  if Qeq_bool y 0 then Raise ZeroDivisionError
  else Ok (binary64 (x / y)).

Definition float_add (x y : Q) : Q := binary64 (x + y).

(** Python: [sum(l)] on a list of floats, [0 + l[0] + l[1] + ...]. *)
Definition float_sum (l : list Q) : Q := fold_left float_add l 0%Q.

(** Python: [sum(l)] on a list of ints. *)
Definition int_sum (l : list Z) : Z := fold_left Z.add l 0.

End Float.

(** ** Observable effects *)

(** A serialized feature of a [tf.train.Example]. *)
Inductive feature : Type :=
  | BytesList (value : list string)
  | Int64List (value : list Z)
  | FloatList (value : list Q).

(** [tf.train.Example]: a map from feature names to features.  The protobuf
    wire codec ([SerializeToString], and the parser inside
    [tf.parse_single_example]) is the library's; a serialized record is
    identified with the message it carries. *)
Record Example : Type := { features : gmap string feature }.

Inductive message : Type :=
  | MsgCounts (files categories : nat) (* '%d files in %d categories' *)
  | MsgDoneLoading                     (* "Done loading futures!" *)
  | MsgWriting                         (* "Writing examples..." *)
  | MsgFailedWrite                     (* "Failed to write example!" *)
  | MsgRule                            (* '-' * 100 *)
  | MsgGenerated (file : string)       (* 'Generated tfrecord at %s' *)
  | MsgClassRatios (r : list Q)        (* "class ratios:" *)
  | MsgClassWeights (w : list Q).      (* "class weights:" *)

Inductive event : Type :=
  | EvPrint (m : message)
  | EvOpenWriter (file : string)                 (* tf.python_io.TFRecordWriter *)
  | EvWrite (file : string) (record : Example)   (* writer.write *)
  | EvSavez (file : string) (file_pointers : list string) (labels : list Z)
            (output_pointer : string)            (* np.savez, the file written *)
  | EvSave (file : string) (arr : list Q).       (* np.save *)

(** ** prepare_tfrecords.py: class ratios *)

(** [d[k]] *)
Definition dict_get (d : gmap Z Z) (k : Z) : result Z :=
  match d !! k with
  | Some v => Ok v
  | None => Raise KeyError
  end.

(** [d[k] += 1] *)
Definition dict_incr (d : gmap Z Z) (k : Z) : result (gmap Z Z) :=
  v ← dict_get d k; Ok (<[k := v + 1]> d).

(** Lines 55-65: the body of the counting loop. *)
Definition tally_step (targe_label_dic : gmap Z Z) (img : string)
  : result (gmap Z Z) :=
  class_name ← class_name_of img;
  if String.eqb class_name "gleason_5" then dict_incr targe_label_dic 3
  else if String.eqb class_name "gleason_4" then dict_incr targe_label_dic 2
  else if String.eqb class_name "gleason_3" then dict_incr targe_label_dic 1
  else dict_incr targe_label_dic 0.

(** Lines 67-72, on the tallied dictionary. *)
Definition class_weights_of (dataset : string) (targe_label_dic : gmap Z Z)
  : result (list event) :=
  values ← comprehension (dict_get targe_label_dic) [0; 1; 2; 3];
  f_i ← comprehension (fun v => Float.int_truediv (Float.int_sum values) v) values;
  class_weights ← comprehension (fun f => Float.float_div f (Float.float_sum f_i)) f_i;
  ratios ← comprehension (fun v => Float.int_truediv v (Float.int_sum values)) values;
  Ok [EvPrint (MsgClassRatios ratios);
      EvPrint (MsgClassWeights class_weights);
      EvSave (dataset +:+ "_class_weights.npy") class_weights].

(** [calculate_class_ratios], on the list [files] that [glob.glob] returned. *)
Definition calculate_class_ratios (files : list string) (dataset : string)
  : result (list event) :=
  let targe_label_dic : gmap Z Z := {[ 0 := 0; 1 := 0; 2 := 0; 3 := 0 ]} in
  d ← for_each tally_step files targe_label_dic;
  class_weights_of dataset d.

(** The array [np.save] wrote, if any. *)
Fixpoint saved_weights (tr : list event) : option (list Q) :=
  match tr with
  | [] => None
  | EvSave _ w :: _ => Some w
  | _ :: rest => saved_weights rest
  end.

(** Does [img] resolve to label [k]? *)
Definition labelled (k : Z) (img : string) : bool :=
  match resolve_label img with
  | Ok l => l =? k
  | Raise _ => false
  end.

(** Number of files of [files] whose label is [k]. *)
Fixpoint count_label (k : Z) (files : list string) : Z :=
  match files with
  | [] => 0
  | img :: rest => (if labelled k img then 1 else 0) + count_label k rest
  end.

(** The exact sum of the rationals of a list. *)
Definition q_sum (l : list Q) : Q := fold_right Qplus 0%Q l.

(** ** Arrays and tensors *)

(** A NumPy array or TensorFlow tensor: its shape and its elements in
    row-major (C) order. *)
Record tensor (A : Type) : Type := Tensor { shape : list nat; data : list A }.
Arguments Tensor {A} shape data.
Arguments shape {A} t.
Arguments data {A} t.

(** number of elements of a shape *)
Definition numel (dims : list nat) : nat := fold_right Nat.mul 1%nat dims.

(** [k] consecutive chunks of [n] elements *)
Fixpoint chunks {A} (n k : nat) (l : list A) : list (list A) :=
  match k with
  | O => []
  | S k' => take n l :: chunks n k' (drop n l)
  end.

(** [np.reshape] / [tf.reshape] to non-negative dimensions: the element count
    must agree. *)
Definition reshape {A} (t : tensor A) (dims : list nat) : result (tensor A) :=
  if decide (numel dims = length (data t)) then Ok (Tensor dims (data t))
  else Raise InvalidArgumentError.

(** What [np.array(Image.open(path))] yields: a 2-D array for the
    single-band modes (L, P, 1, I, F) and a 3-D array, 8 bits per band, for
    the multi-band modes (LA, RGB, RGBA, CMYK, ...). *)
Inductive pil_array : Type :=
  | Arr2 (h w : nat) (px : list Z)
  | Arr3 (h w c : nat) (px : list Z).

(** ** tfrecord.py: constants and features *)

Definition GLEASON_MEAN_G : Q := Float.binary64 (15385 # 100).
Definition GLEASON_MEAN_STD_G : Q := Float.binary64 (2538 # 100).

Definition _bytes_feature (value : string) : feature := BytesList [value].

(** [Int64List] accepts only values of the signed 64-bit range. *)
Definition _int64_feature (value : Z) : result feature :=
  if (- 2 ^ 63 <=? value) && (value <? 2 ^ 63) then Ok (Int64List [value])
  else Raise ValueError.

Definition _float_feature (value : Q) : feature := FloatList [value].

(** [normalize]: z-score of every element, on a float32 tensor (the Python
    constants are converted to float32). *)
Definition normalize (image : tensor Q) : tensor Q :=
  Tensor (shape image)
    (map (fun x => Float.binary32
                     (Float.binary32 (x - Float.binary32 GLEASON_MEAN_G)
                      / Float.binary32 GLEASON_MEAN_STD_G))
         (data image)).

(** ** os.path.splitext and the sidecar file name *)

Module OsPath.

(** [s.rfind(c)]: the last index of [c] in [s], or -1. *)
Fixpoint rfind_from (c : ascii) (s : string) (i : Z) (found : Z) : Z :=
  match s with
  | EmptyString => found
  | String c' s' => rfind_from c s' (i + 1) (if Ascii.eqb c' c then i else found)
  end.
Definition rfind (c : ascii) (s : string) : Z := rfind_from c s 0 (-1).

(** [s[i]] as a character, for [0 <= i < len(s)] *)
Definition char_at (s : string) (i : Z) : option ascii :=
  String.get (Z.to_nat i) s.

(** [s[:i]] and [s[i:]] for [0 <= i <= len(s)] *)
Definition prefix (s : string) (i : Z) : string :=
  String.substring 0 (Z.to_nat i) s.
Definition suffix (s : string) (i : Z) : string :=
  String.substring (Z.to_nat i) (String.length s - Z.to_nat i) s.

(** The loop of [genericpath._splitext]:
    [while filenameIndex < dotIndex:
       if p[filenameIndex] != extsep: return p[:dotIndex], p[dotIndex:]
       filenameIndex += 1]
    followed by [return p, '']; [fuel] bounds the number of iterations. *)
Fixpoint skip_leading_dots (fuel : nat) (p : string) (filenameIndex dotIndex : Z)
  : string * string :=
  match fuel with
  | O => (p, EmptyString)
  | S fuel' =>
      if filenameIndex <? dotIndex then
        match char_at p filenameIndex with
        | Some c =>
            if negb (Ascii.eqb c ".") then (prefix p dotIndex, suffix p dotIndex)
            else skip_leading_dots fuel' p (filenameIndex + 1) dotIndex
        | None => (p, EmptyString)
        end
      else (p, EmptyString)
  end.

(** every character is a dot *)
Fixpoint all_dots (s : string) : bool :=
  match s with
  | EmptyString => true
  | String c s' => Ascii.eqb c "." && all_dots s'
  end.

(** [os.path.splitext] (posixpath: sep '/', no altsep, extsep '.') *)
Definition splitext (p : string) : string * string :=
  let sepIndex := rfind "/" p in
  let dotIndex := rfind "." p in
  if dotIndex >? sepIndex then
    skip_leading_dots (String.length p) p (sepIndex + 1) dotIndex
  else (p, EmptyString).

(** [os.path.join(a, b)] (posixpath) *)
Definition join (a b : string) : string :=
  match b with
  | String "/" _ => b
  | _ =>
      if String.eqb a "" then b
      else if Ascii.eqb (match String.get (String.length a - 1) a with
                         | Some c => c | None => "/"%char end) "/"
           then a +:+ b
           else a +:+ "/" +:+ b
  end.

End OsPath.

(** [s.endswith(suffix)] *)
Fixpoint ends_with (suffix s : string) : bool :=
  String.eqb s suffix
  || match s with
     | EmptyString => false
     | String _ s' => ends_with suffix s'
     end.

(** The file [np.savez(file, ...)] writes: the extension [.npz] is appended
    unless it is already there. *)
Definition np_savez_file (file : string) : string :=
  if ends_with ".npz" file then file else file +:+ ".npz".

(** [tfrecord2metafilename] *)
Definition tfrecord2metafilename (tfrecord_filename : string) : string :=
  let '(base, ext) := OsPath.splitext tfrecord_filename in
  base +:+ "_meta.npz".

(** ** tfrecord.py: the record codec, encoding side *)

(** an 8-bit value *)
Definition is_byte (v : Z) : Prop := 0 <= v < 256.

(** [img[:,:,:3]]: a 2-D array has too few axes. *)
Definition first_three_channels (a : pil_array) : result (tensor Z) :=
  match a with
  | Arr2 _ _ _ => Raise IndexError
  | Arr3 h w c px =>
      Ok (Tensor [h; w; Nat.min c 3] (concat (map (take 3) (chunks c (h * w) px))))
  end.

(** [.astype(np.float32)] on an integer array *)
Definition astype_float32 (t : tensor Z) : tensor Q :=
  Tensor (shape t) (map (fun v => Float.binary32 (inject_Z v)) (data t)).

(** truncation toward zero *)
Definition Qtrunc (q : Q) : Z := if Qle_bool 0 q then Qfloor q else Qceiling q.

(** [.astype(np.uint8)] on a float array: the fraction is dropped; a value
    outside [0, 255] keeps its low 8 bits (the narrowing NumPy performs on the
    usual platforms). *)
Definition astype_uint8 (t : tensor Q) : tensor Z :=
  Tensor (shape t) (map (fun q => Qtrunc q mod 256) (data t)).

(** [.tostring()] on a uint8 array: one byte per element, in C order. *)
Definition tostring (t : tensor Z) : string :=
  string_of_list_ascii (map (fun v => ascii_of_N (Z.to_N v)) (data t)).

Section Codec.

(** [np.array(Image.open(path))]: the file system and the image decoder. *)
Variable open_image : string -> result pil_array.

(** [encode(img_path, target_label)] *)
Definition encode (img_path : string) (target_label : Z) : result Example :=
  img ← open_image img_path;
  img ← first_three_channels img;
  let img := astype_float32 img in
  let img_raw := tostring (astype_uint8 img) in
  path_raw ← PyStr.encode_utf8 img_path;
  label ← _int64_feature target_label;
  Ok {| features := {[ "image_raw" := _bytes_feature img_raw;
                       "file_path" := _bytes_feature path_raw;
                       "target_label" := label ]} |}.

(** Lines 188-193: for each future in submission order, write its result or
    report its exception. *)
Fixpoint write_examples (tfrecords_filename : string)
    (futures : list (result Example)) : list event :=
  match futures with
  | [] => []
  | Ok example :: rest =>
      EvWrite tfrecords_filename example :: write_examples tfrecords_filename rest
  | Raise _ :: rest =>
      EvPrint MsgFailedWrite :: write_examples tfrecords_filename rest
  end.

(** [create_tf_record]: the events it performs, in order.  The pool runs
    [encode] once per submitted pair; a future holds the record or the
    exception of its call. *)
Definition create_tf_record (tfrecords_filename : string)
    (file_pointers : list string) (target_labels : list Z) : list event :=
  let futures :=
    map (fun ft => encode (fst ft) (snd ft)) (zip file_pointers target_labels) in
  let meta := tfrecord2metafilename tfrecords_filename in
  [EvOpenWriter tfrecords_filename;
   EvPrint (MsgCounts (length (remove_dups file_pointers))
                      (length (remove_dups target_labels)))]
  ++ [EvPrint MsgDoneLoading; EvPrint MsgWriting]
  ++ write_examples tfrecords_filename futures
  ++ [EvSavez (np_savez_file meta) file_pointers target_labels tfrecords_filename;
      EvPrint MsgRule; EvPrint (MsgGenerated tfrecords_filename); EvPrint MsgRule].

(** [glob.glob(pattern)]: the directory listing. *)
Variable glob : string -> list string.

(** [build_tfrecords] *)
Definition build_tfrecords (main_data_dir main_tfrecords_dir dataset : string)
  : result (list event) :=
  let files := glob (OsPath.join main_data_dir dataset +:+ "/*.png") in
  target_labels ←
    for_each (fun target_labels img =>
                l ← resolve_label img; Ok (target_labels ++ [l]))
             files [];
  Ok (create_tf_record
        (OsPath.join main_tfrecords_dir (dataset +:+ ".tfrecords"))
        files target_labels).

End Codec.

(** The records a trace appended to the container [file], in order. *)
Fixpoint container_of (file : string) (tr : list event) : list Example :=
  match tr with
  | [] => []
  | EvWrite f record :: rest =>
      if String.eqb f file then record :: container_of file rest
      else container_of file rest
  | _ :: rest => container_of file rest
  end.

Definition is_savez (e : event) : bool :=
  match e with EvSavez _ _ _ _ => true | _ => false end.

Definition is_write (e : event) : bool :=
  match e with EvWrite _ _ => true | _ => false end.

(** The results of a list of futures that are records. *)
Fixpoint successes {A} (l : list (result A)) : list A :=
  match l with
  | [] => []
  | Ok a :: rest => a :: successes rest
  | Raise _ :: rest => successes rest
  end.

(** The number of futures that hold an exception. *)
Fixpoint failures {A} (l : list (result A)) : nat :=
  match l with
  | [] => 0%nat
  | Ok _ :: rest => failures rest
  | Raise _ :: rest => S (failures rest)
  end.

(** ** tfrecord.py: the record codec, decoding side *)

(** [tf.FixedLenFeature([], tf.string)]: the feature must be present and hold
    exactly one byte string. *)
Definition fixed_len_string (ex : Example) (key : string) : result string :=
  match features ex !! key with
  | Some (BytesList [v]) => Ok v
  | _ => Raise InvalidArgumentError
  end.

(** [tf.FixedLenFeature([], tf.int64)] *)
Definition fixed_len_int64 (ex : Example) (key : string) : result Z :=
  match features ex !! key with
  | Some (Int64List [v]) => Ok v
  | _ => Raise InvalidArgumentError
  end.

(** [tf.decode_raw(bytes, tf.uint8)]: a 1-D tensor, one element per byte. *)
Definition decode_raw_uint8 (s : string) : tensor Z :=
  Tensor [String.length s]
         (map (fun c => Z.of_N (N_of_ascii c)) (list_ascii_of_string s)).

(** [tf.cast(v, tf.int32)] on an int64: the low 32 bits, signed. *)
Definition cast_int32 (v : Z) : Z := (v + 2 ^ 31) mod 2 ^ 32 - 2 ^ 31.

(** Lines 218-238: parse one serialized example and rebuild the image. *)
Definition decode_example (img_dims : list nat) (serialized_example : Example)
  : result (tensor Q * Z * string) :=
  image_raw ← fixed_len_string serialized_example "image_raw";
  file_path ← fixed_len_string serialized_example "file_path";
  target_label ← fixed_len_int64 serialized_example "target_label";
  let image := decode_raw_uint8 image_raw in
  let target_label := cast_int32 target_label in
  image ← reshape image img_dims;
  let image := astype_float32 image in
  Ok (image, target_label, file_path).

(** ** tf.image operations on one [height, width, channels] image *)

Definition image_rows {A} (h w c : nat) (px : list A) : list (list (list A)) :=
  map (chunks c w) (chunks (w * c) h px).

Definition image_of_rows {A} (h w c : nat) (rows : list (list (list A)))
  : tensor A :=
  Tensor [h; w; c] (concat (map (@concat A) rows)).

(** [tf.image.crop_to_bounding_box] *)
Definition crop_to_bounding_box {A} (image : tensor A)
    (offset_height offset_width target_height target_width : nat)
  : result (tensor A) :=
  match shape image with
  | [height; width; c] =>
      if (offset_height + target_height <=? height)%nat
         && (offset_width + target_width <=? width)%nat
      then
        Ok (image_of_rows target_height target_width c
              (map (fun row => take target_width (drop offset_width row))
                   (take target_height
                         (drop offset_height
                               (image_rows height width c (data image))))))
      else Raise ValueError
  | _ => Raise ValueError
  end.

(** [tf.image.pad_to_bounding_box]: zero padding around the image *)
Definition pad_to_bounding_box (image : tensor Q)
    (offset_height offset_width target_height target_width : nat)
  : result (tensor Q) :=
  match shape image with
  | [height; width; c] =>
      if (offset_height + height <=? target_height)%nat
         && (offset_width + width <=? target_width)%nat
      then
        let zero_px := replicate c 0%Q in
        let zero_row := replicate target_width zero_px in
        Ok (image_of_rows target_height target_width c
              (replicate offset_height zero_row
               ++ map (fun row =>
                         replicate offset_width zero_px ++ row
                         ++ replicate (target_width - offset_width - width) zero_px)
                      (image_rows height width c (data image))
               ++ replicate (target_height - offset_height - height) zero_row))
      else Raise ValueError
  | _ => Raise ValueError
  end.

(** [tf.image.resize_image_with_crop_or_pad]: centre crop, then centre pad *)
Definition resize_image_with_crop_or_pad (image : tensor Q)
    (target_height target_width : nat) : result (tensor Q) :=
  match shape image with
  | [height; width; _] =>
      if (target_height =? 0)%nat || (target_width =? 0)%nat then Raise ValueError
      else
        let width_diff := Z.of_nat target_width - Z.of_nat width in
        let offset_crop_width := Z.max ((- width_diff) / 2) 0 in
        let offset_pad_width := Z.max (width_diff / 2) 0 in
        let height_diff := Z.of_nat target_height - Z.of_nat height in
        let offset_crop_height := Z.max ((- height_diff) / 2) 0 in
        let offset_pad_height := Z.max (height_diff / 2) 0 in
        cropped ← crop_to_bounding_box image
                    (Z.to_nat offset_crop_height) (Z.to_nat offset_crop_width)
                    (Nat.min target_height height) (Nat.min target_width width);
        pad_to_bounding_box cropped
          (Z.to_nat offset_pad_height) (Z.to_nat offset_pad_width)
          target_height target_width
  | _ => Raise ValueError
  end.

(** [tf.random_crop(image, size)]: [draw] holds the three uniform integers;
    the offset on each axis is the draw modulo [shape - size + 1]. *)
Definition random_crop (image : tensor Q) (size : list nat) (draw : nat * nat * nat)
  : result (tensor Q) :=
  match shape image, size with
  | [h; w; c], [sh; sw; sc] =>
      if (sh <=? h)%nat && (sw <=? w)%nat && (sc <=? c)%nat then
        let '(dh, dw, dc) := draw in
        let oh := (dh mod (h - sh + 1))%nat in
        let ow := (dw mod (w - sw + 1))%nat in
        let oc := (dc mod (c - sc + 1))%nat in
        Ok (image_of_rows sh sw sc
              (map (fun row => map (fun px => take sc (drop oc px))
                                   (take sw (drop ow row)))
                   (take sh (drop oh (image_rows h w c (data image))))))
      else Raise InvalidArgumentError
  | _, _ => Raise ValueError
  end.

(** [tf.image.random_flip_left_right]: [coin] is [uniform < 0.5] *)
Definition random_flip_left_right (image : tensor Q) (coin : bool)
  : result (tensor Q) :=
  match shape image with
  | [h; w; c] =>
      if coin then Ok (image_of_rows h w c (map (@rev _) (image_rows h w c (data image))))
      else Ok image
  | _ => Raise ValueError
  end.

(** [tf.image.random_flip_up_down] *)
Definition random_flip_up_down (image : tensor Q) (coin : bool)
  : result (tensor Q) :=
  match shape image with
  | [h; w; c] =>
      if coin then Ok (image_of_rows h w c (rev (image_rows h w c (data image))))
      else Ok image
  | _ => Raise ValueError
  end.

(** ** tfrecord.py: read_and_decode *)

(** [math.pi], the double nearest to pi *)
Definition math_pi : Q := 884279719003555 # 281474976710656.

(** [PI = tf.constant(math.pi)], a float32 tensor *)
Definition PI : Q := Float.binary32 math_pi.

(** The TensorFlow kernels whose numerics are the library's: they are
    parameters of the pipeline.
    - [tf_conv2d_same h w input k filter]: the values of
      [tf.nn.conv2d(input, filter, strides=[1,1,1,1], padding='SAME')] for a
      [1,h,w,1] input and a [k,k,1,1] filter;
    - [tf_dense_warp_one h w c image flow]: the values of
      [tf.contrib.image.dense_image_warp] on one example, whose output at
      [(j, i, ch)] is the image interpolated at [(j - flow[j,i,0],
      i - flow[j,i,1], ch)]. *)
Record tf_kernels : Type := {
  tf_sqrt : Q -> Q;
  tf_exp : Q -> Q;
  tf_pow : Q -> Q -> Q;
  tf_conv2d_same : nat -> nat -> list Q -> nat -> list Q -> list Q;
  tf_rotate : tensor Q -> Q -> tensor Q;
  tf_dense_warp_one : nat -> nat -> nat -> list Q -> list Q -> list Q;
  tf_rgb_to_grayscale : tensor Q -> tensor Q
}.

(** [padding='SAME'] with unit strides keeps the spatial size. *)
Definition conv2d_keeps_size (tf : tf_kernels) : Prop :=
  forall h w input k filter,
    length (tf_conv2d_same tf h w input k filter) = (h * w)%nat.

(** The random values drawn while one example flows through the graph. *)
Record example_draws : Type := {
  crop_draw : nat * nat * nat;  (* tf.random_crop *)
  flip_lr_draw : bool;          (* tf.image.random_flip_left_right: uniform < 0.5 *)
  flip_ud_draw : bool;          (* tf.image.random_flip_up_down: uniform < 0.5 *)
  angle_draw : nat              (* tf.multinomial over the 360 angles *)
}.

(** The random values drawn once per evaluated batch:
    the two [tf.random_uniform([model_dims[0], model_dims[1]])] fields. *)
Record batch_draws : Type := {
  uniform_X : nat -> Q;
  uniform_Y : nat -> Q
}.

(** [np.deg2rad(k)] *)
Definition deg2rad (k : nat) : Q :=
  Float.binary64 (inject_Z (Z.of_nat k) * Float.binary64 (math_pi / 180)).

(** [tf.linspace(start, stop, num)] *)
Definition linspace (start stop : Q) (num : nat) : list Q :=
  match num with
  | 1%nat => [start]
  | _ =>
      let step := Float.binary32 ((stop - start) / inject_Z (Z.of_nat num - 1)) in
      map (fun i => Float.binary32
                      (start + Float.binary32 (step * inject_Z (Z.of_nat i))))
          (seq 0 num)
  end.

(** [tf.reduce_max] of a non-empty tensor (0 on an empty one) *)
Definition reduce_max (l : list Q) : Q :=
  match l with
  | [] => 0%Q
  | x :: rest => fold_left (fun m y => if Qle_bool m y then y else m) rest x
  end.

(** [tf.stack([a, b], axis=-1)] *)
Definition stack_last (a b : tensor Q) : result (tensor Q) :=
  if decide (shape a = shape b) then
    Ok (Tensor (shape a ++ [2%nat])
               (concat (zip_with (fun x y => [x; y]) (data a) (data b))))
  else Raise InvalidArgumentError.

(** [tf.tile(t, [n])] on a 1-D tensor *)
Definition tile (t : tensor Q) (n : nat) : result (tensor Q) :=
  match shape t with
  | [len] => Ok (Tensor [(len * n)%nat] (concat (replicate n (data t))))
  | _ => Raise InvalidArgumentError
  end.

(** the batch a queue delivers: [tf.train.shuffle_batch] only full batches,
    [tf.train.batch(..., allow_smaller_final_batch=True)] also a shorter,
    non-empty final one.  Only the number of examples is settled here.
    Which records make up a batch, and in which order, is the queue's
    doing: [tf.train.shuffle_batch] draws them at random from its buffer,
    and with [num_of_threads] above one the order of arrival is not
    determined for either queue. *)
Definition batch_ok (shuffle : bool) (size_of_batch n : nat) : bool :=
  if shuffle then (n =? size_of_batch)%nat
  else (0 <? n)%nat && (n <=? size_of_batch)%nat.

(** the batched tensor of equally shaped examples *)
Definition stack_batch (images : list (tensor Q)) : result (tensor Q) :=
  match images with
  | [] => Raise OutOfRangeError
  | first :: _ =>
      if forallb (fun t => bool_decide (shape t = shape first)) images then
        Ok (Tensor (length images :: shape first) (concat (map data images)))
      else Raise InvalidArgumentError
  end.

Section Pipeline.

Variable tf : tf_kernels.

(** [augmentations_dic[key]] *)
Definition toggle (augmentations_dic : gmap string bool) (key : string)
  : result bool :=
  match augmentations_dic !! key with
  | Some b => Ok b
  | None => Raise KeyError
  end.

(** Lines 282-285: the values of [z_2d], a [ksize] x [ksize] Gaussian. *)
Definition gaussian_kernel (mean sigma : Q) (ksize : nat) : list Q :=
  let x := linspace (-3) 3 ksize in
  let coeff :=
    Float.binary32 (1 / Float.binary32 (sigma * tf_sqrt tf (Float.binary32 (2 * PI)))) in
  let z :=
    map (fun xi =>
           Float.binary32
             (coeff * tf_exp tf (- Float.binary32
                                    (tf_pow tf (Float.binary32 (xi - mean)) 2
                                     / Float.binary32 (2 * tf_pow tf sigma 2)))))
        x in
  concat (map (fun zi => map (fun zj => Float.binary32 (zi * zj)) z) z).

(** Lines 277-291 for one of the two fields: uniform noise in [-1, 1),
    blurred, scaled so that its maximum is [alpha].  The values are finite
    floats.  Where the maximum of the blurred field is zero, the float32
    division of line 290 gives NaN or an infinity, which a rational does not
    represent (the division of [Q] gives 0 there): what is stated about the
    values of a field assumes a maximum other than zero. *)
Definition displacement_field (u : nat -> Q) (h w : nat) : result (tensor Q) :=
  let mean := 0%Q in
  let sigma := 1%Q in
  let alpha := 6%Q in
  let ksize := 128%nat in
  let X := Tensor [h; w]
             (map (fun i => Float.binary32 (Float.binary32 (u i * 2) - 1))
                  (seq 0 (h * w))) in
  X ← reshape X [1%nat; h; w; 1%nat];
  let X_convolved :=
    Tensor [1%nat; h; w; 1%nat]
           (tf_conv2d_same tf h w (data X) ksize (gaussian_kernel mean sigma ksize)) in
  let m := reduce_max (data X_convolved) in
  Ok (Tensor (shape X_convolved)
             (map (fun x => Float.binary32 (Float.binary32 (x / m) * alpha))
                  (data X_convolved))).

(** [tf.contrib.image.dense_image_warp]: example [b] of the batch is
    warped by slice [b] of the flow. *)
Definition dense_image_warp (img flow : tensor Q) : result (tensor Q) :=
  match shape img, shape flow with
  | [b; h; w; c], [b'; h'; w'; 2%nat] =>
      if decide (b = b' /\ h = h' /\ w = w') then
        Ok (Tensor [b; h; w; c]
              (concat (zip_with (tf_dense_warp_one tf h w c)
                                (chunks (h * w * c) b (data img))
                                (chunks (h * w * 2) b (data flow)))))
      else Raise InvalidArgumentError
  | _, _ => Raise InvalidArgumentError
  end.

(** Lines 270-301: the elastic warp of a batch. *)
Definition warp_batch (noise : batch_draws) (model_dims : list nat)
    (size_of_batch : nat) (img : tensor Q) : result (tensor Q) :=
  h ← PyStr.index model_dims 0;
  w ← PyStr.index model_dims 1;
  X_convolved ← displacement_field (uniform_X noise) h w;
  Y_convolved ← displacement_field (uniform_Y noise) h w;
  trans ← stack_last X_convolved Y_convolved;
  let trans := Tensor [numel (shape trans)] (data trans) in
  batch_trans ← tile trans size_of_batch;
  batch_trans ← reshape batch_trans [size_of_batch; h; w; 2%nat];
  c ← PyStr.index model_dims 2;
  img ← reshape img [size_of_batch; h; w; c];
  dense_image_warp img batch_trans.

(** Lines 252-255: rotation by [elems[sample]], the float32 of
    [np.deg2rad(sample)], for a sample among the 360 angles. *)
Definition random_rotate (image : tensor Q) (sample : nat) : result (tensor Q) :=
  if (sample <? 360)%nat then
    Ok (tf_rotate tf image (Float.binary32 (deg2rad sample)))
  else Raise InvalidArgumentError.

(** Lines 220-255 on one serialized example: decode, crop, flips and
    rotation, each as enabled. *)
Definition per_example (img_dims : list nat)
    (crop_op : example_draws -> tensor Q -> result (tensor Q))
    (flip_lr flip_ud rand_rotate : bool) (item : Example * example_draws)
  : result (tensor Q * Z * string) :=
  let '(serialized_example, d) := item in
  '(image, target_label, file_path) ← decode_example img_dims serialized_example;
  image ← crop_op d image;
  image ← (if flip_lr then random_flip_left_right image (flip_lr_draw d)
           else Ok image);
  image ← (if flip_ud then random_flip_up_down image (flip_ud_draw d)
           else Ok image);
  image ← (if rand_rotate then random_rotate image (angle_draw d)
           else Ok image);
  Ok (image, target_label, file_path).

(** [read_and_decode] for one evaluation of the tensors it returns.
    [dequeued] holds the serialized examples the input queue hands over for
    this batch, in the order of the batch, each with the random values drawn
    while it is processed; [noise] holds the random values of the operations
    placed after the batching.  The dictionary and [model_dims] are read
    once, while the graph is built, in source order.  Which records are
    dequeued, and in which order, is an input: it depends on [shuffle] and
    on [num_of_threads], which has no other effect and is not a parameter
    here.  The order is the order of the container only where a statement
    says so. *)
Definition read_and_decode (dequeued : list (Example * example_draws))
    (noise : batch_draws) (img_dims model_dims : list nat) (size_of_batch : nat)
    (augmentations_dic : gmap string bool) (shuffle : bool)
  : result (tensor Q * list Z * list string) :=
  rand_crop ← toggle augmentations_dic "rand_crop";
  crop_op ←
    (if (rand_crop : bool) then
       Ok (fun (d : example_draws) (image : tensor Q) =>
             random_crop image model_dims (crop_draw d))
     else
       h ← PyStr.index model_dims 0;
       w ← PyStr.index model_dims 1;
       Ok (fun (_ : example_draws) (image : tensor Q) =>
             resize_image_with_crop_or_pad image h w));
  flip_lr ← toggle augmentations_dic "rand_flip_left_right";
  flip_ud ← toggle augmentations_dic "rand_flip_top_bottom";
  rand_rotate ← toggle augmentations_dic "rand_rotate";
  warp ← toggle augmentations_dic "warp";
  warp_op ← (if (warp : bool) then
               _ ← PyStr.index model_dims 0;
               _ ← PyStr.index model_dims 1;
               _ ← PyStr.index model_dims 2;
               Ok (warp_batch noise model_dims size_of_batch)
             else Ok (fun img : tensor Q => Ok img));
  grayscale ← toggle augmentations_dic "grayscale";
  examples ← comprehension
               (per_example img_dims crop_op flip_lr flip_ud rand_rotate) dequeued;
  if batch_ok shuffle size_of_batch (length examples) then
    img ← stack_batch (map (fun e => fst (fst e)) examples);
    img ← warp_op img;
    let img := if (grayscale : bool) then tf_rgb_to_grayscale tf img else img in
    Ok (img, map (fun e => snd (fst e)) examples, map (fun e => snd e) examples)
  else Raise OutOfRangeError.

End Pipeline.

(** The exact mean and variance of the elements of a tensor. *)
Definition pixel_mean (t : tensor Q) : Q :=
  (q_sum (data t) / inject_Z (Z.of_nat (length (data t))))%Q.

Definition pixel_variance (t : tensor Q) : Q :=
  let m := pixel_mean t in
  (q_sum (map (fun x => (x - m) * (x - m)) (data t))
   / inject_Z (Z.of_nat (length (data t))))%Q.

(** a float that is an 8-bit integer: a stored byte, or a padding zero *)
Definition byte_valued (x : Q) : Prop := exists b : Z, is_byte b /\ x = inject_Z b.

(** every augmentation toggle is present and off *)
Definition all_toggles_off (augmentations_dic : gmap string bool) : Prop :=
  augmentations_dic !! "rand_crop" = Some false
  /\ augmentations_dic !! "rand_flip_left_right" = Some false
  /\ augmentations_dic !! "rand_flip_top_bottom" = Some false
  /\ augmentations_dic !! "rand_rotate" = Some false
  /\ augmentations_dic !! "warp" = Some false
  /\ augmentations_dic !! "grayscale" = Some false.

(** Kernels that return blank (all-zero) results of the documented sizes.
    Every statement below holds for all kernels; this instance serves to run
    the pipeline on concrete inputs. *)
Definition blank_kernels : tf_kernels := {|
  tf_sqrt := fun _ => 0%Q;
  tf_exp := fun _ => 0%Q;
  tf_pow := fun _ _ => 0%Q;
  tf_conv2d_same := fun h w _ _ _ => replicate (h * w) 0%Q;
  tf_rotate := fun image _ => Tensor (shape image) (map (fun _ => 0%Q) (data image));
  tf_dense_warp_one := fun h w c _ _ => replicate (h * w * c) 0%Q;
  tf_rgb_to_grayscale := fun img =>
    match shape img with
    | [b; h; w; _] => Tensor [b; h; w; 1%nat] (replicate (b * h * w) 0%Q)
    | _ => img
    end
|}.

(** Kernels simple enough to be evaluated, to run the warp on concrete
    inputs.  They are stand-ins, not TensorFlow's numerics: the convolution
    returns its input (the response to a unit-impulse filter, whatever filter
    is passed), and the warp of an example takes for the output pixel
    [(j, i)] the input pixel nearest to [(j - flow[j,i,0], i - flow[j,i,1])]
    inside the image, where TensorFlow interpolates bilinearly between the
    four neighbours.  The square root and the exponential are crude rational
    stand-ins, positive everywhere; [tf_pow] is the square, the only power
    the graph takes. *)
Definition sampling_kernels : tf_kernels := {|
  tf_sqrt := fun x => Float.binary32 ((x + 1) / 2);
  tf_exp := fun x => Float.binary32 (if Qle_bool 0 x then 1 + x else 1 / (1 - x));
  tf_pow := fun x _ => Float.binary32 (x * x);
  tf_conv2d_same := fun h w input _ _ =>
    map (fun p => nth p input 0%Q) (seq 0 (h * w));
  tf_rotate := fun image _ => image;
  tf_dense_warp_one := fun h w c image flow =>
    let clamp (hi : nat) (x : Q) : nat :=
      Z.to_nat (Z.max 0 (Z.min (Z.of_nat hi - 1) (Float.round_half_even x))) in
    flat_map
      (fun p =>
         let j := (p / w)%nat in
         let i := (p mod w)%nat in
         let j' := clamp h (inject_Z (Z.of_nat j) - nth (2 * p) flow 0)%Q in
         let i' := clamp w (inject_Z (Z.of_nat i) - nth (2 * p + 1) flow 0)%Q in
         map (fun ch => nth ((j' * w + i') * c + ch) image 0%Q) (seq 0 c))
      (seq 0 (h * w));
  tf_rgb_to_grayscale := fun img =>
    match shape img with
    | [b; h; w; _] => Tensor [b; h; w; 1%nat] (replicate (b * h * w) 0%Q)
    | _ => img
    end
|}.

(** ** tfrecord.py: vgg_preprocessing *)

(** The outcome of code that uses [assert]: a value, a failed assertion, or
    one of the exceptions above.  Assertions are enabled, as they are unless
    the interpreter is started with [-O]. *)
Inductive checked (A : Type) : Type :=
  | Passed (a : A)
  | AssertionError
  | Failed (e : exn).
Arguments Passed {A} a.
Arguments AssertionError {A}.
Arguments Failed {A} e.

Definition VGG_MEAN : list Q :=
  [Float.binary64 (103939 # 1000); Float.binary64 (116779 # 1000);
   Float.binary64 (12368 # 100)].

(** [t * k] and [t - k] for a float32 tensor and a Python float: the
    constant is converted to float32, the operation is elementwise. *)
Definition scalar_mul (t : tensor Q) (k : Q) : tensor Q :=
  Tensor (shape t) (map (fun x => Float.binary32 (x * Float.binary32 k)) (data t)).

Definition scalar_sub (t : tensor Q) (k : Q) : tensor Q :=
  Tensor (shape t) (map (fun x => Float.binary32 (x - Float.binary32 k)) (data t)).

(** [tf.split(value, num_or_size_splits=num, axis=3)]: the tensor needs a
    fourth axis whose size [num] divides; part [j] takes, at every position of
    the first three axes, the [j]-th run of [c / num] slices. *)
Definition split_axis3 (num : nat) (value : tensor Q) : result (list (tensor Q)) :=
  match shape value with
  | b :: h :: w :: c :: rest =>
      if (0 <? num)%nat && (c mod num =? 0)%nat then
        let run := (c / num * numel rest)%nat in
        let positions := chunks (c * numel rest) (b * h * w) (data value) in
        Ok (map (fun j =>
                   Tensor (b :: h :: w :: (c / num)%nat :: rest)
                          (concat (map (fun p => take run (drop (j * run) p))
                                       positions)))
                (seq 0 num))
      else Raise ValueError
  | _ => Raise ValueError
  end.

(** [tf.concat(values=[x, y, z], axis=3)]: the three tensors agree on every
    axis but the fourth. *)
Definition concat_axis3 (x y z : tensor Q) : result (tensor Q) :=
  match shape x, shape y, shape z with
  | b :: h :: w :: cx :: rest, b' :: h' :: w' :: cy :: rest',
    b'' :: h'' :: w'' :: cz :: rest'' =>
      if decide ((b, h, w, rest) = (b', h', w', rest')
                 /\ (b, h, w, rest) = (b'', h'', w'', rest'')) then
        let n := (b * h * w)%nat in
        let inner := numel rest in
        Ok (Tensor (b :: h :: w :: (cx + cy + cz)%nat :: rest)
              (concat (zip_with app (chunks (cx * inner) n (data x))
                         (zip_with app (chunks (cy * inner) n (data y))
                                   (chunks (cz * inner) n (data z))))))
      else Raise ValueError
  | _, _, _ => Raise ValueError
  end.

(** [t.get_shape().as_list()[1:]] *)
Definition shape_tail (t : tensor Q) : list nat := tail (shape t).

(** [vgg_preprocessing] *)
Definition vgg_preprocessing (image_rgb : tensor Q) : checked (tensor Q) :=
  let image_rgb_scaled := scalar_mul image_rgb 255 in
  match split_axis3 3 image_rgb_scaled with
  | Raise e => Failed e
  | Ok [red; green; blue] =>
      if negb (bool_decide (shape_tail red = [224; 224; 1]%nat)) then AssertionError
      else if negb (bool_decide (shape_tail green = [224; 224; 1]%nat)) then AssertionError
      else if negb (bool_decide (shape_tail blue = [224; 224; 1]%nat)) then AssertionError
      else
        match concat_axis3 (scalar_sub blue (nth 0 VGG_MEAN 0%Q))
                           (scalar_sub green (nth 1 VGG_MEAN 0%Q))
                           (scalar_sub red (nth 2 VGG_MEAN 0%Q)) with
        | Raise e => Failed e
        | Ok image_bgr =>
            if bool_decide (shape_tail image_bgr = [224; 224; 3]%nat)
            then Passed image_bgr else AssertionError
        end
  | Ok _ => Failed ValueError
  end.

(** ** tfrecord.py: the colour distortions *)

(** The random colour operations of [tf.image], with the random value each
    one draws as first argument; they may reject the tensor they are given. *)
Record color_kernels : Type := {
  tf_random_brightness : Q -> tensor Q -> Q -> result (tensor Q);
  tf_random_saturation : Q -> tensor Q -> Q -> Q -> result (tensor Q);
  tf_random_hue : Q -> tensor Q -> Q -> result (tensor Q);
  tf_random_contrast : Q -> tensor Q -> Q -> Q -> result (tensor Q)
}.

(** The random values drawn by one call of a distortion function. *)
Record color_draws : Type := {
  brightness_draw : Q;
  saturation_draw : Q;
  hue_draw : Q;
  contrast_draw : Q
}.

(** [tf.clip_by_value(t, lo, hi)]: [maximum(minimum(t, hi), lo)] *)
Definition clip_by_value (t : tensor Q) (lo hi : Q) : tensor Q :=
  Tensor (shape t)
         (map (fun x => let m := if Qle_bool x hi then x else hi in
                        if Qle_bool lo m then m else lo)
              (data t)).

Section Distortions.

Variable k : color_kernels.
Variable d : color_draws.

Definition brightness (image : tensor Q) : result (tensor Q) :=
  tf_random_brightness k (brightness_draw d) image (Float.binary64 (32 / 255)).
Definition saturation (image : tensor Q) : result (tensor Q) :=
  tf_random_saturation k (saturation_draw d) image (1 # 2) (3 # 2).
Definition hue (image : tensor Q) : result (tensor Q) :=
  tf_random_hue k (hue_draw d) image (Float.binary64 (2 # 10)).
Definition contrast (image : tensor Q) : result (tensor Q) :=
  tf_random_contrast k (contrast_draw d) image (1 # 2) (3 # 2).

(** [distort_color] *)
Definition distort_color (image : tensor Q) (color_ordering : Z) (fast_mode : bool)
  : result (tensor Q) :=
  image ←
    (if fast_mode then
       if color_ordering =? 0 then
         image ← brightness image; saturation image
       else
         image ← saturation image; brightness image
     else
       if color_ordering =? 0 then
         image ← brightness image; image ← saturation image;
         image ← hue image; contrast image
       else if color_ordering =? 1 then
         image ← saturation image; image ← brightness image;
         image ← contrast image; hue image
       else if color_ordering =? 2 then
         image ← contrast image; image ← hue image;
         image ← brightness image; saturation image
       else if color_ordering =? 3 then
         image ← hue image; image ← saturation image;
         image ← contrast image; brightness image
       else Raise ValueError);
  Ok (clip_by_value image 0 1).

(** [distort_brightness_constrast] *)
Definition distort_brightness_constrast (image : tensor Q) (ordering : Z)
  : result (tensor Q) :=
  image ←
    (if ordering =? 0 then
       image ← brightness image; contrast image
     else
       image ← contrast image; brightness image);
  Ok (clip_by_value image 0 1).

End Distortions.

(** Kernels for running the distortion functions on concrete inputs: the
    brightness operation adds the value it drew, the other three leave the
    image as it is.  Every statement below holds for all kernels. *)
Definition shift_kernels : color_kernels := {|
  tf_random_brightness := fun delta image _ =>
    Ok (Tensor (shape image) (map (fun x => Float.binary32 (x + delta)) (data image)));
  tf_random_saturation := fun _ image _ _ => Ok image;
  tf_random_hue := fun _ image _ => Ok image;
  tf_random_contrast := fun _ image _ _ => Ok image
|}.

(** ** prepare_tfrecords.py: compute_mean *)

(** A NumPy float64 scalar: a finite float or [nan]. *)
Inductive npfloat : Type :=
  | Finite (q : Q)
  | NaN.

(** The order in which a reduction adds up the elements of an array: a
    binary tree of additions over positions of the array.  NumPy's own order
    (pairwise, in unrolled blocks) is one such tree for each length; an
    addition of the initial zero, which changes nothing, is left out. *)
Inductive sum_order : Type :=
  | Term (i : nat)
  | Plus (l r : sum_order).

Fixpoint terms (o : sum_order) : list nat :=
  match o with
  | Term i => [i]
  | Plus l r => terms l ++ terms r
  end.

(** the float64 sum of [xs] added up in the order [o] *)
Fixpoint float_sum_in (o : sum_order) (xs : list Q) : Q :=
  match o with
  | Term i => nth i xs 0%Q
  | Plus l r => Float.binary64 (float_sum_in l xs + float_sum_in r xs)
  end.

Section ImageStats.

(** [scipy.misc.imread(file, mode='L')]: the file as an array of 8-bit grey
    levels. *)
Variable imread_L : string -> result (tensor Z).

(** The order NumPy sums an array of [n] elements in. *)
Variable np_sum_order : nat -> sum_order.

(** [np.mean] of an integer array: the elements are added as float64, the sum
    is divided by their number; an empty array gives [nan]. *)
Definition np_mean_int (a : tensor Z) : npfloat :=
  match data a with
  | [] => NaN
  | _ =>
      let n := length (data a) in
      Finite (Float.binary64 (float_sum_in (np_sum_order n) (map inject_Z (data a))
                              / inject_Z (Z.of_nat n)))
  end.

(** [compute_mean] *)
Definition compute_mean (file : string) : result npfloat :=
  grey_img ← imread_L file;
  let mean := np_mean_int grey_img in
  Ok mean.

End ImageStats.

(** the sum of the integers of a list *)
Definition z_sum (l : list Z) : Z := fold_right Z.add 0 l.

(** A summation order over an array of [n] elements, for running
    [compute_mean] on concrete inputs: left to right. *)
Fixpoint left_to_right (n : nat) : sum_order :=
  match n with
  | O => Term 0
  | 1%nat => Term 0
  | S m => Plus (left_to_right m) (Term m)
  end.

(** ** Checks on the 256 byte values *)

(** the element function of [normalize], on a byte *)
Definition normalize_byte (v : Z) : Q :=
  Float.binary32
    (Float.binary32 (inject_Z v - Float.binary32 GLEASON_MEAN_G)
     / Float.binary32 GLEASON_MEAN_STD_G).

(** accuracy, range and strict growth of [normalize_byte], as decidable
    checks *)
Definition normalize_byte_close (v : Z) : bool :=
  Qle_bool (Qabs (normalize_byte v - (inject_Z v - (15385 # 100)) / (2538 # 100)))
           (1 # 1000000).

Definition normalize_byte_in_range (v : Z) : bool :=
  Qle_bool (- (607 # 100)) (normalize_byte v)
  && Qle_bool (normalize_byte v) (399 # 100).

Definition normalize_byte_rising (v : Z) : bool :=
  negb (Qle_bool (normalize_byte (v + 1)) (normalize_byte v)).

(** the exact sum of the elements of [px] at the given positions *)
Definition sum_at (px : list Z) (positions : list nat) : Z :=
  fold_right (fun i s => nth i px 0 + s) 0 positions.


(** ** Readable images *)

(** the first three channels of every pixel of an [h] x [w] x [c] array *)
Definition rgb_of (h w c : nat) (px : list Z) : list Z :=
  concat (map (take 3) (chunks c (h * w) px)).

(** what makes a file a readable 8-bit image of the declared size, under an
    ASCII path *)
Definition loads_as (open_image : string -> result pil_array) (h w c : nat)
    (fp : string) (px : list Z) : Prop :=
  open_image fp = Ok (Arr3 h w c px) /\ length px = (h * w * c)%nat
  /\ Forall is_byte px /\ PyStr.is_ascii fp = true.

(** * Properties *)

(** ** Fallible computations *)

Lemma bind_ok_inv {A B} (m : result A) (f : A -> result B) (b : B) :
  m ≫= f = Ok b -> exists a, m = Ok a /\ f a = Ok b.
Proof. destruct m as [a|e]; simpl; intros H; [eauto | discriminate]. Qed.

Ltac inv_bind H :=
  let a := fresh "a" in
  let Ha := fresh "Ha" in
  apply bind_ok_inv in H; destruct H as (a & Ha & H).

(** ** Byte strings *)

Section SplitFacts.
Variable sep : ascii.

Lemma split_not_nil s : PyStr.split sep s <> [].
Proof.
  destruct s as [|c s]; simpl; [discriminate|].
  destruct (Ascii.eqb c sep); [discriminate|].
  destruct (PyStr.split sep s); discriminate.
Qed.

Lemma split_tokens_free s :
  Forall (fun t => PyStr.contains sep t = false) (PyStr.split sep s).
Proof.
  induction s as [|c s IH]; simpl.
  - repeat constructor.
  - destruct (Ascii.eqb c sep) eqn:Ec.
    + constructor; [reflexivity | exact IH].
    + destruct (PyStr.split sep s) as [|tok toks].
      * repeat constructor. simpl. now rewrite Ec.
      * inversion IH; subst. constructor; [|assumption].
        simpl. now rewrite Ec.
Qed.

(** A separator-free prefix is determined by the joined string. *)
Lemma join_inj a a' b b' :
  PyStr.contains sep a = false -> PyStr.contains sep a' = false ->
  a +:+ String sep b = a' +:+ String sep b' -> a = a' /\ b = b'.
Proof.
  revert a'. induction a as [|c a IH]; intros [|c' a'] Ha Ha' E; simpl in *.
  - now inversion E.
  - inversion E; subst. rewrite Ascii.eqb_refl in Ha'. discriminate.
  - inversion E; subst. rewrite Ascii.eqb_refl in Ha. discriminate.
  - inversion E; subst.
    apply orb_false_iff in Ha as [_ Ha]. apply orb_false_iff in Ha' as [_ Ha'].
    destruct (IH a' Ha Ha' H1) as [-> ->]. easy.
Qed.
End SplitFacts.

Lemma lower_char_fixes_non_letters c d :
  (N_of_ascii d <? 65)%N || (90 <? N_of_ascii d)%N = true ->
  negb ((97 <=? N_of_ascii d)%N && (N_of_ascii d <=? 122)%N) = true ->
  PyStr.lower_char c = d <-> c = d.
Proof.
  intros Hd Hd'. unfold PyStr.lower_char. split.
  - destruct ((65 <=? N_of_ascii c)%N && (N_of_ascii c <=? 90)%N) eqn:E; [|easy].
    intros <-. exfalso.
    apply andb_true_iff in E as [E1 E2].
    apply N.leb_le in E1, E2.
    rewrite N_ascii_embedding in Hd' by lia.
    apply negb_true_iff, andb_false_iff in Hd' as [H|H]; apply N.leb_gt in H; lia.
  - intros ->.
    destruct ((65 <=? N_of_ascii d)%N && (N_of_ascii d <=? 90)%N) eqn:E; [|easy].
    apply andb_true_iff in E as [E1 E2]. apply N.leb_le in E1, E2.
    apply orb_true_iff in Hd as [H|H]; apply N.ltb_lt in H; lia.
Qed.

Lemma lower_keeps_separator_free t :
  PyStr.contains "_" (PyStr.lower t) = PyStr.contains "_" t.
Proof.
  induction t as [|c t IH]; simpl; [reflexivity|]. rewrite IH. f_equal.
  destruct (Ascii.eqb_spec c "_") as [->|Hne]; [reflexivity|].
  apply Ascii.eqb_neq. intros E. apply Hne.
  now apply (lower_char_fixes_non_letters c "_").
Qed.

Lemma lower_is_digit t d :
  (N_of_ascii d <? 65)%N = true ->
  PyStr.lower t = String d "" <-> t = String d "".
Proof.
  intros Hd.
  assert (Hc : forall c, PyStr.lower_char c = d <-> c = d).
  { intros c. apply N.ltb_lt in Hd.
    apply lower_char_fixes_non_letters.
    - apply orb_true_iff. left. now apply N.ltb_lt.
    - apply negb_true_iff, andb_false_iff. left. apply N.leb_gt. lia. }
  destruct t as [|c [|c' t]]; simpl; split; intros H; try discriminate.
  - injection H as H1. apply (proj1 (Hc c)) in H1. now subst.
  - injection H as ->. f_equal. now apply Hc.
Qed.

(** ** The label resolver *)

Lemma class_name_of_tokens img name t0 t1 rest :
  PyStr.last_item (PyStr.split "/" img) = Ok name ->
  PyStr.split "_" name = t0 :: t1 :: rest ->
  class_name_of img = Ok (PyStr.lower t0 +:+ "_" +:+ t1).
Proof.
  intros Hn Ht. unfold class_name_of. rewrite Hn. simpl. rewrite Ht. reflexivity.
Qed.

Lemma last_item_split img : exists name, PyStr.last_item (PyStr.split "/" img) = Ok name.
Proof.
  unfold PyStr.last_item.
  destruct (List.rev (PyStr.split "/" img)) as [|x l] eqn:E; [|eauto].
  exfalso. apply (split_not_nil "/" img).
  rewrite <- (rev_involutive (PyStr.split "/" img)), E. reflexivity.
Qed.

(** Lower-casing the second token does not change which recognised key, if
    any, the class key is. *)
Lemma key_match_second_token t0 t1 g d :
  PyStr.contains "_" t0 = false ->
  PyStr.contains "_" g = false ->
  (N_of_ascii d <? 65)%N = true ->
  String.eqb (PyStr.lower t0 +:+ "_" +:+ t1) (g +:+ "_" +:+ String d "")
  = String.eqb (PyStr.lower t0 +:+ "_" +:+ PyStr.lower t1) (g +:+ "_" +:+ String d "").
Proof.
  intros H0 Hg Hd.
  assert (H0' : PyStr.contains "_" (PyStr.lower t0) = false)
    by now rewrite lower_keeps_separator_free.
  destruct (String.eqb_spec (PyStr.lower t0 +:+ "_" +:+ t1) (g +:+ "_" +:+ String d "")) as [E|E];
  destruct (String.eqb_spec (PyStr.lower t0 +:+ "_" +:+ PyStr.lower t1) (g +:+ "_" +:+ String d "")) as [E'|E'];
    try reflexivity; exfalso.
  - apply (join_inj "_") in E as [Ea Eb]; [|assumption..].
    apply E'. rewrite Ea. f_equal. f_equal. now apply (lower_is_digit t1 d Hd).
  - apply (join_inj "_") in E' as [Ea Eb]; [|assumption..].
    apply E. rewrite Ea. f_equal. f_equal. now apply (lower_is_digit t1 d Hd).
Qed.

Lemma split_without_separator sep s :
  PyStr.contains sep s = false -> PyStr.split sep s = [s].
Proof.
  induction s as [|c s IH]; simpl; [reflexivity|].
  intros H. apply orb_false_iff in H as [Hc Hs].
  rewrite Hc, (IH Hs). reflexivity.
Qed.

Lemma split_with_separator sep s :
  PyStr.contains sep s = true ->
  exists t0 t1 rest, PyStr.split sep s = t0 :: t1 :: rest.
Proof.
  induction s as [|c s IH]; simpl; [discriminate|].
  destruct (Ascii.eqb c sep) eqn:Ec; simpl; intros H.
  - destruct (PyStr.split sep s) as [|t ts] eqn:Es.
    + now destruct (split_not_nil sep s).
    + eauto.
  - destruct (IH H) as (t0 & t1 & rest & ->). eauto.
Qed.

(** C6, the claim as stated fails.  Only the first token is lower-cased:
    the class key of a name whose second token has capital letters is not
    the key with both tokens lower-cased.  And a name with a single token
    has no second token to join: [file_name[1]] raises, no key is formed and
    no label returned. *)
Lemma class_key_keeps_second_token_case :
  class_name_of "/data/train/Benign_Stroma_07.png" = Ok "benign_Stroma"%string
  /\ spec_class_key "Benign_Stroma_07.png" = Some "benign_stroma"%string
  /\ spec_class_key "stroma07.png" = None
  /\ class_name_of "/data/val/stroma07.png" = Raise IndexError
  /\ ~ (forall img name : string,
          PyStr.last_item (PyStr.split "/" img) = Ok name ->
          exists key, spec_class_key name = Some key /\ class_name_of img = Ok key).
Proof.
  repeat split; try reflexivity.
  intros H.
  destruct (H "/data/train/Benign_Stroma_07.png"%string "Benign_Stroma_07.png"%string
              eq_refl) as (key & Hs & Hc).
  vm_compute in Hs, Hc. congruence.
Qed.

(** C6, amended.  Let [name] be the file name of an identifier (the part
    after its last slash).  When the name has at least two
    underscore-delimited tokens, the class key the code forms is the first
    token lower-cased, an underscore, and the second token as written; the
    label it returns is the one the table of the specification gives to the
    key with both tokens lower-cased: gleason_5 is 3, gleason_4 is 2,
    gleason_3 is 1 and every other key is 0 (a recognised key ends in a
    digit, which has no case).  When the name has a single token, that is
    no underscore, no key is formed and the resolver raises [IndexError]. *)
Theorem label_resolver_table (img name : string) :
  PyStr.last_item (PyStr.split "/" img) = Ok name ->
  (forall t0 t1 rest,
     PyStr.split "_" name = t0 :: t1 :: rest ->
     class_name_of img = Ok (PyStr.lower t0 +:+ "_" +:+ t1)
     /\ spec_class_key name = Some (PyStr.lower t0 +:+ "_" +:+ PyStr.lower t1))
  /\ (forall key,
        spec_class_key name = Some key ->
        resolve_label img = Ok (spec_label_table key)
        /\ (key = "gleason_5" -> resolve_label img = Ok 3)
        /\ (key = "gleason_4" -> resolve_label img = Ok 2)
        /\ (key = "gleason_3" -> resolve_label img = Ok 1)
        /\ (key <> "gleason_5" -> key <> "gleason_4" -> key <> "gleason_3" ->
            resolve_label img = Ok 0))
  /\ (spec_class_key name = None <-> PyStr.contains "_" name = false)
  /\ (spec_class_key name = None ->
        class_name_of img = Raise IndexError
        /\ resolve_label img = Raise IndexError).
Proof.
  intros Hn. split; [|split; [|split]].
  - intros t0 t1 rest Ht. split.
    + exact (class_name_of_tokens _ _ _ _ _ Hn Ht).
    + unfold spec_class_key. now rewrite Ht.
  - intros key Hk. unfold spec_class_key in Hk.
    destruct (PyStr.split "_" name) as [|t0 [|t1 rest]] eqn:Ht; try discriminate.
    injection Hk as <-.
    assert (Hfree : PyStr.contains "_" t0 = false).
    { pose proof (split_tokens_free "_" name) as F. rewrite Ht in F.
      now inversion F. }
    assert (Hres : resolve_label img
                   = Ok (spec_label_table (PyStr.lower t0 +:+ "_" +:+ PyStr.lower t1))).
    { unfold resolve_label. rewrite (class_name_of_tokens _ _ _ _ _ Hn Ht).
      cbn [mbind result_bind].
      unfold label_of_class, spec_label_table.
      change "gleason_5"%string with ("gleason" +:+ "_" +:+ String "5"%char "").
      change "gleason_4"%string with ("gleason" +:+ "_" +:+ String "4"%char "").
      change "gleason_3"%string with ("gleason" +:+ "_" +:+ String "3"%char "").
      rewrite (key_match_second_token t0 t1 "gleason" "5"),
              (key_match_second_token t0 t1 "gleason" "4"),
              (key_match_second_token t0 t1 "gleason" "3") by (assumption || reflexivity).
      reflexivity. }
    rewrite Hres. split; [reflexivity|].
    unfold spec_label_table.
    repeat split.
    + intros ->. reflexivity.
    + intros ->. reflexivity.
    + intros ->. reflexivity.
    + intros H5 H4 H3.
      apply String.eqb_neq in H5, H4, H3. now rewrite H5, H4, H3.
  - unfold spec_class_key. split.
    + intros Hk. destruct (PyStr.contains "_" name) eqn:Hc; [|reflexivity].
      destruct (split_with_separator _ _ Hc) as (t0 & t1 & rest & Ht).
      rewrite Ht in Hk. discriminate.
    + intros Hc. now rewrite (split_without_separator _ _ Hc).
  - intros Hk. unfold spec_class_key in Hk.
    assert (Hcn : class_name_of img = Raise IndexError).
    { unfold class_name_of. rewrite Hn. cbn [mbind result_bind].
      destruct (PyStr.split "_" name) as [|t0 [|t1 rest]] eqn:Ht;
        [reflexivity|reflexivity|discriminate]. }
    split; [exact Hcn|]. unfold resolve_label. now rewrite Hcn.
Qed.

Lemma label_resolver_table_witness :
  class_name_of "/data/train/Gleason_5_0012.png" = Ok "gleason_5"%string
  /\ resolve_label "/data/train/Gleason_5_0012.png" = Ok 3.
Proof.
  destruct (label_resolver_table "/data/train/Gleason_5_0012.png"
              "Gleason_5_0012.png" eq_refl) as (Hkey & Hlabel & _).
  split.
  - exact (proj1 (Hkey "Gleason"%string "5"%string ["0012.png"%string] eq_refl)).
  - exact (proj1 (proj2 (Hlabel "gleason_5"%string eq_refl)) eq_refl).
Defined.

(** C7, the claim as stated fails: a file whose name has no underscore makes
    [file_name[1]] raise, so no label is returned. *)
Lemma label_resolver_not_total :
  resolve_label "/data/train/benign.png" = Raise IndexError
  /\ ~ (forall img : string, exists l : Z, resolve_label img = Ok l).
Proof.
  split; [reflexivity|].
  intros H. destruct (H "/data/train/benign.png"%string) as [l Hl]. discriminate.
Qed.

(** C7, amended.  On every file whose name (the part after the last slash)
    contains an underscore the resolver returns a label without raising, and
    a class key other than the three recognised ones yields label 0; on a
    name without underscore it raises [IndexError]. *)
Theorem label_resolver_total_on_underscored_names (img name : string) :
  PyStr.last_item (PyStr.split "/" img) = Ok name ->
  (PyStr.contains "_" name = true ->
     exists key, class_name_of img = Ok key
       /\ resolve_label img = Ok (label_of_class key)
       /\ (key <> "gleason_5" -> key <> "gleason_4" -> key <> "gleason_3" ->
           resolve_label img = Ok 0))
  /\ (PyStr.contains "_" name = false -> resolve_label img = Raise IndexError).
Proof.
  intros Hn. split; intros Hc.
  - destruct (split_with_separator _ _ Hc) as (t0 & t1 & rest & Ht).
    exists (PyStr.lower t0 +:+ "_" +:+ t1).
    pose proof (class_name_of_tokens _ _ _ _ _ Hn Ht) as Hk.
    unfold resolve_label. rewrite Hk. simpl.
    repeat split; try reflexivity.
    intros H5 H4 H3. unfold label_of_class.
    apply String.eqb_neq in H5, H4, H3. now rewrite H5, H4, H3.
  - unfold resolve_label, class_name_of. rewrite Hn. simpl.
    rewrite (split_without_separator _ _ Hc). reflexivity.
Qed.

Lemma label_resolver_total_on_underscored_names_witness :
  (exists key, class_name_of "/data/train/Benign_tissue_07.png" = Ok key
     /\ resolve_label "/data/train/Benign_tissue_07.png" = Ok (label_of_class key)
     /\ (key <> "gleason_5" -> key <> "gleason_4" -> key <> "gleason_3" ->
         resolve_label "/data/train/Benign_tissue_07.png" = Ok 0))
  /\ resolve_label "/data/train/Benign_tissue_07.png" = Ok 0.
Proof.
  split; [|reflexivity].
  apply (label_resolver_total_on_underscored_names
           "/data/train/Benign_tissue_07.png" "Benign_tissue_07.png");
    reflexivity.
Defined.

(** ** Rounding *)

Module FloatFacts.
Import Float.

Lemma round_half_even_close q :
  (Qabs (inject_Z (round_half_even q) - q) <= 1 # 2)%Q.
Proof.
  pose proof (Qfloor_le q) as Hlo. pose proof (Qlt_floor q) as Hhi.
  rewrite inject_Z_plus in Hhi. change (inject_Z 1) with 1%Q in Hhi.
  apply Qabs_Qle_condition. unfold round_half_even.
  destruct (q - inject_Z (Qfloor q) ?= 1 # 2)%Q eqn:C.
  - apply Qeq_alt in C.
    destruct (Z.even (Qfloor q)); rewrite ?inject_Z_plus;
      change (inject_Z 1) with 1%Q; split; lra.
  - apply Qlt_alt in C. split; lra.
  - apply Qgt_alt in C. rewrite inject_Z_plus.
    change (inject_Z 1) with 1%Q. split; lra.
Qed.

Lemma two_power_pos e : (0 < 2 ^ e)%Q.
Proof. apply Qpower_0_lt. reflexivity. Qed.

Lemma two_neq_0 : ~ (2 == 0)%Q.
Proof. discriminate. Qed.

Lemma ilog2_le a : (0 < a)%Q -> (2 ^ ilog2 a <= a)%Q.
Proof.
  intros Ha. destruct a as [n d]. unfold ilog2. cbn [Qnum Qden].
  set (ln := Z.log2 n). set (ld := Z.log2 (Zpos d)).
  destruct (Qle_bool (2 ^ (ln - ld)) (n # d)) eqn:T.
  - now apply Qle_bool_iff.
  - clear T.
    assert (Hn : 0 < n) by (unfold Qlt in Ha; simpl in Ha; lia).
    destruct (Z.log2_spec n Hn) as [Hn1 _].
    destruct (Z.log2_spec (Zpos d) (Pos2Z.is_pos d)) as [_ Hd2].
    fold ln in Hn1. fold ld in Hd2.
    assert (Hln : 0 <= ln) by apply Z.log2_nonneg.
    assert (Hld : 0 <= ld) by apply Z.log2_nonneg.
    replace (ln - ld - 1) with (ln - Z.succ ld) by lia.
    rewrite Qpower_minus by apply two_neq_0.
    change 2%Q with (inject_Z 2).
    rewrite <- !Zpower_Qpower by lia.
    apply Qle_shift_div_r.
    + change 0%Q with (inject_Z 0). rewrite <- Zlt_Qlt. lia.
    + unfold Qle, Qmult, inject_Z. simpl. nia.
Qed.

Lemma rnd_zero prec : rnd prec 0 = 0%Q.
Proof. reflexivity. Qed.

(** relative error of rounding a positive rational *)
Lemma rnd_error prec q :
  (0 < q)%Q -> (Qabs (rnd prec q - q) <= q * 2 ^ (- prec))%Q.
Proof.
  intros Hq. unfold rnd.
  assert (Hne : Qeq_bool q 0 = false).
  { destruct (Qeq_bool q 0) eqn:E; [|reflexivity].
    apply Qeq_bool_iff in E. lra. }
  assert (Hle : Qle_bool 0 q = true) by (apply Qle_bool_iff; lra).
  assert (Habs : Qabs q = q).
  { destruct q as [[|p|p] d]; try reflexivity.
    unfold Qlt in Hq. simpl in Hq. lia. }
  rewrite Hne, Hle, Habs, Qred_correct.
  pose proof (ilog2_le q Hq) as He.
  set (e := ilog2 q) in *. set (s := prec - 1 - e).
  pose proof (two_power_pos s) as HP.
  pose proof (round_half_even_close (q * 2 ^ s)) as Hm.
  set (m := inject_Z (round_half_even (q * 2 ^ s))) in *.
  assert (E1 : (2 ^ (e - prec) == (1 # 2) * / 2 ^ s)%Q).
  { replace (e - prec) with ((-1) + (- s)) by (unfold s; lia).
    rewrite Qpower_plus by apply two_neq_0.
    rewrite Qpower_opp. reflexivity. }
  assert (E2 : (2 ^ (e - prec) == 2 ^ e * 2 ^ (- prec))%Q).
  { unfold Z.sub. apply Qpower_plus, two_neq_0. }
  assert (E3 : (m / 2 ^ s - q == (m - q * 2 ^ s) * / 2 ^ s)%Q).
  { field. lra. }
  rewrite E3, Qabs_Qmult.
  rewrite (Qabs_pos (/ 2 ^ s)) by (apply Qlt_le_weak, Qinv_lt_0_compat, HP).
  apply Qle_trans with ((1 # 2) * / 2 ^ s)%Q.
  - apply Qmult_le_compat_r; [exact Hm|].
    apply Qlt_le_weak, Qinv_lt_0_compat, HP.
  - rewrite <- E1, E2. apply Qmult_le_compat_r; [exact He|].
    apply Qlt_le_weak, two_power_pos.
Qed.
End FloatFacts.

(** ** Class ratios *)

Lemma label_of_class_range cn :
  label_of_class cn = 0 \/ label_of_class cn = 1
  \/ label_of_class cn = 2 \/ label_of_class cn = 3.
Proof.
  unfold label_of_class.
  repeat match goal with |- context [String.eqb ?a ?b] => destruct (String.eqb a b) end;
    auto.
Qed.

Lemma tally_step_incr d img :
  tally_step d img
  = (class_name ← class_name_of img; dict_incr d (label_of_class class_name)).
Proof.
  unfold tally_step, label_of_class.
  destruct (class_name_of img) as [cn|e]; simpl; [|reflexivity].
  repeat match goal with |- context [String.eqb ?a ?b] => destruct (String.eqb a b) end;
    reflexivity.
Qed.

Lemma labelled_class img cn k :
  class_name_of img = Ok cn -> labelled k img = (label_of_class cn =? k).
Proof. intros H. unfold labelled, resolve_label. now rewrite H. Qed.

(** The loop invariant of the tally: the four keys stay present and key [k]
    holds its initial value plus the number of files labelled [k] so far. *)
Lemma tally_counts files : forall (d : gmap Z Z) a0 a1 a2 a3,
  d !! 0 = Some a0 -> d !! 1 = Some a1 -> d !! 2 = Some a2 -> d !! 3 = Some a3 ->
  Forall (fun img => is_ok (resolve_label img) = true) files ->
  exists d' : gmap Z Z,
    for_each tally_step files d = Ok d'
    /\ d' !! 0 = Some (a0 + count_label 0 files)
    /\ d' !! 1 = Some (a1 + count_label 1 files)
    /\ d' !! 2 = Some (a2 + count_label 2 files)
    /\ d' !! 3 = Some (a3 + count_label 3 files).
Proof.
  induction files as [|img files IH]; intros d a0 a1 a2 a3 H0 H1 H2 H3 Hok.
  - exists d. simpl. rewrite !Z.add_0_r. auto.
  - inversion Hok as [|? ? Himg Hrest]; subst.
    unfold resolve_label in Himg.
    destruct (class_name_of img) as [cn|e] eqn:Hcn; [|discriminate].
    simpl. rewrite tally_step_incr, Hcn. simpl.
    rewrite !(labelled_class img cn) by assumption.
    unfold dict_incr, dict_get.
    destruct (label_of_class_range cn) as [L|[L|[L|L]]]; rewrite L; simpl.
    + rewrite H0. simpl.
      destruct (IH (<[0 := a0 + 1]> d) (a0 + 1) a1 a2 a3) as (d' & Hd & K0 & K1 & K2 & K3);
        try assumption; try (rewrite lookup_insert_ne by lia; assumption);
        [apply lookup_insert_eq|].
      exists d'. rewrite Hd, K0, K1, K2, K3. repeat split; f_equal; lia.
    + rewrite H1. simpl.
      destruct (IH (<[1 := a1 + 1]> d) a0 (a1 + 1) a2 a3) as (d' & Hd & K0 & K1 & K2 & K3);
        try assumption; try (rewrite lookup_insert_ne by lia; assumption);
        [apply lookup_insert_eq|].
      exists d'. rewrite Hd, K0, K1, K2, K3. repeat split; f_equal; lia.
    + rewrite H2. simpl.
      destruct (IH (<[2 := a2 + 1]> d) a0 a1 (a2 + 1) a3) as (d' & Hd & K0 & K1 & K2 & K3);
        try assumption; try (rewrite lookup_insert_ne by lia; assumption);
        [apply lookup_insert_eq|].
      exists d'. rewrite Hd, K0, K1, K2, K3. repeat split; f_equal; lia.
    + rewrite H3. simpl.
      destruct (IH (<[3 := a3 + 1]> d) a0 a1 a2 (a3 + 1)) as (d' & Hd & K0 & K1 & K2 & K3);
        try assumption; try (rewrite lookup_insert_ne by lia; assumption);
        [apply lookup_insert_eq|].
      exists d'. rewrite Hd, K0, K1, K2, K3. repeat split; f_equal; lia.
Qed.

Lemma tally_from_zero files :
  Forall (fun img => is_ok (resolve_label img) = true) files ->
  exists d' : gmap Z Z,
    for_each tally_step files {[ 0 := 0; 1 := 0; 2 := 0; 3 := 0 ]} = Ok d'
    /\ comprehension (dict_get d') [0; 1; 2; 3]
       = Ok [count_label 0 files; count_label 1 files;
             count_label 2 files; count_label 3 files].
Proof.
  intros Hok.
  destruct (tally_counts files {[ 0 := 0; 1 := 0; 2 := 0; 3 := 0 ]} 0 0 0 0)
    as (d' & Hd & K0 & K1 & K2 & K3); try reflexivity; try assumption.
  exists d'. split; [assumption|].
  simpl. unfold dict_get. rewrite K0, K1, K2, K3. reflexivity.
Qed.

Lemma count_label_nonneg k files : 0 <= count_label k files.
Proof. induction files as [|f l IH]; simpl; [lia|]. destruct (labelled k f); lia. Qed.

Lemma truediv_by_zero_count total values :
  In 0 values ->
  comprehension (fun v => Float.int_truediv total v) values = Raise ZeroDivisionError.
Proof.
  induction values as [|v values IH]; intros Hin; [destruct Hin|].
  cbn [comprehension].
  destruct (Z.eq_dec v 0) as [->|Hv]; [reflexivity|].
  destruct Hin as [->|Hin]; [congruence|].
  rewrite (IH Hin). unfold Float.int_truediv.
  destruct (Z.eqb_spec v 0); [congruence|reflexivity].
Qed.

Module WeightBounds.
Import Float FloatFacts.

(** unit roundoff of binary64 *)
Definition u : Q := 1 # 9007199254740992.

Lemma binary64_bounds x :
  (0 < x)%Q -> ((1 - u) * x <= binary64 x /\ binary64 x <= (1 + u) * x)%Q.
Proof.
  intros Hx. pose proof (rnd_error 53 x Hx) as H.
  change (2 ^ (- (53)))%Q with u in H.
  apply Qabs_Qle_condition in H. fold (binary64 x) in H.
  unfold u in *. split; lra.
Qed.

Lemma binary64_pos x : (0 < x)%Q -> (0 < binary64 x)%Q.
Proof.
  intros Hx. destruct (binary64_bounds x Hx) as [H _]. unfold u in H. lra.
Qed.

Lemma inverse_frequency_pos total c :
  0 < total -> 0 < c -> (0 < inject_Z total / inject_Z c)%Q.
Proof.
  intros Ht Hc. apply Qlt_shift_div_l.
  - change 0%Q with (inject_Z 0). now rewrite <- Zlt_Qlt.
  - rewrite Qmult_0_l. change 0%Q with (inject_Z 0). now rewrite <- Zlt_Qlt.
Qed.

Lemma sum_close_abstract (x0 x1 x2 x3 w0 w1 w2 w3 : Q) :
  ((1 - u) * x0 <= w0 /\ w0 <= (1 + u) * x0)%Q ->
  ((1 - u) * x1 <= w1 /\ w1 <= (1 + u) * x1)%Q ->
  ((1 - u) * x2 <= w2 /\ w2 <= (1 + u) * x2)%Q ->
  ((1 - u) * x3 <= w3 /\ w3 <= (1 + u) * x3)%Q ->
  ((1 - u) ^ 4 * (x0 + x1 + x2 + x3) <= 1)%Q ->
  (1 <= (1 + u) ^ 4 * (x0 + x1 + x2 + x3))%Q ->
  (Qabs (w0 + w1 + w2 + w3 - 1) <= 1 # 1125899906842624)%Q.
Proof.
  intros [l0 u0] [l1 u1] [l2 u2] [l3 u3] Lg Ug.
  apply Qabs_Qle_condition.
  unfold u in *. simpl Qpower in *. split; lra.
Qed.

(** four roundings of a running sum of positive terms *)
Lemma float_sum_bounds (f0 f1 f2 f3 : Q) :
  (0 < f0)%Q -> (0 < f1)%Q -> (0 < f2)%Q -> (0 < f3)%Q ->
  ((1 - u) ^ 4 * (f0 + f1 + f2 + f3) <= float_sum [f0; f1; f2; f3]
   /\ float_sum [f0; f1; f2; f3] <= (1 + u) ^ 4 * (f0 + f1 + f2 + f3))%Q.
Proof.
  intros P0 P1 P2 P3.
  change (float_sum [f0; f1; f2; f3])
    with (binary64 (binary64 (binary64 (binary64 (0 + f0) + f1) + f2) + f3)).
  assert (Q0 : (0 < 0 + f0)%Q) by lra.
  pose proof (binary64_bounds _ Q0) as [L1 U1].
  pose proof (binary64_pos _ Q0) as Z1.
  generalize dependent (binary64 (0 + f0)). intros s1 L1 U1 Z1.
  assert (Q1 : (0 < s1 + f1)%Q) by lra.
  pose proof (binary64_bounds _ Q1) as [L2 U2].
  pose proof (binary64_pos _ Q1) as Z2.
  generalize dependent (binary64 (s1 + f1)). intros s2 L2 U2 Z2.
  assert (Q2 : (0 < s2 + f2)%Q) by lra.
  pose proof (binary64_bounds _ Q2) as [L3 U3].
  pose proof (binary64_pos _ Q2) as Z3.
  generalize dependent (binary64 (s2 + f2)). intros s3 L3 U3 Z3.
  assert (Q3 : (0 < s3 + f3)%Q) by lra.
  pose proof (binary64_bounds _ Q3) as [L4 U4].
  generalize dependent (binary64 (s3 + f3)). intros s4 L4 U4.
  unfold u in *. simpl Qpower. split; lra.
Qed.

(** the weights computed against any divisor within the bounds of
    [float_sum_bounds] *)
Lemma weights_close_for (f0 f1 f2 f3 S : Q) :
  (0 < f0)%Q -> (0 < f1)%Q -> (0 < f2)%Q -> (0 < f3)%Q ->
  ((1 - u) ^ 4 * (f0 + f1 + f2 + f3) <= S)%Q ->
  (S <= (1 + u) ^ 4 * (f0 + f1 + f2 + f3))%Q ->
  (0 < S)%Q
  /\ (0 < binary64 (f0 / S))%Q /\ (0 < binary64 (f1 / S))%Q
  /\ (0 < binary64 (f2 / S))%Q /\ (0 < binary64 (f3 / S))%Q
  /\ (Qabs (binary64 (f0 / S) + binary64 (f1 / S) + binary64 (f2 / S)
            + binary64 (f3 / S) - 1) <= 1 # 1125899906842624)%Q.
Proof.
  intros P0 P1 P2 P3 L U.
  assert (HS : (0 < S)%Q).
  { unfold u in L. simpl Qpower in L. lra. }
  assert (G : forall f, (0 < f)%Q -> (0 < f / S)%Q).
  { intros f Hf. apply Qlt_shift_div_l; [exact HS|lra]. }
  assert (E : (f0 / S + f1 / S + f2 / S + f3 / S == (f0 + f1 + f2 + f3) / S)%Q).
  { field. lra. }
  split; [exact HS|].
  repeat (split; [apply binary64_pos, G; assumption|]).
  apply (sum_close_abstract (f0 / S) (f1 / S) (f2 / S) (f3 / S)).
  - apply (binary64_bounds _ (G _ P0)).
  - apply (binary64_bounds _ (G _ P1)).
  - apply (binary64_bounds _ (G _ P2)).
  - apply (binary64_bounds _ (G _ P3)).
  - rewrite E. unfold Qdiv. rewrite Qmult_assoc.
    apply Qle_shift_div_r; [exact HS|]. lra.
  - rewrite E. unfold Qdiv. rewrite Qmult_assoc.
    apply Qle_shift_div_l; [exact HS|]. lra.
Qed.
End WeightBounds.

Lemma int_truediv_ok a b :
  b <> 0 -> Float.int_truediv a b = Ok (Float.binary64 (inject_Z a / inject_Z b)).
Proof. intros H. unfold Float.int_truediv. now destruct (Z.eqb_spec b 0). Qed.

Lemma float_div_ok x y :
  (0 < y)%Q -> Float.float_div x y = Ok (Float.binary64 (x / y)).
Proof.
  intros H. unfold Float.float_div.
  destruct (Qeq_bool y 0) eqn:E; [|reflexivity].
  apply Qeq_bool_iff in E. lra.
Qed.

Lemma int_sum_four a b c d : Float.int_sum [a; b; c; d] = a + b + c + d.
Proof. reflexivity. Qed.

(** C3, the claim as stated fails: with no file of class 0 the aggregation
    stops on Python's own [ZeroDivisionError]; the source has no
    [ConfigurationError]. *)
Lemma zero_count_is_not_configuration_error :
  calculate_class_ratios
    ["/d/train/Gleason_5_a.png"; "/d/train/Gleason_4_b.png";
     "/d/train/Gleason_3_c.png"]%string "train"
  = Raise ZeroDivisionError
  /\ calculate_class_ratios
       ["/d/train/Gleason_5_a.png"; "/d/train/Gleason_4_b.png";
        "/d/train/Gleason_3_c.png"]%string "train"
     <> Raise ConfigurationError.
Proof. split; [vm_compute; reflexivity | vm_compute; discriminate]. Qed.

(** C3, amended.  When every file name resolves to a label and one of the
    four classes has no file, the aggregation raises [ZeroDivisionError] on
    the integer division [sum(values)/v]: no weight is computed, printed or
    saved, and no inf or NaN arises. *)
Theorem zero_count_raises_zero_division (files : list string) (dataset : string) :
  Forall (fun img => is_ok (resolve_label img) = true) files ->
  (exists k, In k [0; 1; 2; 3] /\ count_label k files = 0) ->
  calculate_class_ratios files dataset = Raise ZeroDivisionError.
Proof.
  intros Hok (k & Hk & Hz).
  destruct (tally_from_zero files Hok) as (d & Hd & Hv).
  unfold calculate_class_ratios. rewrite Hd. cbn [mbind result_bind].
  unfold class_weights_of. rewrite Hv. cbn [mbind result_bind].
  rewrite truediv_by_zero_count; [reflexivity|].
  simpl in Hk |- *.
  destruct Hk as [<-|[<-|[<-|[<-|[]]]]]; rewrite Hz; auto 6.
Qed.

Lemma zero_count_raises_zero_division_witness :
  calculate_class_ratios
    ["/d/train/Gleason_5_a.png"; "/d/train/benign_1_b.png";
     "/d/train/Gleason_3_c.png"]%string "train"
  = Raise ZeroDivisionError.
Proof.
  apply zero_count_raises_zero_division.
  - repeat constructor.
  - exists 2. split; [simpl; auto | reflexivity].
Defined.

Lemma bind_ok {A B} (m : result A) (f : A -> result B) a :
  m = Ok a -> m ≫= f = f a.
Proof. now intros ->. Qed.

Lemma comprehension_four {A B} (f : A -> result B) a b c d y0 y1 y2 y3 :
  f a = Ok y0 -> f b = Ok y1 -> f c = Ok y2 -> f d = Ok y3 ->
  comprehension f [a; b; c; d] = Ok [y0; y1; y2; y3].
Proof. intros H0 H1 H2 H3. simpl. now rewrite H0, H1, H2, H3. Qed.

Lemma class_weights_of_computes dataset (d : gmap Z Z) c0 c1 c2 c3 total f0 f1 f2 f3 S :
  comprehension (dict_get d) [0; 1; 2; 3] = Ok [c0; c1; c2; c3] ->
  1 <= c0 -> 1 <= c1 -> 1 <= c2 -> 1 <= c3 ->
  total = c0 + c1 + c2 + c3 ->
  f0 = Float.binary64 (inject_Z total / inject_Z c0) ->
  f1 = Float.binary64 (inject_Z total / inject_Z c1) ->
  f2 = Float.binary64 (inject_Z total / inject_Z c2) ->
  f3 = Float.binary64 (inject_Z total / inject_Z c3) ->
  S = Float.float_sum [f0; f1; f2; f3] ->
  (0 < S)%Q ->
  class_weights_of dataset d
  = Ok [EvPrint (MsgClassRatios
                   [Float.binary64 (inject_Z c0 / inject_Z total);
                    Float.binary64 (inject_Z c1 / inject_Z total);
                    Float.binary64 (inject_Z c2 / inject_Z total);
                    Float.binary64 (inject_Z c3 / inject_Z total)]);
        EvPrint (MsgClassWeights
                   [Float.binary64 (f0 / S); Float.binary64 (f1 / S);
                    Float.binary64 (f2 / S); Float.binary64 (f3 / S)]);
        EvSave (dataset +:+ "_class_weights.npy")
               [Float.binary64 (f0 / S); Float.binary64 (f1 / S);
                Float.binary64 (f2 / S); Float.binary64 (f3 / S)]].
Proof.
  intros Hv C0 C1 C2 C3 Ht E0 E1 E2 E3 ES HS.
  unfold class_weights_of.
  rewrite (bind_ok _ _ _ Hv).
  rewrite int_sum_four, <- Ht.
  rewrite (bind_ok _ _ [f0; f1; f2; f3]).
  2:{ apply comprehension_four; rewrite int_truediv_ok by lia; congruence. }
  rewrite <- ES.
  rewrite (bind_ok _ _ [Float.binary64 (f0 / S); Float.binary64 (f1 / S);
                        Float.binary64 (f2 / S); Float.binary64 (f3 / S)]).
  2:{ apply comprehension_four; apply float_div_ok, HS. }
  erewrite bind_ok.
  2:{ apply comprehension_four; apply int_truediv_ok; lia. }
  reflexivity.
Qed.

(** C8.  When every file name resolves to a label and each of the four
    classes has at least one file, the aggregation saves a vector of four
    weights; weight i is the (float) quotient of total/count_i by the (float)
    sum of the four terms total/count_j; every weight is non-negative; and the
    exact sum of the four floats is within 2^-50 of 1. *)
Theorem class_weights_normalised (files : list string) (dataset : string) :
  Forall (fun img => is_ok (resolve_label img) = true) files ->
  1 <= count_label 0 files -> 1 <= count_label 1 files ->
  1 <= count_label 2 files -> 1 <= count_label 3 files ->
  let total := count_label 0 files + count_label 1 files
               + count_label 2 files + count_label 3 files in
  let f k := Float.binary64 (inject_Z total / inject_Z (count_label k files)) in
  let S := Float.float_sum [f 0; f 1; f 2; f 3] in
  exists ws ratios,
    calculate_class_ratios files dataset
    = Ok [EvPrint (MsgClassRatios ratios); EvPrint (MsgClassWeights ws);
          EvSave (dataset +:+ "_class_weights.npy") ws]
    /\ length ws = 4%nat
    /\ ws = [Float.binary64 (f 0 / S); Float.binary64 (f 1 / S);
             Float.binary64 (f 2 / S); Float.binary64 (f 3 / S)]
    /\ Forall (fun w => (0 <= w)%Q) ws
    /\ (Qabs (q_sum ws - 1) <= 1 # 1125899906842624)%Q.
Proof.
  intros Hok C0 C1 C2 C3 total f S.
  destruct (tally_from_zero files Hok) as (d & Hd & Hv).
  assert (Ht : 0 < total) by (unfold total; lia).
  assert (Pf : forall k, 1 <= count_label k files -> (0 < f k)%Q).
  { intros k Hk. apply WeightBounds.binary64_pos,
      WeightBounds.inverse_frequency_pos; lia. }
  pose proof (WeightBounds.float_sum_bounds (f 0) (f 1) (f 2) (f 3)
                (Pf 0 C0) (Pf 1 C1) (Pf 2 C2) (Pf 3 C3)) as [L U].
  destruct (WeightBounds.weights_close_for (f 0) (f 1) (f 2) (f 3) S
              (Pf 0 C0) (Pf 1 C1) (Pf 2 C2) (Pf 3 C3) L U)
    as (HS & W0 & W1 & W2 & W3 & Hsum).
  pose proof (class_weights_of_computes dataset d _ _ _ _ total
                (f 0) (f 1) (f 2) (f 3) S Hv C0 C1 C2 C3
                eq_refl eq_refl eq_refl eq_refl eq_refl eq_refl HS) as Hw.
  eexists _, _. split; [|split; [|split; [reflexivity|split]]].
  - unfold calculate_class_ratios. rewrite (bind_ok _ _ _ Hd). exact Hw.
  - reflexivity.
  - repeat constructor; apply Qlt_le_weak; assumption.
  - unfold q_sum, fold_right.
    eapply Qle_trans; [|exact Hsum].
    apply Qle_lteq. right. apply Qabs_wd. ring.
Qed.

Lemma class_weights_normalised_witness :
  exists ws ratios,
    calculate_class_ratios
      ["/d/train/Gleason_5_a.png"; "/d/train/gleason_4_b.png";
       "/d/train/Gleason_3_c.png"; "/d/train/benign_0_d.png";
       "/d/train/GLEASON_5_e.png"]%string "train"
    = Ok [EvPrint (MsgClassRatios ratios); EvPrint (MsgClassWeights ws);
          EvSave "train_class_weights.npy" ws]
    /\ length ws = 4%nat
    /\ Forall (fun w => (0 <= w)%Q) ws
    /\ (Qabs (q_sum ws - 1) <= 1 # 1125899906842624)%Q.
Proof.
  destruct (class_weights_normalised
              ["/d/train/Gleason_5_a.png"; "/d/train/gleason_4_b.png";
               "/d/train/Gleason_3_c.png"; "/d/train/benign_0_d.png";
               "/d/train/GLEASON_5_e.png"]%string "train")
    as (ws & ratios & H1 & H2 & _ & H4 & H5).
  - repeat constructor.
  - vm_compute. discriminate.
  - vm_compute. discriminate.
  - vm_compute. discriminate.
  - vm_compute. discriminate.
  - exists ws, ratios. auto.
Defined.

(** ** The bulk encoder *)

Section BulkEncoder.
Variable open_image : string -> result pil_array.

Lemma container_of_app file tr1 tr2 :
  container_of file (tr1 ++ tr2) = container_of file tr1 ++ container_of file tr2.
Proof.
  induction tr1 as [|e tr1 IH]; [reflexivity|].
  destruct e; simpl; try exact IH.
  destruct (String.eqb file0 file); simpl; now rewrite IH.
Qed.

Lemma container_of_write_examples file futures :
  container_of file (write_examples file futures) = successes futures.
Proof.
  induction futures as [|[ex|e] futures IH]; simpl; [reflexivity| |exact IH].
  rewrite String.eqb_refl. now rewrite IH.
Qed.

Lemma successes_failures {A} (l : list (result A)) :
  (length (successes l) + failures l = length l)%nat.
Proof. induction l as [|[a|e] l IH]; simpl; lia. Qed.

Lemma filter_savez_write_examples file futures :
  List.filter is_savez (write_examples file futures) = [].
Proof. induction futures as [|[ex|e] futures IH]; simpl; auto. Qed.

Lemma write_examples_no_savez file futures :
  forallb (fun e => negb (is_savez e)) (write_examples file futures) = true.
Proof. induction futures as [|[ex|e] futures IH]; simpl; auto. Qed.

(** C2.  For the N submitted pairs (the zip of the two input lists), of
    which K make [encode] raise, the container receives exactly the records
    of the successful pairs, in submission order: N - K of them.  Each pair
    is encoded once and a failure neither stops the loop nor is retried. *)
Theorem container_holds_successes_in_order
    (tfrecords_filename : string) (file_pointers : list string)
    (target_labels : list Z) :
  let futures := map (fun ft => encode open_image (fst ft) (snd ft))
                     (zip file_pointers target_labels) in
  let N := length (zip file_pointers target_labels) in
  let K := failures futures in
  container_of tfrecords_filename
    (create_tf_record open_image tfrecords_filename file_pointers target_labels)
  = successes futures
  /\ length (successes futures) = (N - K)%nat
  /\ (K <= N)%nat.
Proof.
  intros futures N K. unfold create_tf_record.
  rewrite !container_of_app, container_of_write_examples. fold futures.
  pose proof (successes_failures futures) as H.
  assert (HN : length futures = N) by (unfold futures, N; apply length_map).
  split; [|fold K in H; lia].
  simpl. now rewrite app_nil_r.
Qed.

(** C5.  One run performs exactly one [np.savez]; it comes after every
    write to the container; it stores the two input lists unfiltered,
    whatever [encode] raised, together with the container's path; and it
    writes to [tfrecord2metafilename] of the container's path. *)
Theorem sidecar_written_once_after_container
    (tfrecords_filename : string) (file_pointers : list string)
    (target_labels : list Z) :
  let tr := create_tf_record open_image tfrecords_filename
              file_pointers target_labels in
  exists before after,
    tr = before
         ++ [EvSavez (np_savez_file (tfrecord2metafilename tfrecords_filename))
                     file_pointers target_labels tfrecords_filename]
         ++ after
    /\ List.filter is_savez before = []
    /\ List.filter is_savez after = []
    /\ List.filter is_write after = []
    /\ container_of tfrecords_filename before = container_of tfrecords_filename tr.
Proof.
  intros tr. unfold tr, create_tf_record.
  set (futures := map (fun ft => encode open_image (fst ft) (snd ft))
                      (zip file_pointers target_labels)).
  set (sidecar := EvSavez (np_savez_file (tfrecord2metafilename tfrecords_filename))
                          file_pointers target_labels tfrecords_filename).
  exists ([EvOpenWriter tfrecords_filename;
           EvPrint (MsgCounts (length (remove_dups file_pointers))
                              (length (remove_dups target_labels)))]
          ++ [EvPrint MsgDoneLoading; EvPrint MsgWriting]
          ++ write_examples tfrecords_filename futures),
         [EvPrint MsgRule; EvPrint (MsgGenerated tfrecords_filename); EvPrint MsgRule].
  split; [now rewrite <- !app_assoc|].
  rewrite !container_of_app, !List.filter_app, filter_savez_write_examples.
  simpl. rewrite !app_nil_r. auto.
Qed.
End BulkEncoder.

(** ** os.path.splitext *)

Module OsPathFacts.
Import OsPath.

Lemma app_cons x a b : String x a +:+ b = String x (a +:+ b).
Proof. reflexivity. Qed.

Lemma app_nil b : EmptyString +:+ b = b.
Proof. reflexivity. Qed.

Lemma app_empty_r p : p +:+ EmptyString = p.
Proof.
  induction p as [|x p IH]; [reflexivity|]. now rewrite app_cons, IH.
Qed.

Lemma rfind_from_app c a b i found :
  rfind_from c (a +:+ b) i found
  = rfind_from c b (i + Z.of_nat (String.length a)) (rfind_from c a i found).
Proof.
  revert i found. induction a as [|x a IH]; intros i found; simpl.
  - f_equal. lia.
  - rewrite IH. f_equal. lia.
Qed.

Lemma rfind_from_absent c s i found :
  PyStr.contains c s = false -> rfind_from c s i found = found.
Proof.
  revert i found. induction s as [|x s IH]; intros i found H; simpl in *; [reflexivity|].
  apply orb_false_iff in H as [Hx Hs]. rewrite Hx. now apply IH.
Qed.

Lemma rfind_from_bounds c s i found :
  found < i -> found <= rfind_from c s i found < i + Z.of_nat (String.length s).
Proof.
  revert i found. induction s as [|x s IH]; intros i found H; simpl; [lia|].
  destruct (Ascii.eqb x c).
  - specialize (IH (i + 1) i). lia.
  - specialize (IH (i + 1) found). lia.
Qed.

Lemma length_app a b :
  String.length (a +:+ b) = (String.length a + String.length b)%nat.
Proof. induction a as [|x a IH]; simpl; [reflexivity|now rewrite IH]. Qed.

Lemma substring_prefix a b :
  String.substring 0 (String.length a) (a +:+ b) = a.
Proof.
  induction a as [|x a IH]; simpl; [now destruct b|]. now rewrite IH.
Qed.

Lemma substring_all s : String.substring 0 (String.length s) s = s.
Proof. induction s as [|x s IH]; simpl; [reflexivity|now rewrite IH]. Qed.

Lemma substring_suffix a b :
  String.substring (String.length a) (String.length b) (a +:+ b) = b.
Proof.
  induction a as [|x a IH]; simpl; [apply substring_all|exact IH].
Qed.

Lemma get_app_here a x b :
  String.get (String.length a) (a +:+ String x b) = Some x.
Proof. induction a as [|y a IH]; simpl; [reflexivity|exact IH]. Qed.

Lemma prefix_app a b : prefix (a +:+ b) (Z.of_nat (String.length a)) = a.
Proof. unfold prefix. rewrite Nat2Z.id. apply substring_prefix. Qed.

Lemma suffix_app a b : suffix (a +:+ b) (Z.of_nat (String.length a)) = b.
Proof.
  unfold suffix. rewrite Nat2Z.id, length_app.
  replace (String.length a + String.length b - String.length a)%nat
    with (String.length b) by lia.
  apply substring_suffix.
Qed.

(** A string splits at any index within its length. *)
Lemma prefix_suffix s n :
  (n <= String.length s)%nat ->
  String.substring 0 n s +:+ String.substring n (String.length s - n) s = s.
Proof.
  revert n. induction s as [|x s IH]; intros [|n] H; simpl in H; try lia.
  - reflexivity.
  - change (String.substring 0 0 (String x s)) with EmptyString.
    rewrite Nat.sub_0_r. apply substring_all.
  - simpl. rewrite app_cons. f_equal. apply IH. lia.
Qed.

(** The two halves [splitext] returns always rebuild the path. *)
Lemma skip_leading_dots_splits fuel p i dotIndex :
  0 <= dotIndex <= Z.of_nat (String.length p) ->
  fst (skip_leading_dots fuel p i dotIndex)
  +:+ snd (skip_leading_dots fuel p i dotIndex) = p.
Proof.
  intros Hd. revert i. induction fuel as [|fuel IH]; intros i; simpl.
  - apply app_empty_r.
  - destruct (i <? dotIndex); [|apply app_empty_r].
    destruct (char_at p i) as [c|]; [|apply app_empty_r].
    destruct (negb (Ascii.eqb c ".")); [|apply IH].
    simpl. unfold prefix, suffix. apply prefix_suffix. lia.
Qed.

Lemma splitext_splits p : fst (splitext p) +:+ snd (splitext p) = p.
Proof.
  unfold splitext.
  destruct (rfind "." p >? rfind "/" p) eqn:E.
  - apply skip_leading_dots_splits.
    pose proof (rfind_from_bounds "." p 0 (-1) ltac:(lia)) as Hd.
    pose proof (rfind_from_bounds "/" p 0 (-1) ltac:(lia)) as Hs.
    unfold rfind in *. lia.
  - simpl. apply app_empty_r.
Qed.

(** The scan stops at the first character of the name that is not a dot. *)
Lemma skip_leading_dots_finds dots : forall pre c rest fuel dotIndex,
  all_dots dots = true -> Ascii.eqb c "." = false ->
  (String.length dots < fuel)%nat ->
  Z.of_nat (String.length pre + String.length dots) < dotIndex ->
  let p := pre +:+ dots +:+ String c rest in
  skip_leading_dots fuel p (Z.of_nat (String.length pre)) dotIndex
  = (prefix p dotIndex, suffix p dotIndex).
Proof.
  induction dots as [|x dots IH]; intros pre c rest fuel dotIndex Hdots Hc Hf Hd p.
  - destruct fuel as [|fuel]; [simpl in Hf; lia|].
    simpl in *. destruct (Z.ltb_spec (Z.of_nat (String.length pre)) dotIndex); [|lia].
    unfold char_at. rewrite Nat2Z.id. subst p. rewrite app_nil.
    rewrite get_app_here, Hc. reflexivity.
  - destruct fuel as [|fuel]; [simpl in Hf; lia|].
    simpl in Hdots. apply andb_true_iff in Hdots as [Hx Hdots].
    apply Ascii.eqb_eq in Hx. subst x.
    cbn [skip_leading_dots].
    simpl String.length in Hd, Hf.
    destruct (Z.ltb_spec (Z.of_nat (String.length pre)) dotIndex); [|lia].
    unfold char_at. rewrite Nat2Z.id. subst p.
    rewrite app_cons, get_app_here. simpl negb. cbv iota.
    assert (E : pre +:+ String "." (dots +:+ String c rest)
                = (pre +:+ ".") +:+ dots +:+ String c rest).
    { clear. induction pre as [|y pre IH]; [reflexivity|].
      rewrite !app_cons. f_equal. exact IH. }
    rewrite E.
    replace (Z.of_nat (String.length pre) + 1)
      with (Z.of_nat (String.length (pre +:+ "."))).
    2:{ rewrite length_app. simpl. lia. }
    apply IH; try assumption; try lia.
    rewrite length_app. simpl. lia.
Qed.

Lemma app_assoc a b c : (a +:+ b) +:+ c = a +:+ b +:+ c.
Proof.
  induction a as [|x a IH]; [reflexivity|]. now rewrite !app_cons, IH.
Qed.

Lemma contains_app ch a b :
  PyStr.contains ch (a +:+ b) = PyStr.contains ch a || PyStr.contains ch b.
Proof.
  induction a as [|x a IH]; [reflexivity|].
  rewrite app_cons. simpl. rewrite IH. now rewrite orb_assoc.
Qed.

Lemma first_non_dot s :
  all_dots s = false ->
  exists dots c rest, s = dots +:+ String c rest
    /\ all_dots dots = true /\ Ascii.eqb c "." = false.
Proof.
  induction s as [|x s IH]; simpl; [discriminate|].
  destruct (Ascii.eqb x ".") eqn:Ex; simpl; intros H.
  - destruct (IH H) as (dots & c & rest & -> & Hd & Hc).
    exists (String x dots), c, rest. simpl. rewrite Ex. auto.
  - exists EmptyString, x, s. auto.
Qed.

(** A name with an extension: [splitext] cuts at its last dot. *)
Lemma splitext_extension d stem e :
  d = EmptyString \/ (exists d0, d = d0 +:+ "/") ->
  PyStr.contains "/" stem = false -> all_dots stem = false ->
  PyStr.contains "/" e = false -> PyStr.contains "." e = false ->
  splitext (d +:+ stem +:+ "." +:+ e) = (d +:+ stem, "." +:+ e).
Proof.
  intros Hd Hs Hnd He Hed.
  set (p := d +:+ stem +:+ "." +:+ e).
  assert (Hp : p = (d +:+ stem) +:+ "." +:+ e) by (unfold p; now rewrite app_assoc).
  assert (Hsep : rfind "/" p = Z.of_nat (String.length d) - 1).
  { unfold rfind, p. rewrite rfind_from_app, Z.add_0_l.
    rewrite rfind_from_absent.
    2:{ rewrite !contains_app, Hs, He. reflexivity. }
    destruct Hd as [->|[d0 ->]]; [reflexivity|].
    rewrite rfind_from_app, length_app. simpl. lia. }
  assert (Hdot : rfind "." p = Z.of_nat (String.length (d +:+ stem))).
  { unfold rfind. rewrite Hp, rfind_from_app, Z.add_0_l. simpl.
    now rewrite rfind_from_absent. }
  unfold splitext. fold p. rewrite Hsep, Hdot.
  rewrite length_app.
  destruct (Z.gtb_spec (Z.of_nat (String.length d + String.length stem))
                       (Z.of_nat (String.length d) - 1)) as [_|]; [|lia].
  destruct (first_non_dot stem Hnd) as (dots & c & rest & Hstem & Hdots & Hc).
  replace (Z.of_nat (String.length d) - 1 + 1) with (Z.of_nat (String.length d)) by lia.
  assert (Hp' : p = d +:+ dots +:+ String c (rest +:+ "." +:+ e)).
  { unfold p. rewrite Hstem. f_equal. now rewrite app_assoc, app_cons. }
  rewrite Hp' at 2.
  rewrite skip_leading_dots_finds; try assumption.
  - rewrite <- Hp', Hp, <- length_app. now rewrite prefix_app, suffix_app.
  - rewrite Hp', !length_app. simpl. lia.
  - rewrite Hstem, length_app. simpl. lia.
Qed.

Lemma ends_with_npz base : ends_with ".npz" (base +:+ "_meta.npz") = true.
Proof.
  induction base as [|x base IH]; [reflexivity|].
  rewrite app_cons. simpl. rewrite IH. apply orb_true_r.
Qed.

Lemma np_savez_file_meta base :
  np_savez_file (base +:+ "_meta.npz") = base +:+ "_meta.npz".
Proof. unfold np_savez_file. now rewrite ends_with_npz. Qed.
End OsPathFacts.

(** C10.  The sidecar path is the container path with its extension, as
    [os.path.splitext] finds it, replaced by [_meta.npz]: the two halves
    [splitext] returns rebuild the path and the sidecar is the first half
    plus [_meta.npz]; for a name with a non-dot character before its last
    dot and no slash after it, the first half is the path without
    [.extension]; [train.tfrecords] gives [train_meta.npz]; and
    [create_tf_record] saves the sidecar under exactly that path. *)
Theorem sidecar_path_replaces_extension :
  (forall f, exists base ext,
      OsPath.splitext f = (base, ext) /\ f = base +:+ ext
      /\ tfrecord2metafilename f = base +:+ "_meta.npz")
  /\ (forall d stem e,
        d = EmptyString \/ (exists d0, d = d0 +:+ "/") ->
        PyStr.contains "/" stem = false -> OsPath.all_dots stem = false ->
        PyStr.contains "/" e = false -> PyStr.contains "." e = false ->
        tfrecord2metafilename (d +:+ stem +:+ "." +:+ e) = d +:+ stem +:+ "_meta.npz")
  /\ tfrecord2metafilename "train.tfrecords" = "train_meta.npz"
  /\ (forall open_image f file_pointers target_labels,
        In (EvSavez (tfrecord2metafilename f) file_pointers target_labels f)
           (create_tf_record open_image f file_pointers target_labels)).
Proof.
  split; [|split; [|split]].
  - intros f. pose proof (OsPathFacts.splitext_splits f) as H.
    unfold tfrecord2metafilename.
    destruct (OsPath.splitext f) as [base ext]. simpl in H. eauto.
  - intros d stem e Hd Hs Hnd He Hed. unfold tfrecord2metafilename.
    rewrite OsPathFacts.splitext_extension by assumption.
    now rewrite OsPathFacts.app_assoc.
  - reflexivity.
  - intros open_image f fps labels. unfold create_tf_record.
    rewrite !in_app_iff. right. right. right. left.
    f_equal. unfold tfrecord2metafilename.
    destruct (OsPath.splitext f) as [base ext].
    apply OsPathFacts.np_savez_file_meta.
Qed.

Lemma sidecar_path_replaces_extension_witness :
  tfrecord2metafilename "/data/tfrecords/val.tfrecords"
  = "/data/tfrecords/val_meta.npz".
Proof.
  apply (proj1 (proj2 sidecar_path_replaces_extension)
           "/data/tfrecords/" "val" "tfrecords");
    [right; exists "/data/tfrecords"; reflexivity | reflexivity..].
Defined.

(** ** Exact conversions *)

Module FloatExact.
Import Float FloatFacts.

Lemma round_half_even_int k : round_half_even (inject_Z k) = k.
Proof.
  unfold round_half_even. rewrite Qfloor_Z.
  assert (H : (inject_Z k - inject_Z k ?= 1 # 2)%Q = Lt).
  { apply Qlt_alt. unfold Qminus. rewrite Qplus_opp_r. reflexivity. }
  now rewrite H.
Qed.

Lemma round_half_even_eq q k : (q == inject_Z k)%Q -> round_half_even q = k.
Proof.
  intros H. rewrite <- (round_half_even_int k). unfold round_half_even.
  rewrite (Qfloor_comp _ _ H).
  assert (E : (q - inject_Z (Qfloor (inject_Z k)) ?= 1 # 2)%Q
              = (inject_Z k - inject_Z (Qfloor (inject_Z k)) ?= 1 # 2)%Q).
  { apply Qcompare_comp; [|reflexivity]. now rewrite H. }
  now rewrite E.
Qed.

(** An integer below [2 ^ prec] is a float of precision [prec]. *)
Lemma rnd_exact prec v :
  0 <= prec -> 0 <= v < 2 ^ prec -> rnd prec (inject_Z v) = inject_Z v.
Proof.
  intros Hprec [Hv0 Hv].
  destruct (Z.eq_dec v 0) as [->|Hne]; [reflexivity|].
  assert (Hpos : (0 < inject_Z v)%Q).
  { change 0%Q with (inject_Z 0). rewrite <- Zlt_Qlt. lia. }
  unfold rnd.
  assert (E0 : Qeq_bool (inject_Z v) 0 = false).
  { destruct (Qeq_bool (inject_Z v) 0) eqn:E; [|reflexivity].
    apply Qeq_bool_iff in E. lra. }
  assert (E1 : Qle_bool 0 (inject_Z v) = true) by (apply Qle_bool_iff; lra).
  assert (E2 : Qabs (inject_Z v) = inject_Z v) by (destruct v; try reflexivity; lia).
  rewrite E0, E1, E2.
  pose proof (ilog2_le _ Hpos) as He.
  set (e := ilog2 (inject_Z v)) in *.
  assert (Hlt : e < prec).
  { apply (Qpower_lt_compat_l_inv 2); [|reflexivity].
    eapply Qle_lt_trans; [exact He|].
    change 2%Q with (inject_Z 2). rewrite <- Zpower_Qpower by assumption.
    rewrite <- Zlt_Qlt. assumption. }
  set (s := prec - 1 - e).
  assert (Hs : 0 <= s) by (unfold s; lia).
  assert (Ey : (inject_Z v * 2 ^ s == inject_Z (v * 2 ^ s))%Q).
  { rewrite inject_Z_mult. change 2%Q with (inject_Z 2).
    now rewrite <- Zpower_Qpower. }
  rewrite (round_half_even_eq _ _ Ey).
  transitivity (Qred (inject_Z v)).
  - apply Qred_complete. rewrite <- Ey. field.
    pose proof (two_power_pos s). lra.
  - apply Qred_identity. simpl. apply Z.gcd_1_r.
Qed.

Lemma binary32_byte v : 0 <= v < 256 -> binary32 (inject_Z v) = inject_Z v.
Proof. intros H. apply rnd_exact; simpl; lia. Qed.
End FloatExact.

(** ** Chunks *)

Section Chunks.
Context {A : Type}.
Implicit Types l : list A.

Lemma length_chunks n k l : length (chunks n k l) = k.
Proof. revert l. induction k as [|k IH]; intros l; simpl; [reflexivity|now rewrite IH]. Qed.

Lemma chunks_lengths n k l :
  (n * k <= length l)%nat -> Forall (fun ch => length ch = n) (chunks n k l).
Proof.
  revert l. induction k as [|k IH]; intros l H; simpl; constructor.
  - rewrite length_take. lia.
  - apply IH. rewrite length_drop. lia.
Qed.

Lemma concat_chunks n k l :
  length l = (n * k)%nat -> concat (chunks n k l) = l.
Proof.
  revert l. induction k as [|k IH]; intros l H; simpl.
  - destruct l; [reflexivity|simpl in H; lia].
  - rewrite IH; [apply take_drop|]. rewrite length_drop. lia.
Qed.

Lemma length_concat_uniform m (ls : list (list A)) :
  Forall (fun ch => length ch = m) ls ->
  length (concat ls) = (m * length ls)%nat.
Proof.
  induction 1 as [|x ls Hx _ IH]; simpl; [lia|].
  rewrite length_app, IH, Hx. lia.
Qed.

End Chunks.

(** ** The record codec *)

Section ChunksForall.
Context {A : Type} (P : A -> Prop).

Lemma Forall_chunks n k (l : list A) :
  Forall P l -> Forall (Forall P) (chunks n k l).
Proof.
  revert l. induction k as [|k IH]; intros l H; simpl; constructor.
  - now apply Forall_take.
  - apply IH. now apply Forall_drop.
Qed.

Lemma Forall_concat_map_take m (ls : list (list A)) :
  Forall (Forall P) ls -> Forall P (concat (map (take m) ls)).
Proof.
  induction 1 as [|x ls Hx _ IH]; simpl; [constructor|].
  apply Forall_app. split; [now apply Forall_take|exact IH].
Qed.
End ChunksForall.

Lemma string_length_of_list l :
  String.length (string_of_list_ascii l) = length l.
Proof. induction l as [|x l IH]; simpl; [reflexivity|now rewrite IH]. Qed.

Lemma byte_of_ascii_of_byte v :
  is_byte v -> Z.of_N (N_of_ascii (ascii_of_N (Z.to_N v))) = v.
Proof.
  intros [H0 H1]. rewrite N_ascii_embedding by lia. lia.
Qed.

Lemma decode_raw_tostring sh (l : list Z) :
  Forall is_byte l -> decode_raw_uint8 (tostring (Tensor sh l)) = Tensor [length l] l.
Proof.
  intros H. unfold decode_raw_uint8, tostring. simpl.
  rewrite string_length_of_list, length_map, list_ascii_of_string_of_list_ascii.
  f_equal. rewrite map_map.
  induction H as [|v l Hv _ IH]; simpl; [reflexivity|].
  now rewrite byte_of_ascii_of_byte, IH.
Qed.

Lemma Qtrunc_int v : 0 <= v -> Qtrunc (inject_Z v) = v.
Proof.
  intros H. unfold Qtrunc.
  assert (E : Qle_bool 0 (inject_Z v) = true).
  { apply Qle_bool_iff. change 0%Q with (inject_Z 0). now rewrite <- Zle_Qle. }
  rewrite E. apply Qfloor_Z.
Qed.

(** The detour of [encode] through float32 loses nothing on 8-bit values. *)
Lemma astype_uint8_float32 (t : tensor Z) :
  Forall is_byte (data t) -> astype_uint8 (astype_float32 t) = t.
Proof.
  destruct t as [sh l]. unfold astype_uint8, astype_float32. simpl. intros H.
  f_equal. rewrite map_map.
  induction H as [|v l Hv _ IH]; simpl; [reflexivity|].
  rewrite IH, FloatExact.binary32_byte by exact Hv.
  destruct Hv. rewrite Qtrunc_int, Z.mod_small by lia. reflexivity.
Qed.

Lemma astype_float32_bytes sh (l : list Z) :
  Forall is_byte l -> astype_float32 (Tensor sh l) = Tensor sh (map inject_Z l).
Proof.
  intros H. unfold astype_float32. simpl. f_equal.
  induction H as [|v l Hv _ IH]; simpl; [reflexivity|].
  now rewrite IH, FloatExact.binary32_byte.
Qed.

Lemma cast_int32_small v : - 2 ^ 31 <= v < 2 ^ 31 -> cast_int32 v = v.
Proof. intros H. unfold cast_int32. rewrite Z.mod_small; lia. Qed.

Lemma int64_feature_ok v :
  - 2 ^ 63 <= v < 2 ^ 63 -> _int64_feature v = Ok (Int64List [v]).
Proof.
  intros [H0 H1]. unfold _int64_feature.
  destruct (Z.leb_spec (- 2 ^ 63) v); [|lia].
  destruct (Z.ltb_spec v (2 ^ 63)); [reflexivity|lia].
Qed.

Section CodecFacts.
Variable open_image : string -> result pil_array.

(** What [encode] returns, when it returns. *)
Lemma encode_ok_inv img_path target_label record :
  encode open_image img_path target_label = Ok record ->
  exists a img,
    open_image img_path = Ok a /\ first_three_channels a = Ok img
    /\ PyStr.is_ascii img_path = true
    /\ - 2 ^ 63 <= target_label < 2 ^ 63
    /\ record = {| features :=
                     {[ "image_raw" := BytesList [tostring (astype_uint8 (astype_float32 img))];
                        "file_path" := BytesList [img_path];
                        "target_label" := Int64List [target_label] ]} |}.
Proof.
  unfold encode. intros H.
  destruct (open_image img_path) as [a|] eqn:Ha; [|discriminate]. simpl in H.
  destruct (first_three_channels a) as [img|] eqn:Hi; [|discriminate]. simpl in H.
  unfold PyStr.encode_utf8 in H.
  destruct (PyStr.is_ascii img_path) eqn:Hp; [|discriminate]. simpl in H.
  unfold _int64_feature in H.
  destruct (Z.leb_spec (- 2 ^ 63) target_label); [|discriminate].
  destruct (Z.ltb_spec target_label (2 ^ 63)); [|discriminate].
  simpl in H. injection H as <-.
  exists a, img. repeat split; try assumption; reflexivity.
Qed.

Lemma encode_ok img_path target_label a img :
  open_image img_path = Ok a -> first_three_channels a = Ok img ->
  PyStr.is_ascii img_path = true -> - 2 ^ 63 <= target_label < 2 ^ 63 ->
  is_ok (encode open_image img_path target_label) = true.
Proof.
  intros Ha Hi Hp Hl. unfold encode. rewrite Ha. simpl. rewrite Hi. simpl.
  unfold PyStr.encode_utf8. rewrite Hp. simpl.
  rewrite int64_feature_ok by assumption. reflexivity.
Qed.
End CodecFacts.

Lemma decode_example_of_features img_dims img_raw path label :
  decode_example img_dims
    {| features := {[ "image_raw" := BytesList [img_raw];
                      "file_path" := BytesList [path];
                      "target_label" := Int64List [label] ]} |}
  = (image ← reshape (decode_raw_uint8 img_raw) img_dims;
     Ok (astype_float32 image, cast_int32 label, path)).
Proof. reflexivity. Qed.



(** ** Image operations move values, they do not change them *)

Lemma comprehension_ok_inv {A B} (f : A -> result B) l ys :
  comprehension f l = Ok ys -> Forall2 (fun x y => f x = Ok y) l ys.
Proof.
  revert ys. induction l as [|x l IH]; intros ys H; simpl in H.
  - injection H as <-. constructor.
  - destruct (f x) as [y|] eqn:Hx; [|discriminate]. simpl in H.
    destruct (comprehension f l) as [ys'|]; [|discriminate]. simpl in H.
    injection H as <-. constructor; auto.
Qed.

Lemma comprehension_ok {A B} (f : A -> result B) l ys :
  Forall2 (fun x y => f x = Ok y) l ys -> comprehension f l = Ok ys.
Proof.
  induction 1 as [|x y l ys Hx _ IH]; simpl; [reflexivity|].
  now rewrite Hx, IH.
Qed.

Section Preservation.
Variable P : Q -> Prop.
Hypothesis P0 : P 0%Q.

Lemma Forall_concat_nested (ls : list (list Q)) :
  Forall (Forall P) ls -> Forall P (concat ls).
Proof.
  induction 1 as [|x ls Hx _ IH]; simpl; [constructor|].
  apply Forall_app. auto.
Qed.

Lemma Forall_rows_data (rows : list (list (list Q))) :
  Forall (Forall (Forall P)) rows -> Forall P (concat (map (@concat Q) rows)).
Proof.
  intros H. apply Forall_concat_nested, Forall_map.
  eapply Forall_impl; [exact H|]. intros row Hrow. now apply Forall_concat_nested.
Qed.

Lemma image_rows_Forall h w c px :
  Forall P px -> Forall (Forall (Forall P)) (image_rows h w c px).
Proof.
  intros H. unfold image_rows. apply Forall_map.
  eapply Forall_impl; [apply (Forall_chunks P (w * c) h), H|].
  intros ch Hch. now apply Forall_chunks.
Qed.

Lemma crop_to_bounding_box_keeps image oh ow th tw out :
  crop_to_bounding_box image oh ow th tw = Ok out ->
  Forall P (data image) -> Forall P (data out).
Proof.
  unfold crop_to_bounding_box. intros H HP.
  destruct (shape image) as [|h [|w [|c [|]]]]; try discriminate.
  destruct (_ && _); [|discriminate]. injection H as <-. simpl.
  apply Forall_rows_data, Forall_map, Forall_take, Forall_drop.
  eapply Forall_impl; [apply image_rows_Forall, HP|].
  intros row Hrow. now apply Forall_take, Forall_drop.
Qed.

Lemma pad_to_bounding_box_keeps image oh ow th tw out :
  pad_to_bounding_box image oh ow th tw = Ok out ->
  Forall P (data image) -> Forall P (data out).
Proof.
  unfold pad_to_bounding_box. intros H HP.
  destruct (shape image) as [|h [|w [|c [|]]]]; try discriminate.
  destruct (_ && _); [|discriminate]. injection H as <-. simpl.
  assert (Hpx : Forall P (replicate c 0%Q)) by now apply Forall_replicate.
  assert (Hrow : Forall (Forall P) (replicate tw (replicate c 0%Q)))
    by now apply Forall_replicate.
  apply Forall_rows_data. rewrite !Forall_app. split; [|split].
  - now apply Forall_replicate.
  - apply Forall_map. eapply Forall_impl; [apply image_rows_Forall, HP|].
    intros row Hr. rewrite !Forall_app. split; [|split]; try assumption;
      now apply Forall_replicate.
  - now apply Forall_replicate.
Qed.

Lemma resize_image_with_crop_or_pad_keeps image th tw out :
  resize_image_with_crop_or_pad image th tw = Ok out ->
  Forall P (data image) -> Forall P (data out).
Proof.
  unfold resize_image_with_crop_or_pad. intros H HP.
  destruct (shape image) as [|h [|w [|c [|]]]]; try discriminate.
  destruct (_ || _); [discriminate|].
  destruct (crop_to_bounding_box _ _ _ _ _) as [cropped|] eqn:Hc; [|discriminate].
  simpl in H. eapply pad_to_bounding_box_keeps; [exact H|].
  eapply crop_to_bounding_box_keeps; eauto.
Qed.
End Preservation.

Lemma byte_valued_zero : byte_valued 0%Q.
Proof. exists 0. split; [unfold is_byte; lia|reflexivity]. Qed.

Lemma decode_raw_uint8_bytes s : Forall is_byte (data (decode_raw_uint8 s)).
Proof.
  unfold decode_raw_uint8. simpl. apply Forall_map, Forall_forall. intros c _.
  pose proof (N_ascii_bounded c). unfold is_byte. lia.
Qed.

(** What [decode_example] returns, when it returns: a tensor of the declared
    shape whose elements are the stored bytes. *)
Lemma decode_example_ok_inv img_dims ex image label path :
  decode_example img_dims ex = Ok (image, label, path) ->
  exists raw,
    fixed_len_string ex "image_raw" = Ok raw
    /\ image = Tensor img_dims (map inject_Z (data (decode_raw_uint8 raw)))
    /\ numel img_dims = String.length raw.
Proof.
  unfold decode_example. intros H.
  destruct (fixed_len_string ex "image_raw") as [raw|]; [|discriminate]. simpl in H.
  destruct (fixed_len_string ex "file_path") as [fp|]; [|discriminate]. simpl in H.
  destruct (fixed_len_int64 ex "target_label") as [tl|]; [|discriminate]. simpl in H.
  unfold reshape in H.
  destruct (decide _) as [Hn|]; [|discriminate]. simpl in H.
  injection H as <- <- <-. exists raw. split; [reflexivity|]. split.
  - apply astype_float32_bytes, decode_raw_uint8_bytes.
  - rewrite Hn. unfold decode_raw_uint8. simpl.
    now rewrite length_map, <- string_length_of_list, string_of_list_ascii_of_string.
Qed.

Lemma decode_example_byte_valued img_dims ex image label path :
  decode_example img_dims ex = Ok (image, label, path) ->
  shape image = img_dims /\ length (data image) = numel img_dims
  /\ Forall byte_valued (data image).
Proof.
  intros H. destruct (decode_example_ok_inv _ _ _ _ _ H) as (raw & _ & -> & Hn).
  simpl. split; [reflexivity|]. split.
  - unfold decode_raw_uint8. simpl. rewrite !length_map.
    rewrite Hn, <- string_length_of_list, string_of_list_ascii_of_string. reflexivity.
  - apply Forall_map. eapply Forall_impl; [apply decode_raw_uint8_bytes|].
    intros b Hb. now exists b.
Qed.

(** ** The pipeline with every toggle off *)

Lemma map_fixed {A} (f : A -> A) (l : list A) :
  Forall (fun x => f x = x) l -> map f l = l.
Proof. induction 1 as [|x l Hx _ IH]; simpl; [reflexivity|now rewrite Hx, IH]. Qed.

Lemma image_rows_data {A} h w c (px : list A) :
  length px = (h * w * c)%nat -> concat (map (@concat A) (image_rows h w c px)) = px.
Proof.
  intros H. unfold image_rows. rewrite map_map.
  rewrite map_fixed.
  - apply concat_chunks. lia.
  - eapply Forall_impl; [apply (chunks_lengths (w * c) h); lia|].
    intros ch Hch. simpl in *. apply concat_chunks. lia.
Qed.

Lemma image_rows_sizes {A} h w c (px : list A) :
  length px = (h * w * c)%nat ->
  length (image_rows h w c px) = h
  /\ Forall (fun row => length row = w) (image_rows h w c px).
Proof.
  intros H. unfold image_rows. rewrite length_map, length_chunks. split; [reflexivity|].
  apply Forall_map, Forall_forall. intros ch _. simpl. apply length_chunks.
Qed.

(** With the target size equal to the image size, nothing is cropped and
    nothing is padded. *)
Lemma resize_same_size image h w c :
  shape image = [h; w; c] -> length (data image) = (h * w * c)%nat ->
  (0 < h)%nat -> (0 < w)%nat ->
  resize_image_with_crop_or_pad image h w = Ok image.
Proof.
  destruct image as [sh px]. simpl. intros -> Hlen Hh Hw.
  destruct (image_rows_sizes h w c px Hlen) as [Hrows Hcols].
  unfold resize_image_with_crop_or_pad. simpl shape. cbv iota.
  destruct (Nat.eqb_spec h 0); [lia|]. destruct (Nat.eqb_spec w 0); [lia|].
  cbn [orb]. rewrite !Z.sub_diag. cbn [Z.opp Z.div Z.max Z.to_nat].
  change (Z.max (0 / 2) 0) with 0. change (Z.to_nat 0) with 0%nat.
  rewrite !Nat.min_id.
  assert (Hcrop : crop_to_bounding_box (Tensor [h; w; c] px) 0 0 h w
                  = Ok (Tensor [h; w; c] px)).
  { unfold crop_to_bounding_box. simpl shape. cbv iota. simpl data.
    rewrite !Nat.add_0_l, !Nat.leb_refl. cbn [andb].
    rewrite drop_0, take_ge by lia.
    rewrite map_fixed.
    - unfold image_of_rows. now rewrite image_rows_data.
    - eapply Forall_impl; [exact Hcols|]. intros row Hr. simpl in *.
      rewrite drop_0. apply take_ge. lia. }
  change (Z.to_nat (Z.max ((- 0) / 2) 0)) with 0%nat.
  rewrite Hcrop. cbn [mbind result_bind].
  unfold pad_to_bounding_box. simpl shape. cbv iota. simpl data.
  rewrite !Nat.add_0_l, !Nat.leb_refl. cbn [andb].
  rewrite !Nat.sub_0_r, !Nat.sub_diag. cbn [replicate]. rewrite app_nil_r, app_nil_l.
  rewrite map_fixed.
  - unfold image_of_rows. now rewrite image_rows_data.
  - apply Forall_forall. intros row _. now rewrite app_nil_r.
Qed.

Section ToggleFacts.
Variable tf : tf_kernels.

(** With every toggle off the graph is: decode, centre crop or pad, batch. *)
Lemma read_and_decode_toggles_off dequeued noise img_dims model_dims
    size_of_batch augmentations_dic shuffle :
  all_toggles_off augmentations_dic ->
  read_and_decode tf dequeued noise img_dims model_dims size_of_batch
                  augmentations_dic shuffle
  = (h ← PyStr.index model_dims 0;
     w ← PyStr.index model_dims 1;
     examples ← comprehension
                  (per_example tf img_dims
                     (fun _ image => resize_image_with_crop_or_pad image h w)
                     false false false) dequeued;
     if batch_ok shuffle size_of_batch (length examples) then
       img ← stack_batch (map (fun e => fst (fst e)) examples);
       Ok (img, map (fun e => snd (fst e)) examples, map (fun e => snd e) examples)
     else Raise OutOfRangeError).
Proof.
  intros (H1 & H2 & H3 & H4 & H5 & H6).
  unfold read_and_decode, toggle. rewrite H1. cbn [mbind result_bind].
  destruct (PyStr.index model_dims 0) as [h|]; [|reflexivity]. cbn [mbind result_bind].
  destruct (PyStr.index model_dims 1) as [w|]; [|reflexivity]. cbn [mbind result_bind].
  rewrite H2, H3, H4, H5, H6. cbn [mbind result_bind].
  destruct (comprehension _ dequeued) as [examples|]; [|reflexivity].
  cbn [mbind result_bind].
  destruct (batch_ok _ _ _); [|reflexivity].
  destruct (stack_batch _); reflexivity.
Qed.

Lemma per_example_plain img_dims h w item image label path :
  per_example tf img_dims (fun _ image => resize_image_with_crop_or_pad image h w)
              false false false item = Ok (image, label, path) ->
  exists decoded,
    decode_example img_dims (fst item) = Ok (decoded, label, path)
    /\ resize_image_with_crop_or_pad decoded h w = Ok image.
Proof.
  destruct item as [ex d]. unfold per_example. intros H.
  destruct (decode_example img_dims ex) as [[[dec l] p]|] eqn:Hd; [|discriminate].
  cbn [mbind result_bind] in H.
  destruct (resize_image_with_crop_or_pad dec h w) as [out|] eqn:Hr; [|discriminate].
  cbn [mbind result_bind] in H. injection H as <- <- <-.
  exists dec. split; [exact Hd|exact Hr].
Qed.
End ToggleFacts.

Lemma stack_batch_data images img :
  stack_batch images = Ok img -> data img = concat (map data images).
Proof.
  unfold stack_batch. destruct images as [|first rest]; [discriminate|].
  destruct (forallb _ _); [|discriminate]. now intros [= <-].
Qed.

Lemma stack_batch_same_shape sh images :
  images <> [] -> Forall (fun t => shape t = sh) images ->
  stack_batch images = Ok (Tensor (length images :: sh) (concat (map data images))).
Proof.
  intros Hne Hsh. unfold stack_batch.
  destruct images as [|first rest]; [congruence|].
  assert (Hf : shape first = sh) by now inversion Hsh.
  assert (Hall : forallb (fun t => bool_decide (shape t = shape first)) (first :: rest) = true).
  { apply forallb_forall. intros t Ht. apply bool_decide_eq_true.
    rewrite Hf. rewrite List.Forall_forall in Hsh. now apply Hsh. }
  rewrite Hall, Hf. reflexivity.
Qed.

(** C4, the claim as stated fails: with every toggle off the batch holds the
    stored bytes as they are.  [read_and_decode] never calls [normalize]; the
    output is not the z-score of the decoded batch, and its mean and variance
    are those of the bytes, not the module's constants. *)
Lemma toggles_off_output_is_not_normalised :
  let record := {| features := {[ "image_raw" := BytesList [String "010" (String "020" (String "030" EmptyString))];
                                  "file_path" := BytesList ["Gleason_3_01.png"%string];
                                  "target_label" := Int64List [1] ]} |} in
  let draws := {| crop_draw := (0, 0, 0)%nat; flip_lr_draw := false;
                  flip_ud_draw := false; angle_draw := 0%nat |} in
  let noise := {| uniform_X := fun _ => 0%Q; uniform_Y := fun _ => 0%Q |} in
  let off : gmap string bool :=
    {[ "rand_crop" := false; "rand_flip_left_right" := false;
       "rand_flip_top_bottom" := false; "rand_rotate" := false;
       "warp" := false; "grayscale" := false ]} in
  let img := Tensor [1; 1; 1; 3]%nat [10; 20; 30]%Q in
  read_and_decode blank_kernels [(record, draws)] noise [1; 1; 3]%nat [1; 1; 3]%nat
                  1 off false
  = Ok (img, [1], ["Gleason_3_01.png"%string])
  /\ img <> normalize img
  /\ ~ (pixel_mean img == GLEASON_MEAN_G)%Q
  /\ ~ (pixel_variance img == GLEASON_MEAN_STD_G * GLEASON_MEAN_STD_G)%Q.
Proof.
  cbv zeta. split; [vm_compute; reflexivity|].
  split; [vm_compute; discriminate|].
  split; vm_compute; discriminate.
Qed.

(** C4, amended.  With every augmentation toggle off, [read_and_decode]
    applies no normalization.  Every element of a batch it returns is the
    float of a stored byte or a padding zero, an integer from 0 to 255; and
    when the model height and width equal the declared image height and
    width, the batch is exactly the decoded examples, stacked in the order
    they were dequeued, with their labels and paths. *)
Theorem read_and_decode_toggles_off_unnormalised
    (tf : tf_kernels) (dequeued : list (Example * example_draws))
    (noise : batch_draws) (img_dims model_dims : list nat) (size_of_batch : nat)
    (augmentations_dic : gmap string bool) (shuffle : bool) :
  all_toggles_off augmentations_dic ->
  (forall img labels paths,
     read_and_decode tf dequeued noise img_dims model_dims size_of_batch
                     augmentations_dic shuffle = Ok (img, labels, paths) ->
     Forall byte_valued (data img))
  /\ (forall h w c rest decoded,
        img_dims = [h; w; c] -> model_dims = h :: w :: rest ->
        (0 < h)%nat -> (0 < w)%nat -> dequeued <> [] ->
        batch_ok shuffle size_of_batch (length dequeued) = true ->
        Forall2 (fun item d => decode_example img_dims (fst item) = Ok d)
                dequeued decoded ->
        read_and_decode tf dequeued noise img_dims model_dims size_of_batch
                        augmentations_dic shuffle
        = Ok (Tensor [length dequeued; h; w; c]
                     (concat (map (fun d => data (fst (fst d))) decoded)),
              map (fun d => snd (fst d)) decoded,
              map (fun d => snd d) decoded)).
Proof.
  intros Hoff. split.
  - intros img labels paths H. rewrite (read_and_decode_toggles_off tf) in H by exact Hoff.
    destruct (PyStr.index model_dims 0) as [h|]; [|discriminate]. cbn [mbind result_bind] in H.
    destruct (PyStr.index model_dims 1) as [w|]; [|discriminate]. cbn [mbind result_bind] in H.
    destruct (comprehension _ dequeued) as [examples|] eqn:Hex; [|discriminate].
    cbn [mbind result_bind] in H.
    destruct (batch_ok _ _ _); [|discriminate].
    destruct (stack_batch _) as [stacked|] eqn:Hst; [|discriminate].
    cbn [mbind result_bind] in H. injection H as <- _ _.
    rewrite (stack_batch_data _ _ Hst).
    apply Forall_concat_nested. rewrite map_map. apply Forall_map.
    apply comprehension_ok_inv in Hex.
    clear Hst. induction Hex as [|item [[image l] p] items examples Hitem _ IH];
      constructor; [|exact IH].
    destruct (per_example_plain tf _ _ _ _ _ _ _ Hitem) as (dec & Hdec & Hres).
    simpl. eapply resize_image_with_crop_or_pad_keeps; [apply byte_valued_zero|exact Hres|].
    now destruct (decode_example_byte_valued _ _ _ _ _ Hdec) as (_ & _ & Hb).
  - intros h w c rest decoded -> -> Hh Hw Hne Hbatch Hdec.
    rewrite (read_and_decode_toggles_off tf) by exact Hoff.
    change (PyStr.index (h :: w :: rest) 0) with (@Ok nat h).
    change (PyStr.index (h :: w :: rest) 1) with (@Ok nat w).
    cbn [mbind result_bind].
    assert (Hshape : Forall (fun d : tensor Q * Z * string =>
                               shape (fst (fst d)) = [h; w; c]) decoded).
    { clear -Hdec. induction Hdec as [|item [[image l] p] items ds Hitem _ IH];
        constructor; [|exact IH].
      now destruct (decode_example_byte_valued _ _ _ _ _ Hitem) as (Hs & _ & _). }
    rewrite (comprehension_ok _ _ decoded).
    2:{ clear -Hdec Hh Hw. induction Hdec as [|[ex d] [[image l] p] items ds Hitem _ IH];
          constructor; [|exact IH].
        simpl in Hitem. unfold per_example. rewrite Hitem. cbn [mbind result_bind].
        destruct (decode_example_byte_valued _ _ _ _ _ Hitem) as (Hs & Hl & _).
        rewrite (resize_same_size image h w c); try assumption; [reflexivity|].
        rewrite Hl. unfold numel. cbn [fold_right]. lia. }
    cbn [mbind result_bind].
    rewrite <- (Forall2_length _ _ _ Hdec), Hbatch.
    rewrite (stack_batch_same_shape [h; w; c]).
    + cbn [mbind result_bind]. rewrite length_map, map_map.
      now rewrite <- (Forall2_length _ _ _ Hdec).
    + destruct Hdec; [congruence|discriminate].
    + now apply Forall_map.
Qed.

Lemma read_and_decode_toggles_off_unnormalised_witness :
  read_and_decode blank_kernels
    [({| features := {[ "image_raw" := BytesList ["abcdef"%string];
                        "file_path" := BytesList ["Gleason_5_17.png"%string];
                        "target_label" := Int64List [3] ]} |},
      {| crop_draw := (5, 7, 0)%nat; flip_lr_draw := true;
         flip_ud_draw := true; angle_draw := 90%nat |})]
    {| uniform_X := fun _ => 1 # 2; uniform_Y := fun _ => 1 # 3 |}
    [1; 2; 3]%nat [1; 2; 3]%nat 4
    {[ "rand_crop" := false; "rand_flip_left_right" := false;
       "rand_flip_top_bottom" := false; "rand_rotate" := false;
       "warp" := false; "grayscale" := false ]} false
  = Ok (Tensor [1; 1; 2; 3]%nat [97; 98; 99; 100; 101; 102]%Q, [3],
        ["Gleason_5_17.png"%string]).
Proof.
  refine (proj2 (read_and_decode_toggles_off_unnormalised blank_kernels _ _ _ _ _ _ _ _)
            1%nat 2%nat 3%nat [3%nat]
            [(Tensor [1; 2; 3]%nat [97; 98; 99; 100; 101; 102]%Q, 3,
              "Gleason_5_17.png"%string)] _ _ _ _ _ _ _).
  - repeat split; reflexivity.
  - reflexivity.
  - reflexivity.
  - lia.
  - lia.
  - discriminate.
  - reflexivity.
  - constructor; [vm_compute; reflexivity|constructor].
Defined.

(** ** The elastic warp *)

Lemma length_concat_replicate {A} n (l : list A) :
  length (concat (replicate n l)) = (n * length l)%nat.
Proof. induction n as [|n IH]; simpl; [reflexivity|]. rewrite length_app, IH. lia. Qed.

(** Cutting [k] copies of [l] back into chunks of its length gives the [k]
    copies. *)
Lemma chunks_concat_replicate {A} k (l : list A) :
  chunks (length l) k (concat (replicate k l)) = replicate k l.
Proof.
  induction k as [|k IH]; simpl; [reflexivity|].
  rewrite take_app_length, drop_app_length. now rewrite IH.
Qed.

Lemma zip_with_replicate_r {A B C} (f : A -> B -> C) (xs : list A) (y : B) :
  zip_with f xs (replicate (length xs) y) = map (fun x => f x y) xs.
Proof. induction xs as [|x xs IH]; simpl; [reflexivity|now rewrite IH]. Qed.

Lemma length_interleave (xs ys : list Q) :
  length xs = length ys ->
  length (concat (zip_with (fun x y => [x; y]) xs ys)) = (2 * length xs)%nat.
Proof.
  revert ys. induction xs as [|x xs IH]; intros [|y ys] H; simpl in *; try lia.
  rewrite IH by lia. lia.
Qed.

Section WarpFacts.
Variable tf : tf_kernels.
Hypothesis conv_size : conv2d_keeps_size tf.

Lemma displacement_field_ok u h w :
  exists vals,
    displacement_field tf u h w = Ok (Tensor [1; h; w; 1]%nat vals)
    /\ length vals = (h * w)%nat.
Proof.
  unfold displacement_field, reshape. cbn [data].
  destruct (decide _) as [_|Hne].
  2:{ exfalso. apply Hne. rewrite length_map, length_seq.
      unfold numel. cbn [fold_right]. lia. }
  cbn [mbind result_bind shape data]. eexists. split; [reflexivity|].
  rewrite length_map. apply conv_size.
Qed.

(** The stage on a batch of [size_of_batch] examples: one flow field, built
    from the one pair of noise fields, warps every example. *)
Lemma warp_batch_shares_flow noise h w c rest size_of_batch img :
  length (data img) = (size_of_batch * (h * w * c))%nat ->
  exists X_convolved Y_convolved,
    displacement_field tf (uniform_X noise) h w = Ok X_convolved
    /\ displacement_field tf (uniform_Y noise) h w = Ok Y_convolved
    /\ let flow := concat (zip_with (fun x y => [x; y])
                                    (data X_convolved) (data Y_convolved)) in
       length flow = (h * w * 2)%nat
       /\ warp_batch tf noise (h :: w :: c :: rest) size_of_batch img
          = Ok (Tensor [size_of_batch; h; w; c]
                  (concat (map (fun example => tf_dense_warp_one tf h w c example flow)
                               (chunks (h * w * c) size_of_batch (data img))))).
Proof.
  intros Himg.
  destruct (displacement_field_ok (uniform_X noise) h w) as (xs & HX & Hxs).
  destruct (displacement_field_ok (uniform_Y noise) h w) as (ys & HY & Hys).
  exists (Tensor [1; h; w; 1]%nat xs), (Tensor [1; h; w; 1]%nat ys).
  split; [exact HX|]. split; [exact HY|]. cbv zeta. cbn [data].
  set (flow := concat (zip_with (fun x y => [x; y]) xs ys)).
  assert (Hflow : length flow = (h * w * 2)%nat).
  { unfold flow. rewrite length_interleave by lia. lia. }
  split; [exact Hflow|].
  unfold warp_batch.
  change (PyStr.index (h :: w :: c :: rest) 0) with (@Ok nat h).
  change (PyStr.index (h :: w :: c :: rest) 1) with (@Ok nat w).
  change (PyStr.index (h :: w :: c :: rest) 2) with (@Ok nat c).
  cbn [mbind result_bind]. rewrite HX, HY. cbn [mbind result_bind].
  unfold stack_last. cbn [shape data].
  destruct (decide _) as [_|Hne]; [|congruence].
  cbn [mbind result_bind shape data]. fold flow.
  unfold tile. cbn [shape data mbind result_bind].
  unfold reshape. cbn [data].
  repeat (destruct (decide (numel _ = _)) as [_|Hne];
          [|exfalso; apply Hne;
            rewrite ?length_concat_replicate, ?Hflow, ?Himg;
            unfold numel; cbn [fold_right]; lia];
          cbn [mbind result_bind]).
  unfold dense_image_warp. cbn [shape data].
  destruct (decide _) as [_|Hne]; [|exfalso; apply Hne; auto].
  do 3 f_equal.
  rewrite <- Hflow, chunks_concat_replicate.
  replace (replicate size_of_batch flow)
    with (replicate (length (chunks (h * w * c) size_of_batch (data img))) flow)
    by now rewrite length_chunks.
  apply zip_with_replicate_r.
Qed.

(** The stage returns only for a batch of [size_of_batch] examples. *)
Lemma warp_batch_ok_inv noise h w c rest size_of_batch img out :
  warp_batch tf noise (h :: w :: c :: rest) size_of_batch img = Ok out ->
  length (data img) = (size_of_batch * (h * w * c))%nat.
Proof.
  unfold warp_batch.
  change (PyStr.index (h :: w :: c :: rest) 0) with (@Ok nat h).
  change (PyStr.index (h :: w :: c :: rest) 1) with (@Ok nat w).
  change (PyStr.index (h :: w :: c :: rest) 2) with (@Ok nat c).
  cbn [mbind result_bind]. intros H.
  repeat match type of H with
         | mbind _ ?m = Ok _ =>
             let x := fresh "x" in
             destruct m as [x|] eqn:?; [|discriminate]; cbn [mbind result_bind] in H
         end.
  match goal with
  | E : reshape img _ = Ok _ |- _ => unfold reshape in E;
      destruct (decide (numel [size_of_batch; h; w; c] = length (data img))) as [Hn|];
      [|discriminate]
  end.
  rewrite <- Hn. unfold numel. cbn [fold_right]. lia.
Qed.
End WarpFacts.

Ltac bind_inv H :=
  repeat (match type of H with
          | mbind _ (match ?o with Some _ => _ | None => _ end) = Ok _ =>
              destruct o eqn:?; [|discriminate]
          | mbind _ (if ?b then _ else _) = Ok _ => destruct b
          | mbind _ ?m = Ok _ => destruct m eqn:?; [|discriminate]
          | (if ?b then _ else _) = Ok _ => destruct b; [|discriminate]
          end; cbn [mbind result_bind] in H).

(** With the warp enabled, the batch [read_and_decode] returns is the
    stacked batch put through [warp_batch], then through the grayscale
    conversion if that is enabled too. *)
Lemma read_and_decode_warp_inv tf dequeued noise img_dims model_dims size_of_batch
    augmentations_dic shuffle out labels paths :
  augmentations_dic !! "warp" = Some true ->
  read_and_decode tf dequeued noise img_dims model_dims size_of_batch
                  augmentations_dic shuffle = Ok (out, labels, paths) ->
  exists stacked warped (gray : bool),
    warp_batch tf noise model_dims size_of_batch stacked = Ok warped
    /\ augmentations_dic !! "grayscale" = Some gray
    /\ out = if gray then tf_rgb_to_grayscale tf warped else warped.
Proof.
  intros Hwarp H. unfold read_and_decode, toggle in H. rewrite Hwarp in H.
  bind_inv H.
  all: injection H as <- _ _.
  all: match goal with
       | E : mbind _ (PyStr.index _ 0) = Ok ?a |- _ => bind_inv E; injection E as <-
       end.
  all: match goal with
       | E : warp_batch _ _ _ _ ?s = Ok ?wp |- _ => exists s, wp
       end.
  all: eexists; split; [eassumption|]; split; reflexivity.
Qed.

Lemma blank_kernels_keep_size : conv2d_keeps_size blank_kernels.
Proof. intros h w input k filter. apply length_replicate. Qed.

(** * Further properties *)

(** ** Order and representation of rounded values *)

Module FloatOrder.
Import Float FloatFacts FloatExact.

Lemma ilog2_lt a : (0 < a)%Q -> (a < 2 ^ (ilog2 a + 1))%Q.
Proof.
  intros Ha. destruct a as [n d]. unfold ilog2. cbn [Qnum Qden].
  set (ln := Z.log2 n). set (ld := Z.log2 (Zpos d)).
  assert (Hn : 0 < n) by (unfold Qlt in Ha; simpl in Ha; lia).
  destruct (Z.log2_spec n Hn) as [_ Hn2].
  destruct (Z.log2_spec (Zpos d) (Pos2Z.is_pos d)) as [Hd1 _].
  fold ln in Hn2. fold ld in Hd1.
  assert (Hln : 0 <= ln) by apply Z.log2_nonneg.
  assert (Hld : 0 <= ld) by apply Z.log2_nonneg.
  destruct (Qle_bool (2 ^ (ln - ld)) (n # d)) eqn:T.
  - replace (ln - ld + 1) with (Z.succ ln - ld) by lia.
    rewrite Qpower_minus by apply two_neq_0.
    change 2%Q with (inject_Z 2).
    rewrite <- !Zpower_Qpower by lia.
    apply Qlt_shift_div_l.
    + change 0%Q with (inject_Z 0). rewrite <- Zlt_Qlt. lia.
    + unfold Qlt, Qmult, inject_Z. simpl. nia.
  - replace (ln - ld - 1 + 1) with (ln - ld) by lia.
    apply Qnot_le_lt. intros H. apply Qle_bool_iff in H. congruence.
Qed.


(** the binade of a positive rational is unique *)
Lemma ilog2_unique a e :
  (0 < a)%Q -> (2 ^ e <= a)%Q -> (a < 2 ^ (e + 1))%Q -> ilog2 a = e.
Proof.
  intros Ha Hlo Hhi.
  pose proof (ilog2_le a Ha) as Hlo'. pose proof (ilog2_lt a Ha) as Hhi'.
  assert (H1 : ilog2 a < e + 1).
  { apply (Qpower_lt_compat_l_inv 2); [|reflexivity].
    eapply Qle_lt_trans; eassumption. }
  assert (H2 : e < ilog2 a + 1).
  { apply (Qpower_lt_compat_l_inv 2); [|reflexivity].
    eapply Qle_lt_trans; eassumption. }
  lia.
Qed.

Lemma ilog2_comp a b : (0 < a)%Q -> (a == b)%Q -> ilog2 a = ilog2 b.
Proof.
  intros Ha E. assert (Hb : (0 < b)%Q) by now rewrite <- E.
  apply ilog2_unique; [exact Ha| |].
  - rewrite E. now apply ilog2_le.
  - rewrite E. now apply ilog2_lt.
Qed.

Lemma ilog2_mono a b : (0 < a)%Q -> (a <= b)%Q -> ilog2 a <= ilog2 b.
Proof.
  intros Ha Hab. assert (Hb : (0 < b)%Q) by lra.
  pose proof (ilog2_le a Ha). pose proof (ilog2_lt b Hb).
  assert (ilog2 a < ilog2 b + 1); [|lia].
  apply (Qpower_lt_compat_l_inv 2); [|reflexivity]. lra.
Qed.

Lemma round_half_even_comp q q' :
  (q == q')%Q -> round_half_even q = round_half_even q'.
Proof.
  intros H. unfold round_half_even.
  rewrite (Qfloor_comp _ _ H).
  assert (E : (q - inject_Z (Qfloor q') ?= 1 # 2)%Q
              = (q' - inject_Z (Qfloor q') ?= 1 # 2)%Q).
  { apply Qcompare_comp; [|reflexivity]. now rewrite H. }
  now rewrite E.
Qed.

(** rounding to the nearest integer is monotone *)
Lemma round_half_even_mono x y :
  (x <= y)%Q -> round_half_even x <= round_half_even y.
Proof.
  intros Hxy.
  pose proof (Qfloor_resp_le _ _ Hxy) as Hf.
  assert (Bx : Qfloor x <= round_half_even x <= Qfloor x + 1).
  { unfold round_half_even. destruct (_ ?= _)%Q; [destruct (Z.even _)| |]; lia. }
  assert (By : Qfloor y <= round_half_even y <= Qfloor y + 1).
  { unfold round_half_even. destruct (_ ?= _)%Q; [destruct (Z.even _)| |]; lia. }
  destruct (Z.eq_dec (Qfloor x) (Qfloor y)) as [E|NE]; [|lia].
  unfold round_half_even. rewrite <- E.
  destruct (x - inject_Z (Qfloor x) ?= 1 # 2)%Q eqn:Cx;
    destruct (y - inject_Z (Qfloor x) ?= 1 # 2)%Q eqn:Cy;
    try (destruct (Z.even (Qfloor x))); try lia; exfalso;
    repeat match goal with
           | H : (_ ?= _)%Q = Eq |- _ => apply Qeq_alt in H
           | H : (_ ?= _)%Q = Lt |- _ => apply Qlt_alt in H
           | H : (_ ?= _)%Q = Gt |- _ => apply Qgt_alt in H
           end; lra.
Qed.

Lemma round_half_even_le_int x k :
  (x <= inject_Z k)%Q -> round_half_even x <= k.
Proof.
  intros H. rewrite <- (round_half_even_int k). now apply round_half_even_mono.
Qed.

Lemma round_half_even_ge_int x k :
  (inject_Z k <= x)%Q -> k <= round_half_even x.
Proof.
  intros H. rewrite <- (round_half_even_int k). now apply round_half_even_mono.
Qed.

(** the value of [rnd] on a positive rational *)
Lemma rnd_pos_eq prec q :
  (0 < q)%Q ->
  (rnd prec q
   == inject_Z (round_half_even (q * 2 ^ (prec - 1 - ilog2 q)))
      / 2 ^ (prec - 1 - ilog2 q))%Q.
Proof.
  intros Hq. unfold rnd.
  assert (Hne : Qeq_bool q 0 = false).
  { destruct (Qeq_bool q 0) eqn:E; [|reflexivity].
    apply Qeq_bool_iff in E. lra. }
  assert (Hle : Qle_bool 0 q = true) by (apply Qle_bool_iff; lra).
  assert (Habs : Qabs q = q).
  { destruct q as [[|p|p] d]; try reflexivity.
    unfold Qlt in Hq. simpl in Hq. lia. }
  rewrite Hne, Hle, Habs, Qred_correct. reflexivity.
Qed.

Lemma two_power_int e : 0 <= e -> (2 ^ e == inject_Z (2 ^ e))%Q.
Proof. intros H. change 2%Q with (inject_Z 2). now rewrite <- Zpower_Qpower. Qed.

(** a rounded positive rational stays in the closure of its binade *)
Lemma rnd_pos_binade prec q :
  1 <= prec -> (0 < q)%Q ->
  (2 ^ ilog2 q <= rnd prec q /\ rnd prec q <= 2 ^ (ilog2 q + 1))%Q.
Proof.
  intros Hp Hq. rewrite (rnd_pos_eq prec q Hq).
  pose proof (ilog2_le q Hq) as Hlo. pose proof (ilog2_lt q Hq) as Hhi.
  set (e := ilog2 q) in *. set (s := prec - 1 - e).
  pose proof (two_power_pos s) as HP.
  assert (E1 : (2 ^ e * 2 ^ s == inject_Z (2 ^ (prec - 1)))%Q).
  { rewrite <- Qpower_plus by apply two_neq_0.
    replace (e + s) with (prec - 1) by (unfold s; lia).
    apply two_power_int. lia. }
  assert (E2 : (2 ^ (e + 1) * 2 ^ s == inject_Z (2 ^ prec))%Q).
  { rewrite <- Qpower_plus by apply two_neq_0.
    replace (e + 1 + s) with prec by (unfold s; lia).
    apply two_power_int. lia. }
  split.
  - apply Qle_shift_div_l; [exact HP|]. rewrite E1, <- Zle_Qle.
    apply round_half_even_ge_int. rewrite <- E1.
    apply Qmult_le_compat_r; [exact Hlo|lra].
  - apply Qle_shift_div_r; [exact HP|]. rewrite E2, <- Zle_Qle.
    apply round_half_even_le_int. rewrite <- E2.
    apply Qmult_le_compat_r; lra.
Qed.

(** rounding is monotone on the positive rationals *)
Lemma rnd_mono_pos prec a b :
  1 <= prec -> (0 < a)%Q -> (a <= b)%Q -> (rnd prec a <= rnd prec b)%Q.
Proof.
  intros Hp Ha Hab. assert (Hb : (0 < b)%Q) by lra.
  pose proof (ilog2_mono a b Ha Hab) as He.
  destruct (Z.eq_dec (ilog2 a) (ilog2 b)) as [E|NE].
  - rewrite (rnd_pos_eq prec a Ha), (rnd_pos_eq prec b Hb), E.
    set (s := prec - 1 - ilog2 b). pose proof (two_power_pos s) as HP.
    apply Qle_shift_div_l; [exact HP|].
    unfold Qdiv. rewrite <- Qmult_assoc, (Qmult_comm (/ _)), Qmult_inv_r, Qmult_1_r by lra.
    rewrite <- Zle_Qle. apply round_half_even_mono.
    apply Qmult_le_compat_r; lra.
  - destruct (rnd_pos_binade prec a Hp Ha) as [_ Ua].
    destruct (rnd_pos_binade prec b Hp Hb) as [Lb _].
    eapply Qle_trans; [exact Ua|]. eapply Qle_trans; [|exact Lb].
    apply Qpower_le_compat_l; [lia|]. discriminate.
Qed.

Lemma rnd_pos prec q : 1 <= prec -> (0 < q)%Q -> (0 < rnd prec q)%Q.
Proof.
  intros Hp Hq. destruct (rnd_pos_binade prec q Hp Hq) as [L _].
  pose proof (two_power_pos (ilog2 q)). lra.
Qed.

Lemma Qeq_bool_comp a b c : (a == b)%Q -> Qeq_bool a c = Qeq_bool b c.
Proof.
  intros E. destruct (Qeq_bool a c) eqn:Ha, (Qeq_bool b c) eqn:Hb; try reflexivity.
  - apply Qeq_bool_iff in Ha. rewrite E in Ha. apply Qeq_bool_iff in Ha. congruence.
  - apply Qeq_bool_iff in Hb. rewrite <- E in Hb. apply Qeq_bool_iff in Hb. congruence.
Qed.

Lemma Qle_bool_comp a b c : (a == b)%Q -> Qle_bool c a = Qle_bool c b.
Proof.
  intros E. destruct (Qle_bool c a) eqn:Ha, (Qle_bool c b) eqn:Hb; try reflexivity.
  - apply Qle_bool_iff in Ha. rewrite E in Ha. apply Qle_bool_iff in Ha. congruence.
  - apply Qle_bool_iff in Hb. rewrite <- E in Hb. apply Qle_bool_iff in Hb. congruence.
Qed.

(** [rnd] does not depend on how its argument is written as a fraction *)
Lemma rnd_comp prec a b : (a == b)%Q -> rnd prec a = rnd prec b.
Proof.
  intros E. unfold rnd.
  rewrite (Qeq_bool_comp a b 0 E).
  destruct (Qeq_bool b 0) eqn:Hz; [reflexivity|].
  assert (Hb : ~ (b == 0)%Q).
  { intros H. apply Qeq_bool_iff in H. congruence. }
  assert (Eabs : (Qabs a == Qabs b)%Q) by now rewrite E.
  assert (Hpos : (0 < Qabs a)%Q).
  { rewrite Eabs. pose proof (Qabs_nonneg b).
    destruct (Qeq_dec (Qabs b) 0) as [Z|NZ]; [|lra].
    exfalso. apply Hb. destruct b as [[|p|p] d]; try reflexivity; discriminate Z. }
  rewrite (ilog2_comp _ _ Hpos Eabs).
  set (s := prec - 1 - ilog2 (Qabs b)).
  rewrite (round_half_even_comp (Qabs a * 2 ^ s) (Qabs b * 2 ^ s)) by now rewrite Eabs.
  rewrite (Qle_bool_comp a b 0 E).
  reflexivity.
Qed.

End FloatOrder.

(** ** The displacement fields of the warp *)

Module FieldFacts.
Import Float FloatFacts FloatExact FloatOrder.

Lemma Qabs_opp_eq q : Qabs (- q) = Qabs q.
Proof. destruct q as [n d]. unfold Qabs, Qopp. cbn [Qnum Qden]. now rewrite Z.abs_opp. Qed.

(** the mantissa of a rounded value is not negative *)
Lemma mantissa_nonneg a s : (0 <= inject_Z (round_half_even (Qabs a * 2 ^ s)))%Q.
Proof.
  change 0%Q with (inject_Z 0). rewrite <- Zle_Qle.
  apply round_half_even_ge_int. change (inject_Z 0) with 0%Q.
  apply Qmult_le_0_compat; [apply Qabs_nonneg|].
  pose proof (two_power_pos s). lra.
Qed.

Lemma rnd_nonpos prec q : (q <= 0)%Q -> (rnd prec q <= 0)%Q.
Proof.
  intros Hq. unfold rnd.
  destruct (Qeq_bool q 0) eqn:Hz; [lra|].
  destruct (Qle_bool 0 q) eqn:Hle.
  - exfalso. apply Qle_bool_iff in Hle.
    assert (E : (q == 0)%Q) by lra. apply Qeq_bool_iff in E. congruence.
  - rewrite Qred_correct.
    set (s := prec - 1 - ilog2 (Qabs q)).
    pose proof (mantissa_nonneg q s) as Hm. pose proof (two_power_pos s) as HP.
    apply Qle_shift_div_r; [exact HP|]. lra.
Qed.

Lemma rnd_nonneg prec q : (0 <= q)%Q -> (0 <= rnd prec q)%Q.
Proof.
  intros Hq. unfold rnd.
  destruct (Qeq_bool q 0) eqn:Hz; [lra|].
  assert (Hle : Qle_bool 0 q = true) by now apply Qle_bool_iff.
  rewrite Hle, Qred_correct.
  set (s := prec - 1 - ilog2 (Qabs q)).
  pose proof (mantissa_nonneg q s) as Hm. pose proof (two_power_pos s) as HP.
  apply Qle_shift_div_l; [exact HP|]. lra.
Qed.

(** rounding is odd *)
Lemma rnd_opp prec q : (rnd prec (- q) == - rnd prec q)%Q.
Proof.
  unfold rnd. rewrite Qabs_opp_eq.
  assert (Ez : Qeq_bool (- q) 0 = Qeq_bool q 0).
  { destruct (Qeq_bool (- q) 0) eqn:A, (Qeq_bool q 0) eqn:B; try reflexivity; exfalso.
    - apply Qeq_bool_iff in A. assert (E : (q == 0)%Q) by lra.
      apply Qeq_bool_iff in E. congruence.
    - apply Qeq_bool_iff in B. assert (E : (- q == 0)%Q) by lra.
      apply Qeq_bool_iff in E. congruence. }
  rewrite Ez. destruct (Qeq_bool q 0) eqn:Hz; [reflexivity|].
  assert (Hne : ~ (q == 0)%Q).
  { intros E. apply Qeq_bool_iff in E. congruence. }
  set (s := prec - 1 - ilog2 (Qabs q)).
  set (m := inject_Z (round_half_even (Qabs q * 2 ^ s))).
  pose proof (two_power_pos s) as HP.
  rewrite !Qred_correct.
  destruct (Qle_bool 0 q) eqn:A, (Qle_bool 0 (- q)) eqn:B.
  - exfalso. apply Qle_bool_iff in A, B. apply Hne. lra.
  - field. lra.
  - field. lra.
  - exfalso.
    assert (A' : ~ (0 <= q)%Q) by (intros H; apply Qle_bool_iff in H; congruence).
    assert (B' : ~ (0 <= - q)%Q) by (intros H; apply Qle_bool_iff in H; congruence).
    lra.
Qed.

(** a representable bound is kept by rounding *)
Lemma rnd_le_bound prec q b :
  1 <= prec -> (0 < b)%Q -> rnd prec b = b -> (q <= b)%Q -> (rnd prec q <= b)%Q.
Proof.
  intros Hp Hb Hrep Hq.
  destruct (Qlt_le_dec 0 q) as [Hpos|Hneg].
  - rewrite <- Hrep. now apply rnd_mono_pos.
  - pose proof (rnd_nonpos prec q Hneg). lra.
Qed.

Lemma rnd_ge_bound prec q b :
  1 <= prec -> (0 < b)%Q -> rnd prec b = b -> (- b <= q)%Q -> (- b <= rnd prec q)%Q.
Proof.
  intros Hp Hb Hrep Hq.
  assert (H : (rnd prec (- q) <= b)%Q) by (apply rnd_le_bound; try assumption; lra).
  rewrite rnd_opp in H. lra.
Qed.

Lemma binary32_1 : binary32 1 = 1%Q.
Proof. vm_compute. reflexivity. Qed.

Lemma binary32_2 : binary32 2 = 2%Q.
Proof. vm_compute. reflexivity. Qed.

Lemma binary32_6 : binary32 6 = 6%Q.
Proof. vm_compute. reflexivity. Qed.

(** Line 277: a draw of [tf.random_uniform], doubled and shifted, lies
    between -1 and 1. *)
Lemma noise_range u :
  (0 <= u)%Q -> (u <= 1)%Q ->
  (- (1) <= binary32 (binary32 (u * 2) - 1))%Q
  /\ (binary32 (binary32 (u * 2) - 1) <= 1)%Q.
Proof.
  intros H0 H1.
  assert (Ha : (0 <= binary32 (u * 2))%Q) by (apply rnd_nonneg; lra).
  assert (Hb : (binary32 (u * 2) <= 2)%Q).
  { apply rnd_le_bound; [lia|lra|exact binary32_2|lra]. }
  split.
  - apply rnd_ge_bound; [lia|lra|exact binary32_1|lra].
  - apply rnd_le_bound; [lia|lra|exact binary32_1|lra].
Qed.

(** Line 290 with a positive maximum: no value of the scaled field is above
    [alpha], and the maximum itself is sent to [alpha] exactly. *)
Lemma scaled_le x m :
  (0 < m)%Q -> (x <= m)%Q -> (binary32 (binary32 (x / m) * 6) <= 6)%Q.
Proof.
  intros Hm Hx.
  assert (Hq : (x / m <= 1)%Q) by (apply Qle_shift_div_r; lra).
  assert (Hr : (binary32 (x / m) <= 1)%Q).
  { apply rnd_le_bound; [lia|lra|exact binary32_1|exact Hq]. }
  apply rnd_le_bound; [lia|lra|exact binary32_6|lra].
Qed.

Lemma scaled_max m : ~ (m == 0)%Q -> binary32 (binary32 (m / m) * 6) = 6%Q.
Proof.
  intros Hm.
  assert (E : (m / m == 1)%Q) by (field; exact Hm).
  unfold binary32. rewrite (rnd_comp 24 _ _ E).
  vm_compute. reflexivity.
Qed.

Lemma fold_max_spec rest : forall x,
  (fold_left (fun m y => if Qle_bool m y then y else m) rest x = x
   \/ In (fold_left (fun m y => if Qle_bool m y then y else m) rest x) rest)
  /\ (x <= fold_left (fun m y => if Qle_bool m y then y else m) rest x)%Q
  /\ Forall (fun y => (y <= fold_left (fun m y => if Qle_bool m y then y else m) rest x)%Q)
            rest.
Proof.
  induction rest as [|y rest IH]; intros x; cbn [fold_left].
  - split; [now left|]. split; [lra|constructor].
  - destruct (Qle_bool x y) eqn:E.
    + apply Qle_bool_iff in E. destruct (IH y) as (H1 & H2 & H3).
      split; [|split].
      * right. destruct H1 as [H1|H1]; [left; now rewrite H1|now right].
      * lra.
      * constructor; assumption.
    + assert (E' : (y < x)%Q).
      { apply Qnot_le_lt. intros H. apply Qle_bool_iff in H. congruence. }
      destruct (IH x) as (H1 & H2 & H3).
      split; [|split].
      * destruct H1 as [H1|H1]; [now left|right; now right].
      * assumption.
      * constructor; [lra|assumption].
Qed.

(** [tf.reduce_max] of a non-empty tensor is one of its elements, and none
    is greater *)
Lemma reduce_max_spec l :
  l <> [] -> In (reduce_max l) l /\ Forall (fun y => (y <= reduce_max l)%Q) l.
Proof.
  destruct l as [|x rest]; [congruence|]. intros _. unfold reduce_max.
  destruct (fold_max_spec rest x) as (H1 & H2 & H3). split.
  - destruct H1 as [H1|H1]; [left; now rewrite H1|now right].
  - constructor; assumption.
Qed.

Lemma scaled_field l :
  (0 < reduce_max l)%Q ->
  Forall (fun x => (x <= 6)%Q)
         (map (fun x => binary32 (binary32 (x / reduce_max l) * 6)) l)
  /\ In 6%Q (map (fun x => binary32 (binary32 (x / reduce_max l) * 6)) l).
Proof.
  intros Hm.
  assert (Hne : l <> []).
  { intros ->. cbn in Hm. lra. }
  destruct (reduce_max_spec l Hne) as [Hin Hle]. split.
  - apply Forall_map. eapply Forall_impl; [exact Hle|].
    intros x Hx. cbn beta in *. now apply scaled_le.
  - apply in_map_iff. exists (reduce_max l). split; [|exact Hin].
    apply scaled_max. lra.
Qed.

Lemma length_linspace start stop num : length (linspace start stop num) = num.
Proof.
  unfold linspace. destruct num as [|[|n]]; [reflexivity|reflexivity|].
  now rewrite length_map, length_seq.
Qed.

End FieldFacts.

Section FieldValue.
Variable tf : tf_kernels.

(** Lines 277-291, written out: the field is the blurred noise, divided by
    its maximum and multiplied by [alpha], every operation rounded to
    float32. *)
Lemma displacement_field_value u h w :
  displacement_field tf u h w
  = Ok (Tensor [1; h; w; 1]%nat
          (map (fun x =>
                  Float.binary32
                    (Float.binary32
                       (x / reduce_max
                              (tf_conv2d_same tf h w
                                 (map (fun i => Float.binary32
                                                  (Float.binary32 (u i * 2) - 1))
                                      (seq 0 (h * w)))
                                 128 (gaussian_kernel tf 0 1 128))) * 6))
               (tf_conv2d_same tf h w
                  (map (fun i => Float.binary32 (Float.binary32 (u i * 2) - 1))
                       (seq 0 (h * w)))
                  128 (gaussian_kernel tf 0 1 128)))).
Proof.
  unfold displacement_field, reshape. cbn [data].
  destruct (decide _) as [_|Hne].
  2:{ exfalso. apply Hne. rewrite length_map, length_seq.
      unfold numel. cbn [fold_right]. lia. }
  reflexivity.
Qed.

(** Lines 282-285: [z_2d] is the outer product with itself of the vector
    [z], the Gaussian density sampled at [ksize] points from -3 to 3. *)
Lemma gaussian_kernel_outer mean sigma ksize :
  let z :=
    map (fun x =>
           Float.binary32
             (Float.binary32
                (1 / Float.binary32 (sigma * tf_sqrt tf (Float.binary32 (2 * PI))))
              * tf_exp tf (- Float.binary32
                               (tf_pow tf (Float.binary32 (x - mean)) 2
                                / Float.binary32 (2 * tf_pow tf sigma 2)))))
        (linspace (-3) 3 ksize) in
  length z = ksize
  /\ gaussian_kernel tf mean sigma ksize
     = concat (map (fun zi => map (fun zj => Float.binary32 (zi * zj)) z) z).
Proof.
  cbv zeta. split; [|reflexivity].
  now rewrite length_map, FieldFacts.length_linspace.
Qed.

End FieldValue.

(** C9.  With the warp enabled, one pair of displacement fields is generated
    per evaluated batch and applied to every example of it.

    Generation.  Each field comes from its own draw of [tf.random_uniform]
    ([uniform_X], [uniform_Y]): the drawn values are doubled and shifted
    down by one, which gives noise between -1 and 1; the noise is blurred by
    [conv2d] with the 128 x 128 kernel [z_2d], the outer product with itself
    of the Gaussian density of mean 0 and deviation 1 sampled at 128 points
    from -3 to 3; the blurred field is divided by its maximum and multiplied
    by 6.  When that maximum is positive, no displacement exceeds 6 and the
    largest is 6 exactly.

    Sharing.  The two fields are interleaved into one flow with a
    displacement pair per pixel, which does not depend on the examples; the
    stage warps every example of the batch with that same flow, and so does
    [read_and_decode] on whatever batch it stacked.

    The statement is about finite values: it assumes that the maximum of
    each blurred field is not zero (a float32 division by zero gives NaN or
    an infinity, which the rationals do not represent), and that [conv2d]
    with SAME padding keeps the spatial size. *)
Theorem warp_field_shared_by_batch (tf : tf_kernels) (noise : batch_draws)
    (h w c : nat) (rest : list nat) (size_of_batch : nat) :
  let z_2d := gaussian_kernel tf 0 1 128 in
  let X := map (fun i => Float.binary32 (Float.binary32 (uniform_X noise i * 2) - 1))
               (seq 0 (h * w)) in
  let Y := map (fun i => Float.binary32 (Float.binary32 (uniform_Y noise i * 2) - 1))
               (seq 0 (h * w)) in
  let X_blurred := tf_conv2d_same tf h w X 128 z_2d in
  let Y_blurred := tf_conv2d_same tf h w Y 128 z_2d in
  conv2d_keeps_size tf ->
  ~ (reduce_max X_blurred == 0)%Q ->
  ~ (reduce_max Y_blurred == 0)%Q ->
  exists X_convolved Y_convolved flow,
    displacement_field tf (uniform_X noise) h w = Ok X_convolved
    /\ displacement_field tf (uniform_Y noise) h w = Ok Y_convolved
    /\ X_convolved
       = Tensor [1; h; w; 1]%nat
           (map (fun x => Float.binary32
                            (Float.binary32 (x / reduce_max X_blurred) * 6))
                X_blurred)
    /\ Y_convolved
       = Tensor [1; h; w; 1]%nat
           (map (fun y => Float.binary32
                            (Float.binary32 (y / reduce_max Y_blurred) * 6))
                Y_blurred)
    /\ ((forall i, (0 <= uniform_X noise i)%Q /\ (uniform_X noise i <= 1)%Q) ->
        Forall (fun x => (- (1) <= x)%Q /\ (x <= 1)%Q) X)
    /\ ((forall i, (0 <= uniform_Y noise i)%Q /\ (uniform_Y noise i <= 1)%Q) ->
        Forall (fun y => (- (1) <= y)%Q /\ (y <= 1)%Q) Y)
    /\ (let z :=
          map (fun x =>
                 Float.binary32
                   (Float.binary32
                      (1 / Float.binary32 (1 * tf_sqrt tf (Float.binary32 (2 * PI))))
                    * tf_exp tf (- Float.binary32
                                     (tf_pow tf (Float.binary32 (x - 0)) 2
                                      / Float.binary32 (2 * tf_pow tf 1 2)))))
              (linspace (-3) 3 128) in
        length z = 128%nat
        /\ z_2d = concat (map (fun zi => map (fun zj => Float.binary32 (zi * zj)) z) z))
    /\ ((0 < reduce_max X_blurred)%Q ->
        Forall (fun x => (x <= 6)%Q) (data X_convolved) /\ In 6%Q (data X_convolved))
    /\ ((0 < reduce_max Y_blurred)%Q ->
        Forall (fun y => (y <= 6)%Q) (data Y_convolved) /\ In 6%Q (data Y_convolved))
    /\ flow = concat (zip_with (fun x y => [x; y])
                               (data X_convolved) (data Y_convolved))
    /\ length flow = (h * w * 2)%nat
    /\ (forall img,
          length (data img) = (size_of_batch * (h * w * c))%nat ->
          warp_batch tf noise (h :: w :: c :: rest) size_of_batch img
          = Ok (Tensor [size_of_batch; h; w; c]
                  (concat (map (fun example => tf_dense_warp_one tf h w c example flow)
                               (chunks (h * w * c) size_of_batch (data img))))))
    /\ (forall dequeued img_dims augmentations_dic shuffle out labels paths,
          augmentations_dic !! "warp" = Some true ->
          read_and_decode tf dequeued noise img_dims (h :: w :: c :: rest)
                          size_of_batch augmentations_dic shuffle
          = Ok (out, labels, paths) ->
          exists stacked (gray : bool),
            length (data stacked) = (size_of_batch * (h * w * c))%nat
            /\ augmentations_dic !! "grayscale" = Some gray
            /\ let warped :=
                 Tensor [size_of_batch; h; w; c]
                   (concat (map (fun example => tf_dense_warp_one tf h w c example flow)
                                (chunks (h * w * c) size_of_batch (data stacked)))) in
               out = if gray then tf_rgb_to_grayscale tf warped else warped).
Proof.
  intros z_2d X Y X_blurred Y_blurred Hconv HmX HmY.
  pose proof (displacement_field_value tf (uniform_X noise) h w) as HX.
  pose proof (displacement_field_value tf (uniform_Y noise) h w) as HY.
  fold z_2d X Y in HX, HY. fold X_blurred in HX. fold Y_blurred in HY.
  set (xs := map (fun x => Float.binary32
                             (Float.binary32 (x / reduce_max X_blurred) * 6))
                 X_blurred) in *.
  set (ys := map (fun y => Float.binary32
                             (Float.binary32 (y / reduce_max Y_blurred) * 6))
                 Y_blurred) in *.
  assert (Hxs : length xs = (h * w)%nat).
  { unfold xs. rewrite length_map. apply Hconv. }
  assert (Hys : length ys = (h * w)%nat).
  { unfold ys. rewrite length_map. apply Hconv. }
  assert (Hstage : forall img,
            length (data img) = (size_of_batch * (h * w * c))%nat ->
            warp_batch tf noise (h :: w :: c :: rest) size_of_batch img
            = Ok (Tensor [size_of_batch; h; w; c]
                    (concat (map (fun example =>
                                    tf_dense_warp_one tf h w c example
                                      (concat (zip_with (fun x y => [x; y]) xs ys)))
                                 (chunks (h * w * c) size_of_batch (data img)))))).
  { intros img Himg.
    destruct (warp_batch_shares_flow tf Hconv noise h w c rest size_of_batch img Himg)
      as (X' & Y' & HX' & HY' & _ & Hw).
    rewrite HX in HX'. injection HX' as <-. rewrite HY in HY'. injection HY' as <-.
    exact Hw. }
  exists (Tensor [1; h; w; 1]%nat xs), (Tensor [1; h; w; 1]%nat ys),
         (concat (zip_with (fun x y => [x; y]) xs ys)).
  split; [exact HX|]. split; [exact HY|].
  split; [reflexivity|]. split; [reflexivity|].
  split.
  { intros Hu. apply Forall_map, Forall_forall. intros i _.
    destruct (Hu i) as [H0 H1]. now apply FieldFacts.noise_range. }
  split.
  { intros Hu. apply Forall_map, Forall_forall. intros i _.
    destruct (Hu i) as [H0 H1]. now apply FieldFacts.noise_range. }
  split; [exact (gaussian_kernel_outer tf 0 1 128)|].
  split; [intros Hm; exact (FieldFacts.scaled_field X_blurred Hm)|].
  split; [intros Hm; exact (FieldFacts.scaled_field Y_blurred Hm)|].
  split; [reflexivity|]. split.
  { cbn [data]. rewrite length_interleave by lia. lia. }
  split; [exact Hstage|].
  intros dequeued img_dims aug shuffle out labels paths Hwarp H.
  destruct (read_and_decode_warp_inv _ _ _ _ _ _ _ _ _ _ _ Hwarp H)
    as (stacked & warped & gray & Hw & Hg & ->).
  pose proof (warp_batch_ok_inv tf _ _ _ _ _ _ _ _ Hw) as Hlen.
  exists stacked, gray. split; [exact Hlen|]. split; [exact Hg|].
  rewrite (Hstage stacked Hlen) in Hw. injection Hw as <-. reflexivity.
Qed.

Lemma sampling_kernels_keep_size : conv2d_keeps_size sampling_kernels.
Proof.
  intros h w input k filter. cbn [tf_conv2d_same sampling_kernels].
  now rewrite length_map, length_seq.
Qed.

Lemma warp_field_shared_by_batch_witness :
  displacement_field sampling_kernels (fun _ => 3 # 4) 1 4
  = Ok (Tensor [1; 1; 4; 1]%nat [6; 6; 6; 6]%Q)
  /\ displacement_field sampling_kernels
       (fun i => nth i [3 # 4; 5 # 8; 3 # 8; 1 # 2]%Q 0%Q) 1 4
     = Ok (Tensor [1; 1; 4; 1]%nat [6; 3; -3; 0]%Q)
  /\ warp_batch sampling_kernels
       {| uniform_X := fun _ => 3 # 4;
          uniform_Y := fun i => nth i [3 # 4; 5 # 8; 3 # 8; 1 # 2]%Q 0%Q |}
       [1; 4; 1]%nat 2 (Tensor [2; 1; 4; 1]%nat [1; 2; 3; 4; 5; 6; 7; 8]%Q)
     = Ok (Tensor [2; 1; 4; 1]%nat [1; 1; 4; 4; 5; 5; 8; 8]%Q).
Proof.
  destruct (warp_field_shared_by_batch sampling_kernels
              {| uniform_X := fun _ => 3 # 4;
                 uniform_Y := fun i => nth i [3 # 4; 5 # 8; 3 # 8; 1 # 2]%Q 0%Q |}
              1 4 1 [] 2 sampling_kernels_keep_size)
    as (X_convolved & Y_convolved & flow & HX & HY & EX & EY & _ & _ & _ & _ & _
        & Eflow & _ & Hstage & _).
  - lazy. discriminate.
  - lazy. discriminate.
  - cbn [uniform_X uniform_Y] in HX, HY. rewrite HX, HY, EX, EY.
    rewrite (Hstage (Tensor [2; 1; 4; 1]%nat [1; 2; 3; 4; 5; 6; 7; 8]%Q) eq_refl).
    rewrite Eflow, EX, EY.
    split; [|split]; lazy; reflexivity.
Defined.

(** ** More on the label resolver *)

Lemma split_app_sep sep a b :
  PyStr.split sep (a +:+ String sep b) = PyStr.split sep a ++ PyStr.split sep b.
Proof.
  induction a as [|c a IH].
  - rewrite OsPathFacts.app_nil. simpl. now rewrite Ascii.eqb_refl.
  - rewrite OsPathFacts.app_cons. simpl. rewrite IH.
    destruct (Ascii.eqb c sep); [reflexivity|].
    destruct (PyStr.split sep a) as [|tok toks] eqn:E; [|reflexivity].
    now destruct (split_not_nil sep a).
Qed.

Lemma last_item_app {A} (l : list A) x : PyStr.last_item (l ++ [x]) = Ok x.
Proof. unfold PyStr.last_item. now rewrite rev_app_distr. Qed.

Lemma last_item_of_path dir name :
  PyStr.contains "/" name = false ->
  PyStr.last_item (PyStr.split "/" (dir +:+ "/" +:+ name)) = Ok name.
Proof.
  intros H. change ("/" +:+ name) with (String "/" name).
  rewrite split_app_sep, (split_without_separator _ _ H). apply last_item_app.
Qed.

Lemma last_item_of_name name :
  PyStr.contains "/" name = false ->
  PyStr.last_item (PyStr.split "/" name) = Ok name.
Proof. intros H. now rewrite (split_without_separator _ _ H). Qed.

(** X1.  The label of a file depends on its name only: whatever directory
    part precedes the last slash, underscores and all, the resolver returns
    what it returns on the bare name. *)
Theorem label_ignores_directory (dir name : string) :
  PyStr.contains "/" name = false ->
  class_name_of (dir +:+ "/" +:+ name) = class_name_of name
  /\ resolve_label (dir +:+ "/" +:+ name) = resolve_label name.
Proof.
  intros H.
  assert (E : class_name_of (dir +:+ "/" +:+ name) = class_name_of name).
  { unfold class_name_of.
    now rewrite (last_item_of_path dir name H), (last_item_of_name name H). }
  split; [exact E|]. unfold resolve_label. now rewrite E.
Qed.

Lemma label_ignores_directory_witness :
  class_name_of "/data/gleason_5/train/Benign_1_07.png" = class_name_of "Benign_1_07.png"
  /\ resolve_label "/data/gleason_5/train/Benign_1_07.png" = resolve_label "Benign_1_07.png".
Proof.
  apply (label_ignores_directory "/data/gleason_5/train" "Benign_1_07.png").
  reflexivity.
Defined.

(** What [class_name_of] returns, when it returns. *)
Lemma class_name_of_ok_inv img cn :
  class_name_of img = Ok cn ->
  exists name t0 t1 rest,
    PyStr.last_item (PyStr.split "/" img) = Ok name
    /\ PyStr.split "_" name = t0 :: t1 :: rest
    /\ cn = PyStr.lower t0 +:+ "_" +:+ t1.
Proof.
  unfold class_name_of. intros H.
  destruct (PyStr.last_item (PyStr.split "/" img)) as [name|] eqn:Hn; [|discriminate].
  cbn [mbind result_bind] in H.
  destruct (PyStr.split "_" name) as [|t0 [|t1 rest]] eqn:Ht; try discriminate.
  cbn in H. injection H as <-. exists name, t0, t1, rest. auto.
Qed.

(** The resolver raises nothing but [IndexError]. *)
Lemma resolve_label_raises img e : resolve_label img = Raise e -> e = IndexError.
Proof.
  unfold resolve_label, class_name_of. intros H.
  destruct (PyStr.last_item (PyStr.split "/" img)) as [name|e'] eqn:Hn.
  - cbn [mbind result_bind] in H.
    destruct (PyStr.split "_" name) as [|t0 [|t1 rest]] eqn:Ht; cbn in H; congruence.
  - unfold PyStr.last_item in Hn.
    destruct (rev (PyStr.split "/" img)); cbn in *; congruence.
Qed.

Lemma resolve_label_range img l : resolve_label img = Ok l -> 0 <= l <= 3.
Proof.
  unfold resolve_label. destruct (class_name_of img) as [cn|]; [|discriminate].
  cbn. intros [= <-]. destruct (label_of_class_range cn) as [E|[E|[E|E]]]; rewrite E; lia.
Qed.

Lemma label_of_class_grade cn k :
  1 <= k -> label_of_class cn = k ->
  (k = 3 /\ cn = "gleason_5") \/ (k = 2 /\ cn = "gleason_4") \/ (k = 1 /\ cn = "gleason_3").
Proof.
  unfold label_of_class. intros Hk.
  destruct (String.eqb_spec cn "gleason_5"); [intros <-; auto|].
  destruct (String.eqb_spec cn "gleason_4"); [intros <-; auto|].
  destruct (String.eqb_spec cn "gleason_3"); [intros <-; auto|].
  intros <-. lia.
Qed.

(** X2.  Exactly which files get a grade: label 3 (2, 1) is returned if and
    only if the first underscore-separated token of the file name is
    [gleason] in any letter case and the second token is exactly the
    character 5 (4, 3).  A name such as [gleason_5.png], whose second token
    carries the extension, is therefore not of grade 5. *)
Theorem grade_label_iff (img name : string) (k : Z) (d : ascii) :
  PyStr.last_item (PyStr.split "/" img) = Ok name ->
  In (k, d) [(3, "5"%char); (2, "4"%char); (1, "3"%char)] ->
  resolve_label img = Ok k
  <-> exists t0 rest, PyStr.split "_" name = t0 :: String d "" :: rest
                      /\ PyStr.lower t0 = "gleason"%string.
Proof.
  intros Hn Hk. split.
  - intros H. unfold resolve_label in H.
    destruct (class_name_of img) as [cn|] eqn:Hcn; [|discriminate].
    cbn in H. injection H as H.
    destruct (class_name_of_ok_inv _ _ Hcn) as (name' & t0 & t1 & rest & Hn' & Ht & ->).
    rewrite Hn in Hn'. injection Hn' as <-.
    assert (Hfree : PyStr.contains "_" (PyStr.lower t0) = false).
    { rewrite lower_keeps_separator_free.
      pose proof (split_tokens_free "_" name) as F. rewrite Ht in F. now inversion F. }
    assert (Hk1 : 1 <= k).
    { simpl in Hk. destruct Hk as [E|[E|[E|[]]]]; injection E as <- _; lia. }
    assert (Hkey : PyStr.lower t0 +:+ "_" +:+ t1 = "gleason" +:+ "_" +:+ String d "").
    { destruct (label_of_class_grade _ k Hk1 H) as [[-> E]|[[-> E]|[-> E]]];
        rewrite E; simpl in Hk; destruct Hk as [P|[P|[P|[]]]];
        inversion P; subst; reflexivity. }
    apply (join_inj "_") in Hkey as [E0 E1]; [|assumption|reflexivity].
    exists t0, rest. now rewrite Ht, E1.
  - intros (t0 & rest & Ht & Hl).
    unfold resolve_label. rewrite (class_name_of_tokens _ _ _ _ _ Hn Ht), Hl. cbn.
    simpl in Hk. destruct Hk as [E|[E|[E|[]]]]; injection E as <- <-; reflexivity.
Qed.

Lemma grade_label_iff_witness :
  (resolve_label "/d/train/GLEASON_4_x17.png" = Ok 2
   <-> exists t0 rest, PyStr.split "_" "GLEASON_4_x17.png" = t0 :: String "4" "" :: rest
                       /\ PyStr.lower t0 = "gleason"%string)
  /\ resolve_label "/d/train/gleason_5.png" = Ok 0.
Proof.
  split; [|reflexivity].
  apply (grade_label_iff "/d/train/GLEASON_4_x17.png" "GLEASON_4_x17.png" 2 "4").
  - reflexivity.
  - simpl. auto.
Defined.

(** ** build_tfrecords *)

Lemma for_each_labels files : forall acc labels,
  Forall2 (fun img l => resolve_label img = Ok l) files labels ->
  for_each (fun target_labels img => l ← resolve_label img; Ok (target_labels ++ [l]))
           files acc
  = Ok (acc ++ labels).
Proof.
  induction files as [|img files IH]; intros acc labels H; inversion H; subst; simpl.
  - now rewrite app_nil_r.
  - match goal with E : resolve_label img = Ok _ |- _ => rewrite E end.
    cbn [mbind result_bind]. rewrite (IH _ _ ltac:(eassumption)).
    now rewrite <- app_assoc.
Qed.

Lemma resolved_labels files :
  Forall (fun img => is_ok (resolve_label img) = true) files ->
  exists labels, Forall2 (fun img l => resolve_label img = Ok l) files labels.
Proof.
  induction 1 as [|img files Himg _ [labels IH]]; [exists []; constructor|].
  destruct (resolve_label img) as [l|] eqn:E; [|discriminate].
  exists (l :: labels). now constructor.
Qed.

Lemma for_each_labels_raises files : forall acc,
  Exists (fun img => resolve_label img = Raise IndexError) files ->
  for_each (fun target_labels img => l ← resolve_label img; Ok (target_labels ++ [l]))
           files acc
  = Raise IndexError.
Proof.
  induction files as [|img files IH]; intros acc H; [inversion H|].
  simpl. destruct (resolve_label img) as [l|e] eqn:E; cbn [mbind result_bind].
  - apply IH. inversion H; subst; [congruence|assumption].
  - now rewrite (resolve_label_raises _ _ E).
Qed.

(** The tally loop keeps its four keys; it stops on the first name that does
    not resolve. *)
Lemma tally_raises files : forall d : gmap Z Z,
  is_Some (d !! 0) -> is_Some (d !! 1) -> is_Some (d !! 2) -> is_Some (d !! 3) ->
  Exists (fun img => resolve_label img = Raise IndexError) files ->
  for_each tally_step files d = Raise IndexError.
Proof.
  induction files as [|img files IH]; intros d H0 H1 H2 H3 H; [inversion H|].
  simpl. rewrite tally_step_incr.
  destruct (class_name_of img) as [cn|e] eqn:E; cbn [mbind result_bind].
  - assert (Hrest : Exists (fun img => resolve_label img = Raise IndexError) files).
    { inversion H as [? ? Hb|]; subst; [|assumption].
      unfold resolve_label in Hb. rewrite E in Hb. discriminate. }
    unfold dict_incr, dict_get.
    destruct (label_of_class_range cn) as [L|[L|[L|L]]]; rewrite L;
      [destruct H0 as [v Hv]|destruct H1 as [v Hv]
      |destruct H2 as [v Hv]|destruct H3 as [v Hv]];
      rewrite Hv; cbn [mbind result_bind]; apply IH; try assumption;
      try (rewrite lookup_insert_ne by lia; assumption);
      rewrite lookup_insert_eq; eauto.
  - assert (Hr : resolve_label img = Raise e) by (unfold resolve_label; now rewrite E).
    now rewrite (resolve_label_raises _ _ Hr).
Qed.

(** X3.  When every listed file name resolves, [build_tfrecords] hands
    [create_tf_record] the listing itself and one label per file, in the
    order of the listing: entry i of the labels is the label of file i, every
    label is 0, 1, 2 or 3, and the two lists have the same length, so the
    zip inside [create_tf_record] drops nothing. *)
Theorem build_tfrecords_labels (open_image : string -> result pil_array)
    (glob : string -> list string)
    (main_data_dir main_tfrecords_dir dataset : string) :
  let files := glob (OsPath.join main_data_dir dataset +:+ "/*.png") in
  Forall (fun img => is_ok (resolve_label img) = true) files ->
  exists target_labels,
    build_tfrecords open_image glob main_data_dir main_tfrecords_dir dataset
    = Ok (create_tf_record open_image
            (OsPath.join main_tfrecords_dir (dataset +:+ ".tfrecords"))
            files target_labels)
    /\ Forall2 (fun img l => resolve_label img = Ok l) files target_labels
    /\ Forall (fun l => 0 <= l <= 3) target_labels
    /\ length (zip files target_labels) = length files.
Proof.
  intros files Hok.
  destruct (resolved_labels files Hok) as [labels Hl].
  exists labels. split; [|split; [exact Hl|split]].
  - unfold build_tfrecords. fold files.
    now rewrite (for_each_labels files [] labels Hl).
  - clear Hok. induction Hl as [|img l fs ls Hi _ IH]; constructor; [|exact IH].
    now apply (resolve_label_range img).
  - rewrite length_zip, (Forall2_length _ _ _ Hl). lia.
Qed.

Lemma build_tfrecords_labels_witness :
  exists target_labels,
    build_tfrecords (fun _ => Raise IOError)
      (fun _ => ["/d/train/Gleason_5_a.png"; "/d/train/benign_0_b.png"]%string)
      "/d" "/d/tfrecords" "train"
    = Ok (create_tf_record (fun _ => Raise IOError) "/d/tfrecords/train.tfrecords"
            ["/d/train/Gleason_5_a.png"; "/d/train/benign_0_b.png"]%string
            target_labels)
    /\ Forall2 (fun img l => resolve_label img = Ok l)
               ["/d/train/Gleason_5_a.png"; "/d/train/benign_0_b.png"]%string
               target_labels
    /\ Forall (fun l => 0 <= l <= 3) target_labels
    /\ length (zip ["/d/train/Gleason_5_a.png"; "/d/train/benign_0_b.png"]%string
                   target_labels) = 2%nat.
Proof.
  apply (build_tfrecords_labels (fun _ => Raise IOError)
           (fun _ => ["/d/train/Gleason_5_a.png"; "/d/train/benign_0_b.png"]%string)
           "/d" "/d/tfrecords" "train").
  repeat constructor.
Defined.

(** X4.  One file name without an underscore anywhere in the listing makes
    both loops stop on [IndexError]: [build_tfrecords] never reaches
    [create_tf_record], so no writer is opened and no sidecar is saved, and
    [calculate_class_ratios] prints and saves nothing. *)
Theorem bad_name_aborts_before_output (open_image : string -> result pil_array)
    (glob : string -> list string)
    (main_data_dir main_tfrecords_dir dataset img name : string) :
  let files := glob (OsPath.join main_data_dir dataset +:+ "/*.png") in
  In img files ->
  PyStr.last_item (PyStr.split "/" img) = Ok name ->
  PyStr.contains "_" name = false ->
  build_tfrecords open_image glob main_data_dir main_tfrecords_dir dataset
  = Raise IndexError
  /\ calculate_class_ratios files dataset = Raise IndexError.
Proof.
  intros files Hin Hn Hc.
  assert (Hbad : Exists (fun img => resolve_label img = Raise IndexError) files).
  { apply List.Exists_exists. exists img. split; [exact Hin|].
    unfold resolve_label, class_name_of. rewrite Hn. cbn [mbind result_bind].
    now rewrite (split_without_separator _ _ Hc). }
  split.
  - unfold build_tfrecords. fold files.
    now rewrite (for_each_labels_raises files [] Hbad).
  - unfold calculate_class_ratios.
    rewrite (tally_raises files); [reflexivity| | | | |exact Hbad];
      eexists; reflexivity.
Qed.

Lemma bad_name_aborts_before_output_witness :
  build_tfrecords (fun _ => Ok (Arr3 1 1 3 [1; 2; 3]))
    (fun _ => ["/d/train/Gleason_5_a.png"; "/d/train/notes.png";
               "/d/train/Gleason_3_b.png"]%string)
    "/d" "/d/tfrecords" "train"
  = Raise IndexError
  /\ calculate_class_ratios
       ["/d/train/Gleason_5_a.png"; "/d/train/notes.png";
        "/d/train/Gleason_3_b.png"]%string "train"
     = Raise IndexError.
Proof.
  apply (bad_name_aborts_before_output (fun _ => Ok (Arr3 1 1 3 [1; 2; 3]))
           (fun _ => ["/d/train/Gleason_5_a.png"; "/d/train/notes.png";
                      "/d/train/Gleason_3_b.png"]%string)
           "/d" "/d/tfrecords" "train" "/d/train/notes.png" "notes.png").
  - simpl. auto.
  - reflexivity.
  - reflexivity.
Defined.

(** ** os.path.join *)

Module OsPathJoin.
Import OsPath OsPathFacts.

(** [join] on a second component that does not start with a slash *)
Lemma join_relative a c b :
  Ascii.eqb c "/" = false ->
  join a (String c b)
  = if String.eqb a "" then String c b
    else if Ascii.eqb (match String.get (String.length a - 1) a with
                       | Some x => x | None => "/"%char end) "/"
         then a +:+ String c b
         else a +:+ "/" +:+ String c b.
Proof.
  intros H. unfold join.
  destruct c as [[] [] [] [] [] [] [] []]; try reflexivity; discriminate H.
Qed.

Lemma last_char a :
  a <> EmptyString ->
  exists d0 x, a = d0 +:+ String x "" /\ String.get (String.length a - 1) a = Some x.
Proof.
  induction a as [|y a IH]; [congruence|]. intros _.
  destruct a as [|z a'].
  - exists EmptyString, y. split; reflexivity.
  - destruct (IH ltac:(discriminate)) as (d0 & x & E & G).
    exists (String y d0), x. split; [now rewrite app_cons, <- E|].
    replace (String.length (String y (String z a')) - 1)%nat
      with (S (String.length (String z a') - 1)) by (simpl; lia).
    exact G.
Qed.

(** The directory part [join] puts before a relative name is empty or ends
    with a slash. *)
Lemma join_directory a b :
  b <> EmptyString -> PyStr.contains "/" b = false ->
  exists d, join a b = d +:+ b
    /\ (d = EmptyString \/ exists d0, d = d0 +:+ "/")
    /\ forall x, join a (b +:+ x) = d +:+ b +:+ x.
Proof.
  intros Hb Hs. destruct b as [|c b]; [congruence|].
  assert (Hc : Ascii.eqb c "/" = false).
  { simpl in Hs. now apply orb_false_iff in Hs as [Hc _]. }
  assert (Hx : forall x, join a (String c b +:+ x)
                         = if String.eqb a "" then String c (b +:+ x)
                           else if Ascii.eqb (match String.get (String.length a - 1) a with
                                              | Some x => x | None => "/"%char end) "/"
                                then a +:+ String c (b +:+ x)
                                else a +:+ "/" +:+ String c (b +:+ x)).
  { intros x. rewrite app_cons. now apply join_relative. }
  rewrite (join_relative a c b Hc).
  destruct (String.eqb_spec a "") as [->|Ha].
  - exists EmptyString. split; [reflexivity|]. split; [now left|].
    intros x. rewrite Hx. reflexivity.
  - destruct (last_char a Ha) as (d0 & y & E & G). rewrite G.
    destruct (Ascii.eqb_spec y "/") as [->|Hy].
    + exists a. split; [reflexivity|]. split; [right; now exists d0|].
      intros x. rewrite Hx, G. reflexivity.
    + exists (a +:+ "/"). split; [now rewrite app_assoc|].
      split; [right; now exists a|].
      intros x. rewrite Hx, G.
      destruct (Ascii.eqb_spec y "/"); [congruence|].
      now rewrite app_assoc.
Qed.

End OsPathJoin.

(** X5.  For a data set name that is a plain file name (not empty, no slash,
    not made of dots only), the container [build_tfrecords] writes is
    [<main_tfrecords_dir>/<dataset>.tfrecords] and the sidecar it saves is
    [<main_tfrecords_dir>/<dataset>_meta.npz], next to it: the extension
    [os.path.splitext] removes is the [.tfrecords] that was just appended,
    also when the data set name has dots of its own. *)
Theorem build_tfrecords_paths (open_image : string -> result pil_array)
    (glob : string -> list string)
    (main_data_dir main_tfrecords_dir dataset : string) (events : list event) :
  PyStr.contains "/" dataset = false -> OsPath.all_dots dataset = false ->
  build_tfrecords open_image glob main_data_dir main_tfrecords_dir dataset
  = Ok events ->
  let stem := OsPath.join main_tfrecords_dir dataset in
  OsPath.join main_tfrecords_dir (dataset +:+ ".tfrecords") = stem +:+ ".tfrecords"
  /\ tfrecord2metafilename (stem +:+ ".tfrecords") = stem +:+ "_meta.npz"
  /\ In (EvOpenWriter (stem +:+ ".tfrecords")) events
  /\ exists files labels,
       In (EvSavez (stem +:+ "_meta.npz") files labels (stem +:+ ".tfrecords")) events.
Proof.
  intros Hs Hd H stem.
  assert (Hne : dataset <> EmptyString) by (intros ->; discriminate Hd).
  destruct (OsPathJoin.join_directory main_tfrecords_dir dataset Hne Hs)
    as (d & Ej & Hdir & Ex).
  assert (E1 : OsPath.join main_tfrecords_dir (dataset +:+ ".tfrecords")
               = stem +:+ ".tfrecords").
  { unfold stem. rewrite Ex, Ej. now rewrite OsPathFacts.app_assoc. }
  assert (E2 : tfrecord2metafilename (stem +:+ ".tfrecords") = stem +:+ "_meta.npz").
  { unfold stem, tfrecord2metafilename. rewrite Ej, OsPathFacts.app_assoc.
    change ".tfrecords"%string with ("." +:+ "tfrecords").
    rewrite OsPathFacts.splitext_extension by (assumption || reflexivity).
    now rewrite OsPathFacts.app_assoc. }
  split; [exact E1|]. split; [exact E2|].
  unfold build_tfrecords in H.
  destruct (for_each _ _ _) as [labels|] eqn:Hl; [|discriminate].
  cbn [mbind result_bind] in H. injection H as <-.
  rewrite E1. unfold create_tf_record. split.
  - rewrite !in_app_iff. left. simpl. auto.
  - eexists _, labels. rewrite !in_app_iff. right. right. right. left.
    rewrite E2. f_equal. apply OsPathFacts.np_savez_file_meta.
Qed.

Lemma build_tfrecords_paths_witness :
  exists events,
    build_tfrecords (fun _ => Raise IOError)
      (fun _ => ["/d/train/Gleason_5_a.png"]%string) "/d" "/d/tfrecords" "train.v2"
    = Ok events
    /\ In (EvOpenWriter "/d/tfrecords/train.v2.tfrecords") events
    /\ exists files labels,
         In (EvSavez "/d/tfrecords/train.v2_meta.npz" files labels
                     "/d/tfrecords/train.v2.tfrecords") events.
Proof.
  eexists. split; [reflexivity|].
  refine (proj2 (proj2 (build_tfrecords_paths (fun _ => Raise IOError)
            (fun _ => ["/d/train/Gleason_5_a.png"]%string)
            "/d" "/d/tfrecords" "train.v2" _ _ _ _))); reflexivity.
Defined.

(** ** More on the class weights *)

Module WeightOrder.
Import Float FloatFacts FloatExact FloatOrder WeightBounds.

Lemma Qdiv_le_denominator (t a b : Q) :
  (0 <= t)%Q -> (0 < a)%Q -> (a <= b)%Q -> (t / b <= t / a)%Q.
Proof.
  intros Ht Ha Hab. apply Qle_shift_div_l; [exact Ha|].
  assert (E : (t / b * a == t * a / b)%Q) by (field; lra).
  rewrite E.
  apply Qle_shift_div_r; [lra|].
  rewrite (Qmult_comm t a), (Qmult_comm t b). apply Qmult_le_compat_r; assumption.
Qed.

Lemma Qdiv_le_numerator (a b s : Q) :
  (0 < s)%Q -> (a <= b)%Q -> (a / s <= b / s)%Q.
Proof.
  intros Hs Hab. unfold Qdiv. apply Qmult_le_compat_r; [exact Hab|].
  apply Qlt_le_weak, Qinv_lt_0_compat, Hs.
Qed.

Lemma inject_Z_pos z : 0 < z -> (0 < inject_Z z)%Q.
Proof. intros H. change 0%Q with (inject_Z 0). now rewrite <- Zlt_Qlt. Qed.

(** of two classes, the one with fewer files gets the larger weight *)
Lemma weight_order total ci cj S :
  0 < total -> 1 <= ci -> ci <= cj -> (0 < S)%Q ->
  (binary64 (binary64 (inject_Z total / inject_Z cj) / S)
   <= binary64 (binary64 (inject_Z total / inject_Z ci) / S))%Q.
Proof.
  intros Ht Hi Hij HS.
  pose proof (inject_Z_pos total Ht) as Pt.
  pose proof (inject_Z_pos ci ltac:(lia)) as Pi.
  pose proof (inject_Z_pos cj ltac:(lia)) as Pj.
  assert (Hq : (inject_Z total / inject_Z cj <= inject_Z total / inject_Z ci)%Q).
  { apply Qdiv_le_denominator; [lra|exact Pi|]. rewrite <- Zle_Qle. exact Hij. }
  assert (Pq : (0 < inject_Z total / inject_Z cj)%Q)
    by (apply inverse_frequency_pos; lia).
  pose proof (rnd_mono_pos 53 _ _ ltac:(lia) Pq Hq) as Hf.
  pose proof (rnd_pos 53 _ ltac:(lia) Pq) as Pf.
  apply rnd_mono_pos; [lia| |].
  - apply Qlt_shift_div_l; [exact HS|]. rewrite Qmult_0_l. exact Pf.
  - apply Qdiv_le_numerator; assumption.
Qed.

(** a class ratio is a float in (0, 1] *)
Lemma ratio_range total c :
  1 <= c -> c <= total ->
  (0 < binary64 (inject_Z c / inject_Z total)
   /\ binary64 (inject_Z c / inject_Z total) <= 1)%Q.
Proof.
  intros Hc Ht.
  pose proof (inject_Z_pos total ltac:(lia)) as Pt.
  pose proof (inject_Z_pos c ltac:(lia)) as Pc.
  assert (Pq : (0 < inject_Z c / inject_Z total)%Q).
  { apply Qlt_shift_div_l; [exact Pt|]. lra. }
  split; [apply rnd_pos; [lia|exact Pq]|].
  assert (E : binary64 1 = 1%Q) by (vm_compute; reflexivity).
  rewrite <- E.
  apply rnd_mono_pos; [lia|exact Pq|].
  apply Qle_shift_div_r; [exact Pt|].
  rewrite Qmult_1_l, <- Zle_Qle. exact Ht.
Qed.

Lemma ratios_sum_abstract (x0 x1 x2 x3 r0 r1 r2 r3 : Q) :
  ((1 - u) * x0 <= r0 /\ r0 <= (1 + u) * x0)%Q ->
  ((1 - u) * x1 <= r1 /\ r1 <= (1 + u) * x1)%Q ->
  ((1 - u) * x2 <= r2 /\ r2 <= (1 + u) * x2)%Q ->
  ((1 - u) * x3 <= r3 /\ r3 <= (1 + u) * x3)%Q ->
  (x0 + x1 + x2 + x3 == 1)%Q ->
  (Qabs (r0 + (r1 + (r2 + (r3 + 0))) - 1) <= u)%Q.
Proof.
  intros [l0 u0] [l1 u1] [l2 u2] [l3 u3] E.
  apply Qabs_Qle_condition. unfold u in *. split; lra.
Qed.

Lemma frequencies_sum c0 c1 c2 c3 :
  0 < c0 + c1 + c2 + c3 ->
  (inject_Z c0 / inject_Z (c0 + c1 + c2 + c3)
   + inject_Z c1 / inject_Z (c0 + c1 + c2 + c3)
   + inject_Z c2 / inject_Z (c0 + c1 + c2 + c3)
   + inject_Z c3 / inject_Z (c0 + c1 + c2 + c3) == 1)%Q.
Proof.
  intros H. pose proof (inject_Z_pos _ H) as P.
  rewrite !inject_Z_plus in *. field. lra.
Qed.

Lemma ratios_sum c0 c1 c2 c3 :
  1 <= c0 -> 1 <= c1 -> 1 <= c2 -> 1 <= c3 ->
  (Qabs (q_sum [binary64 (inject_Z c0 / inject_Z (c0 + c1 + c2 + c3));
                binary64 (inject_Z c1 / inject_Z (c0 + c1 + c2 + c3));
                binary64 (inject_Z c2 / inject_Z (c0 + c1 + c2 + c3));
                binary64 (inject_Z c3 / inject_Z (c0 + c1 + c2 + c3))] - 1)
   <= 1 # 9007199254740992)%Q.
Proof.
  intros H0 H1 H2 H3.
  assert (Ht : 0 < c0 + c1 + c2 + c3) by lia.
  pose proof (inject_Z_pos _ Ht) as Pt.
  assert (P : forall c, 1 <= c -> (0 < inject_Z c / inject_Z (c0 + c1 + c2 + c3))%Q).
  { intros c Hc. apply Qlt_shift_div_l; [exact Pt|].
    pose proof (inject_Z_pos c ltac:(lia)). lra. }
  unfold q_sum, fold_right.
  apply (ratios_sum_abstract _ _ _ _ _ _ _ _
           (binary64_bounds _ (P c0 H0)) (binary64_bounds _ (P c1 H1))
           (binary64_bounds _ (P c2 H2)) (binary64_bounds _ (P c3 H3))).
  now apply frequencies_sum.
Qed.

End WeightOrder.

(** The trace of a run on a listing with every class present. *)
Lemma class_ratios_trace files dataset :
  Forall (fun img => is_ok (resolve_label img) = true) files ->
  1 <= count_label 0 files -> 1 <= count_label 1 files ->
  1 <= count_label 2 files -> 1 <= count_label 3 files ->
  let total := count_label 0 files + count_label 1 files
               + count_label 2 files + count_label 3 files in
  let f k := Float.binary64 (inject_Z total / inject_Z (count_label k files)) in
  let S := Float.float_sum [f 0; f 1; f 2; f 3] in
  let r k := Float.binary64 (inject_Z (count_label k files) / inject_Z total) in
  (0 < S)%Q
  /\ calculate_class_ratios files dataset
     = Ok [EvPrint (MsgClassRatios [r 0; r 1; r 2; r 3]);
           EvPrint (MsgClassWeights
                      [Float.binary64 (f 0 / S); Float.binary64 (f 1 / S);
                       Float.binary64 (f 2 / S); Float.binary64 (f 3 / S)]);
           EvSave (dataset +:+ "_class_weights.npy")
                  [Float.binary64 (f 0 / S); Float.binary64 (f 1 / S);
                   Float.binary64 (f 2 / S); Float.binary64 (f 3 / S)]].
Proof.
  intros Hok C0 C1 C2 C3 total f S r.
  destruct (tally_from_zero files Hok) as (d & Hd & Hv).
  assert (Ht : 0 < total) by (unfold total; lia).
  assert (Pf : forall k, 1 <= count_label k files -> (0 < f k)%Q).
  { intros k Hk. apply WeightBounds.binary64_pos,
      WeightBounds.inverse_frequency_pos; lia. }
  pose proof (WeightBounds.float_sum_bounds (f 0) (f 1) (f 2) (f 3)
                (Pf 0 C0) (Pf 1 C1) (Pf 2 C2) (Pf 3 C3)) as [L U].
  destruct (WeightBounds.weights_close_for (f 0) (f 1) (f 2) (f 3) S
              (Pf 0 C0) (Pf 1 C1) (Pf 2 C2) (Pf 3 C3) L U)
    as (HS & _).
  split; [exact HS|].
  pose proof (class_weights_of_computes dataset d _ _ _ _ total
                (f 0) (f 1) (f 2) (f 3) S Hv C0 C1 C2 C3
                eq_refl eq_refl eq_refl eq_refl eq_refl eq_refl HS) as Hw.
  unfold calculate_class_ratios. rewrite (bind_ok _ _ _ Hd). exact Hw.
Qed.

(** X6.  With every class present, the first line printed holds the four
    class frequencies count_k/total as floats: each is greater than 0 and at
    most 1, and their exact sum is within 2^-53 of 1. *)
Theorem class_ratios_are_frequencies (files : list string) (dataset : string) :
  Forall (fun img => is_ok (resolve_label img) = true) files ->
  1 <= count_label 0 files -> 1 <= count_label 1 files ->
  1 <= count_label 2 files -> 1 <= count_label 3 files ->
  let total := count_label 0 files + count_label 1 files
               + count_label 2 files + count_label 3 files in
  exists ratios rest,
    calculate_class_ratios files dataset = Ok (EvPrint (MsgClassRatios ratios) :: rest)
    /\ ratios = map (fun k => Float.binary64
                                (inject_Z (count_label k files) / inject_Z total))
                    [0; 1; 2; 3]
    /\ Forall (fun r => (0 < r)%Q /\ (r <= 1)%Q) ratios
    /\ (Qabs (q_sum ratios - 1) <= 1 # 9007199254740992)%Q.
Proof.
  intros Hok C0 C1 C2 C3 total.
  destruct (class_ratios_trace files dataset Hok C0 C1 C2 C3) as [_ Htr].
  eexists _, _. split; [exact Htr|]. split; [reflexivity|]. split.
  - repeat constructor; apply WeightOrder.ratio_range; unfold total; lia.
  - apply WeightOrder.ratios_sum; assumption.
Qed.

Lemma class_ratios_are_frequencies_witness :
  exists ratios rest,
    calculate_class_ratios
      ["/d/train/Gleason_5_a.png"; "/d/train/gleason_4_b.png";
       "/d/train/Gleason_3_c.png"; "/d/train/benign_0_d.png";
       "/d/train/GLEASON_5_e.png"]%string "train"
    = Ok (EvPrint (MsgClassRatios ratios) :: rest)
    /\ Forall (fun r => (0 < r)%Q /\ (r <= 1)%Q) ratios
    /\ (Qabs (q_sum ratios - 1) <= 1 # 9007199254740992)%Q.
Proof.
  destruct (class_ratios_are_frequencies
              ["/d/train/Gleason_5_a.png"; "/d/train/gleason_4_b.png";
               "/d/train/Gleason_3_c.png"; "/d/train/benign_0_d.png";
               "/d/train/GLEASON_5_e.png"]%string "train")
    as (ratios & rest & H1 & _ & H3 & H4).
  - repeat constructor.
  - vm_compute. discriminate.
  - vm_compute. discriminate.
  - vm_compute. discriminate.
  - vm_compute. discriminate.
  - exists ratios, rest. auto.
Defined.

(** X7.  Inverse frequency weighting orders the classes: with every class
    present, a class that has no more files than another gets a weight at
    least as large. *)
Theorem rarer_class_weighs_more (files : list string) (dataset : string) (i j : Z) :
  Forall (fun img => is_ok (resolve_label img) = true) files ->
  1 <= count_label 0 files -> 1 <= count_label 1 files ->
  1 <= count_label 2 files -> 1 <= count_label 3 files ->
  In i [0; 1; 2; 3] -> In j [0; 1; 2; 3] ->
  count_label i files <= count_label j files ->
  exists ratios ws wi wj,
    calculate_class_ratios files dataset
    = Ok [EvPrint (MsgClassRatios ratios); EvPrint (MsgClassWeights ws);
          EvSave (dataset +:+ "_class_weights.npy") ws]
    /\ ws !! Z.to_nat i = Some wi /\ ws !! Z.to_nat j = Some wj
    /\ (wj <= wi)%Q.
Proof.
  intros Hok C0 C1 C2 C3 Hi Hj Hij.
  destruct (class_ratios_trace files dataset Hok C0 C1 C2 C3) as [HS Htr].
  set (total := count_label 0 files + count_label 1 files
                + count_label 2 files + count_label 3 files) in *.
  set (S := Float.float_sum _) in *.
  set (w := fun k => Float.binary64
                       (Float.binary64 (inject_Z total / inject_Z (count_label k files))
                        / S)).
  assert (Ht : 0 < total) by (unfold total; lia).
  assert (Ci : 1 <= count_label i files).
  { simpl in Hi. destruct Hi as [<-|[<-|[<-|[<-|[]]]]]; assumption. }
  exists [Float.binary64 (inject_Z (count_label 0 files) / inject_Z total);
          Float.binary64 (inject_Z (count_label 1 files) / inject_Z total);
          Float.binary64 (inject_Z (count_label 2 files) / inject_Z total);
          Float.binary64 (inject_Z (count_label 3 files) / inject_Z total)],
         [w 0; w 1; w 2; w 3], (w i), (w j).
  split; [exact Htr|]. split; [|split].
  - clear -Hi. simpl in Hi. destruct Hi as [<-|[<-|[<-|[<-|[]]]]]; reflexivity.
  - clear -Hj. simpl in Hj. destruct Hj as [<-|[<-|[<-|[<-|[]]]]]; reflexivity.
  - apply (WeightOrder.weight_order _ _ _ _ Ht Ci Hij HS).
Qed.

Lemma rarer_class_weighs_more_witness :
  exists ratios ws wi wj,
    calculate_class_ratios
      ["/d/train/Gleason_5_a.png"; "/d/train/gleason_4_b.png";
       "/d/train/Gleason_3_c.png"; "/d/train/benign_0_d.png";
       "/d/train/GLEASON_5_e.png"]%string "train"
    = Ok [EvPrint (MsgClassRatios ratios); EvPrint (MsgClassWeights ws);
          EvSave "train_class_weights.npy" ws]
    /\ ws !! 1%nat = Some wi /\ ws !! 3%nat = Some wj /\ (wj <= wi)%Q.
Proof.
  apply (rarer_class_weighs_more
           ["/d/train/Gleason_5_a.png"; "/d/train/gleason_4_b.png";
            "/d/train/Gleason_3_c.png"; "/d/train/benign_0_d.png";
            "/d/train/GLEASON_5_e.png"]%string "train" 1 3).
  - repeat constructor.
  - vm_compute. discriminate.
  - vm_compute. discriminate.
  - vm_compute. discriminate.
  - vm_compute. discriminate.
  - simpl. auto.
  - simpl. auto.
  - vm_compute. discriminate.
Defined.

Module Balanced.
Import Float FloatOrder WeightOrder.

Lemma four_over_one c : 1 <= c ->
  binary64 (inject_Z (c + c + c + c) / inject_Z c) = 4%Q.
Proof.
  intros Hc. pose proof (inject_Z_pos c ltac:(lia)) as P.
  transitivity (binary64 4); [|vm_compute; reflexivity].
  apply rnd_comp. rewrite !inject_Z_plus. field. lra.
Qed.

Lemma one_over_four c : 1 <= c ->
  binary64 (inject_Z c / inject_Z (c + c + c + c)) = (1 # 4)%Q.
Proof.
  intros Hc. pose proof (inject_Z_pos c ltac:(lia)) as P.
  transitivity (binary64 (1 # 4)); [|vm_compute; reflexivity].
  apply rnd_comp. rewrite !inject_Z_plus. field. lra.
Qed.

Lemma quarter_weight : binary64 (4 / float_sum [4; 4; 4; 4]%Q) = (1 # 4)%Q.
Proof. vm_compute. reflexivity. Qed.

End Balanced.

(** X8.  On a balanced listing, with the same number c >= 1 of files in each
    of the four classes, the four ratios and the four weights are all exactly
    0.25, whatever c is: no rounding error is left in this case. *)
Theorem balanced_classes_weigh_a_quarter (files : list string) (dataset : string)
    (c : Z) :
  Forall (fun img => is_ok (resolve_label img) = true) files ->
  1 <= c ->
  count_label 0 files = c -> count_label 1 files = c ->
  count_label 2 files = c -> count_label 3 files = c ->
  calculate_class_ratios files dataset
  = Ok [EvPrint (MsgClassRatios [1 # 4; 1 # 4; 1 # 4; 1 # 4]%Q);
        EvPrint (MsgClassWeights [1 # 4; 1 # 4; 1 # 4; 1 # 4]%Q);
        EvSave (dataset +:+ "_class_weights.npy") [1 # 4; 1 # 4; 1 # 4; 1 # 4]%Q].
Proof.
  intros Hok Hc E0 E1 E2 E3.
  destruct (class_ratios_trace files dataset Hok) as [_ Htr]; try lia.
  rewrite Htr, E0, E1, E2, E3.
  rewrite (Balanced.four_over_one c Hc), (Balanced.one_over_four c Hc).
  rewrite Balanced.quarter_weight. reflexivity.
Qed.

Lemma balanced_classes_weigh_a_quarter_witness :
  calculate_class_ratios
    ["/d/train/Gleason_5_a.png"; "/d/train/gleason_4_b.png";
     "/d/train/Gleason_3_c.png"; "/d/train/benign_0_d.png";
     "/d/train/GLEASON_5_e.png"; "/d/train/gleason_4_f.png";
     "/d/train/Gleason_3_g.png"; "/d/train/stroma_x_h.png"]%string "val"
  = Ok [EvPrint (MsgClassRatios [1 # 4; 1 # 4; 1 # 4; 1 # 4]%Q);
        EvPrint (MsgClassWeights [1 # 4; 1 # 4; 1 # 4; 1 # 4]%Q);
        EvSave "val_class_weights.npy" [1 # 4; 1 # 4; 1 # 4; 1 # 4]%Q].
Proof.
  apply (balanced_classes_weigh_a_quarter _ "val" 2).
  - repeat constructor.
  - lia.
  - reflexivity.
  - reflexivity.
  - reflexivity.
  - reflexivity.
Defined.

(** ** More on the sidecar path *)

Module SplitextFacts.
Import OsPath OsPathFacts.

(** Where the last occurrence of a character lies. *)
Lemma rfind_from_last c s : forall i found,
  PyStr.contains c s = true ->
  exists a b, s = a +:+ String c b /\ PyStr.contains c b = false
              /\ rfind_from c s i found = i + Z.of_nat (String.length a).
Proof.
  induction s as [|x s IH]; intros i found H; [discriminate|].
  simpl in H. destruct (PyStr.contains c s) eqn:Hs.
  - destruct (IH (i + 1) (if Ascii.eqb x c then i else found) eq_refl)
      as (a & b & -> & Hb & E).
    exists (String x a), b. rewrite app_cons. split; [reflexivity|]. split; [exact Hb|].
    cbn [rfind_from]. rewrite E. simpl String.length. lia.
  - rewrite orb_false_r in H. apply Ascii.eqb_eq in H. subst x.
    exists EmptyString, s. split; [reflexivity|]. split; [exact Hs|].
    cbn [rfind_from]. rewrite Ascii.eqb_refl, (rfind_from_absent _ _ _ _ Hs).
    simpl. lia.
Qed.

Lemma rfind_absent_or_last c s :
  (PyStr.contains c s = false /\ rfind c s = -1)
  \/ exists a b, s = a +:+ String c b /\ PyStr.contains c b = false
                 /\ rfind c s = Z.of_nat (String.length a).
Proof.
  unfold rfind. destruct (PyStr.contains c s) eqn:H.
  - right. destruct (rfind_from_last c s 0 (-1) H) as (a & b & E & Hb & R).
    exists a, b. now rewrite R.
  - left. split; [reflexivity|]. now apply rfind_from_absent.
Qed.

Lemma skip_leading_dots_cases fuel p : forall i dotIndex,
  skip_leading_dots fuel p i dotIndex = (p, EmptyString)
  \/ skip_leading_dots fuel p i dotIndex = (prefix p dotIndex, suffix p dotIndex).
Proof.
  induction fuel as [|fuel IH]; intros i dotIndex; simpl; [now left|].
  destruct (i <? dotIndex); [|now left].
  destruct (char_at p i) as [c|]; [|now left].
  destruct (negb (Ascii.eqb c ".")); [now right|apply IH].
Qed.

(** The extension [splitext] returns is empty, or a dot followed by
    characters that are neither dots nor slashes. *)
Lemma splitext_extension_shape p :
  snd (splitext p) = EmptyString
  \/ exists e, snd (splitext p) = String "." e
               /\ PyStr.contains "." e = false /\ PyStr.contains "/" e = false.
Proof.
  unfold splitext.
  destruct (Z.gtb_spec (rfind "." p) (rfind "/" p)) as [Hgt|]; [|now left].
  destruct (skip_leading_dots_cases (String.length p) p (rfind "/" p + 1) (rfind "." p))
    as [->| ->]; [now left|].
  right.
  destruct (rfind_absent_or_last "." p) as [[_ Hd]|(a & e & Hp & He & Hd)].
  { pose proof (rfind_from_bounds "/" p 0 (-1) ltac:(lia)). unfold rfind in *. lia. }
  exists e. cbn [snd]. rewrite Hd. rewrite Hp at 1. rewrite suffix_app.
  split; [reflexivity|]. split; [exact He|].
  destruct (PyStr.contains "/" e) eqn:Hs; [|reflexivity]. exfalso.
  destruct (rfind_from_last "/" e (Z.of_nat (String.length a) + 1)
              (rfind_from "/" a 0 (-1)) Hs) as (a' & b' & _ & _ & R).
  assert (Hsep : rfind "/" p
                 = Z.of_nat (String.length a) + 1 + Z.of_nat (String.length a')).
  { unfold rfind. rewrite Hp, rfind_from_app, Z.add_0_l.
    cbn [rfind_from]. change (Ascii.eqb "." "/") with false. cbv iota. exact R. }
  lia.
Qed.

Lemma append_inv_head a b c : a +:+ b = a +:+ c -> b = c.
Proof.
  induction a as [|x a IH]; [easy|]. rewrite !app_cons. intros [= H]. auto.
Qed.

Lemma all_dots_no_slash s : all_dots s = true -> PyStr.contains "/" s = false.
Proof.
  induction s as [|x s IH]; [reflexivity|]. simpl.
  intros H. apply andb_true_iff in H as [Hx Hs].
  apply Ascii.eqb_eq in Hx. subst x. now rewrite IH.
Qed.

(** Over a run of dots the scan finds nothing and gives up. *)
Lemma skip_leading_dots_fails dots : forall pre rest fuel dotIndex,
  all_dots dots = true ->
  dotIndex <= Z.of_nat (String.length pre + String.length dots) ->
  skip_leading_dots fuel (pre +:+ dots +:+ rest) (Z.of_nat (String.length pre)) dotIndex
  = (pre +:+ dots +:+ rest, EmptyString).
Proof.
  induction dots as [|x dots IH]; intros pre rest fuel dotIndex Hdots Hd;
    (destruct fuel as [|fuel]; [reflexivity|]).
  - cbn [skip_leading_dots]. simpl String.length in Hd.
    destruct (Z.ltb_spec (Z.of_nat (String.length pre)) dotIndex); [lia|reflexivity].
  - simpl in Hdots. apply andb_true_iff in Hdots as [Hx Hdots].
    apply Ascii.eqb_eq in Hx. subst x.
    cbn [skip_leading_dots].
    destruct (Z.ltb_spec (Z.of_nat (String.length pre)) dotIndex); [|reflexivity].
    unfold char_at. rewrite Nat2Z.id, app_cons, get_app_here.
    cbn [negb Ascii.eqb]. change (negb (Ascii.eqb "." ".")) with false. cbv iota.
    assert (E : pre +:+ String "." (dots +:+ rest) = (pre +:+ ".") +:+ dots +:+ rest).
    { now rewrite app_assoc. }
    rewrite E.
    replace (Z.of_nat (String.length pre) + 1)
      with (Z.of_nat (String.length (pre +:+ "."))).
    2:{ rewrite length_app. simpl. lia. }
    apply IH; [exact Hdots|].
    rewrite length_app. simpl String.length in *. lia.
Qed.

(** A name without a dot after its leading dots has no extension. *)
Lemma splitext_no_extension d dots rest :
  d = EmptyString \/ (exists d0, d = d0 +:+ "/") ->
  all_dots dots = true ->
  PyStr.contains "." rest = false -> PyStr.contains "/" rest = false ->
  splitext (d +:+ dots +:+ rest) = (d +:+ dots +:+ rest, EmptyString).
Proof.
  intros Hd Hdots Hr Hs.
  set (p := d +:+ dots +:+ rest).
  assert (Hsep : rfind "/" p = Z.of_nat (String.length d) - 1).
  { unfold rfind, p. rewrite rfind_from_app, Z.add_0_l.
    rewrite rfind_from_absent.
    2:{ rewrite contains_app, Hs, (all_dots_no_slash _ Hdots). reflexivity. }
    destruct Hd as [->|[d0 ->]]; [reflexivity|].
    rewrite rfind_from_app, length_app. simpl. lia. }
  assert (Hdot : rfind "." p < Z.of_nat (String.length d + String.length dots)).
  { unfold rfind, p. rewrite <- app_assoc, rfind_from_app, Z.add_0_l.
    rewrite (rfind_from_absent _ rest) by exact Hr.
    pose proof (rfind_from_bounds "." (d +:+ dots) 0 (-1) ltac:(lia)) as B.
    rewrite length_app in B. lia. }
  unfold splitext. fold p. destruct (rfind "." p >? rfind "/" p); [|reflexivity].
  rewrite Hsep.
  replace (Z.of_nat (String.length d) - 1 + 1) with (Z.of_nat (String.length d)) by lia.
  unfold p in *. apply skip_leading_dots_fails; [exact Hdots|lia].
Qed.

End SplitextFacts.

(** X9.  The sidecar can never be the container.  The extension
    [os.path.splitext] cuts off is empty or a dot followed by characters that
    are neither dots nor slashes, so the sidecar path
    [base + '_meta.npz'] differs from the container path [base + ext] for
    every path; it already ends in [.npz], so [np.savez] writes to exactly
    that path; and the one [np.savez] of [create_tf_record] never writes to
    the container. *)
Theorem sidecar_never_the_container (f : string) :
  (exists base ext,
     OsPath.splitext f = (base, ext)
     /\ (ext = EmptyString
         \/ exists e, ext = String "." e /\ PyStr.contains "." e = false
                      /\ PyStr.contains "/" e = false))
  /\ tfrecord2metafilename f <> f
  /\ np_savez_file (tfrecord2metafilename f) = tfrecord2metafilename f
  /\ (forall open_image file_pointers target_labels file fps labels out,
        In (EvSavez file fps labels out)
           (create_tf_record open_image f file_pointers target_labels) ->
        file = tfrecord2metafilename f /\ file <> f).
Proof.
  pose proof (SplitextFacts.splitext_extension_shape f) as Hshape.
  pose proof (OsPathFacts.splitext_splits f) as Hsplit.
  assert (Hne : tfrecord2metafilename f <> f).
  { unfold tfrecord2metafilename.
    destruct (OsPath.splitext f) as [base ext]. cbn [fst snd] in *.
    intros E. rewrite <- Hsplit in E.
    apply SplitextFacts.append_inv_head in E.
    destruct Hshape as [->|(e & -> & _)]; discriminate E. }
  assert (Hnpz : np_savez_file (tfrecord2metafilename f) = tfrecord2metafilename f).
  { unfold tfrecord2metafilename. destruct (OsPath.splitext f) as [base ext].
    apply OsPathFacts.np_savez_file_meta. }
  split; [|split; [exact Hne|split; [exact Hnpz|]]].
  - destruct (OsPath.splitext f) as [base ext]. exists base, ext. split; [reflexivity|].
    exact Hshape.
  - intros open_image fps0 labels0 file fps labels out Hin.
    unfold create_tf_record in Hin. rewrite !in_app_iff in Hin.
    assert (E : file = tfrecord2metafilename f).
    { destruct Hin as [Hin|[Hin|[Hin|Hin]]].
      - simpl in Hin. destruct Hin as [|[|[]]]; discriminate.
      - simpl in Hin. destruct Hin as [|[|[]]]; discriminate.
      - exfalso. induction (map _ _) as [|[ex|e] futures IH]; simpl in Hin;
          [destruct Hin|destruct Hin as [|]; [discriminate|auto]..].
      - simpl in Hin. destruct Hin as [Hin|[|[|[|[]]]]]; try discriminate.
        injection Hin as <- _ _ _. exact Hnpz. }
    split; [exact E|]. rewrite E. exact Hne.
Qed.

(** X10.  A container name without extension keeps all of its name: when the
    file name has no dot other than leading ones (as in [train], [.cache] or
    a name inside a dotted directory such as [/runs.v2/train]), nothing is cut
    off and the sidecar is the whole path plus [_meta.npz]. *)
Theorem sidecar_path_without_extension (d dots rest : string) :
  d = EmptyString \/ (exists d0, d = d0 +:+ "/") ->
  OsPath.all_dots dots = true ->
  PyStr.contains "." rest = false -> PyStr.contains "/" rest = false ->
  OsPath.splitext (d +:+ dots +:+ rest) = (d +:+ dots +:+ rest, EmptyString)
  /\ tfrecord2metafilename (d +:+ dots +:+ rest) = (d +:+ dots +:+ rest) +:+ "_meta.npz".
Proof.
  intros Hd Hdots Hr Hs.
  pose proof (SplitextFacts.splitext_no_extension d dots rest Hd Hdots Hr Hs) as E.
  split; [exact E|]. unfold tfrecord2metafilename. now rewrite E.
Qed.

Lemma sidecar_path_without_extension_witness :
  (OsPath.splitext "/runs.v2/.cache" = ("/runs.v2/.cache", "")%string
   /\ tfrecord2metafilename "/runs.v2/.cache" = "/runs.v2/.cache_meta.npz")
  /\ tfrecord2metafilename "/runs.v2/train" = "/runs.v2/train_meta.npz".
Proof.
  split.
  - apply (sidecar_path_without_extension "/runs.v2/" "." "cache");
      [right; exists "/runs.v2"; reflexivity|reflexivity..].
  - reflexivity.
Defined.

(** ** More on the record codec *)

Lemma int64_feature_raises v :
  ~ (- 2 ^ 63 <= v < 2 ^ 63) -> _int64_feature v = Raise ValueError.
Proof.
  intros H. unfold _int64_feature.
  destruct (Z.leb_spec (- 2 ^ 63) v); [|reflexivity].
  destruct (Z.ltb_spec v (2 ^ 63)); [lia|reflexivity].
Qed.

(** X11.  When [encode] returns and what it raises otherwise.  It returns a
    record exactly when the file loads as an array with three axes, the path
    is an ASCII string and the label fits a signed 64-bit integer.  Otherwise
    the first failing step decides: an unreadable file raises the loader's
    exception, a single-band image (two axes) raises [IndexError] on
    [img[:,:,:3]], then a non-ASCII path raises [UnicodeDecodeError], then a
    label out of range raises [ValueError]. *)
Theorem encode_errors (open_image : string -> result pil_array)
    (img_path : string) (target_label : Z) :
  (is_ok (encode open_image img_path target_label) = true
   <-> (exists h w c px, open_image img_path = Ok (Arr3 h w c px))
       /\ PyStr.is_ascii img_path = true
       /\ - 2 ^ 63 <= target_label < 2 ^ 63)
  /\ (forall e, open_image img_path = Raise e ->
        encode open_image img_path target_label = Raise e)
  /\ (forall h w px, open_image img_path = Ok (Arr2 h w px) ->
        encode open_image img_path target_label = Raise IndexError)
  /\ (forall h w c px, open_image img_path = Ok (Arr3 h w c px) ->
        PyStr.is_ascii img_path = false ->
        encode open_image img_path target_label = Raise UnicodeDecodeError)
  /\ (forall h w c px, open_image img_path = Ok (Arr3 h w c px) ->
        PyStr.is_ascii img_path = true ->
        ~ (- 2 ^ 63 <= target_label < 2 ^ 63) ->
        encode open_image img_path target_label = Raise ValueError).
Proof.
  split; [split|split; [|split; [|split]]].
  - intros H. destruct (encode open_image img_path target_label) as [r|] eqn:E;
      [|discriminate].
    destruct (encode_ok_inv _ _ _ _ E) as (a & img & Ha & Hi & Hp & Hl & _).
    split; [|split; assumption].
    destruct a as [h w px|h w c px]; [discriminate Hi|]. eauto.
  - intros [(h & w & c & px & Ha) [Hp Hl]].
    eapply encode_ok; eauto; reflexivity.
  - intros e Ha. unfold encode. now rewrite Ha.
  - intros h w px Ha. unfold encode. now rewrite Ha.
  - intros h w c px Ha Hp. unfold encode. rewrite Ha. cbn [mbind result_bind].
    cbn [first_three_channels mbind result_bind].
    unfold PyStr.encode_utf8. now rewrite Hp.
  - intros h w c px Ha Hp Hl. unfold encode. rewrite Ha. cbn [mbind result_bind].
    cbn [first_three_channels mbind result_bind].
    unfold PyStr.encode_utf8. rewrite Hp. cbn [mbind result_bind].
    now rewrite (int64_feature_raises _ Hl).
Qed.

Lemma encode_errors_witness :
  encode (fun _ => Ok (Arr2 1 2 [7; 9])) (String "233" "t_1.png") (2 ^ 64)
  = Raise IndexError
  /\ encode (fun _ => Ok (Arr3 1 1 3 [7; 8; 9])) (String "233" "t_1.png") (2 ^ 64)
     = Raise UnicodeDecodeError
  /\ encode (fun _ => Ok (Arr3 1 1 3 [7; 8; 9])) "Gleason_3_1.png" (2 ^ 64)
     = Raise ValueError
  /\ is_ok (encode (fun _ => Ok (Arr3 1 1 3 [7; 8; 9])) "Gleason_3_1.png" 1) = true.
Proof.
  split; [|split; [|split]].
  - apply (proj1 (proj2 (proj2 (encode_errors (fun _ => Ok (Arr2 1 2 [7; 9]))
                                  (String "233" "t_1.png") (2 ^ 64)))) 1%nat 2%nat [7; 9]).
    reflexivity.
  - apply (proj1 (proj2 (proj2 (proj2 (encode_errors
             (fun _ => Ok (Arr3 1 1 3 [7; 8; 9])) (String "233" "t_1.png") (2 ^ 64)))))
             1%nat 1%nat 3%nat [7; 8; 9]); reflexivity.
  - apply (proj2 (proj2 (proj2 (proj2 (encode_errors
             (fun _ => Ok (Arr3 1 1 3 [7; 8; 9])) "Gleason_3_1.png" (2 ^ 64)))))
             1%nat 1%nat 3%nat [7; 8; 9]); [reflexivity|reflexivity|lia].
  - apply (proj1 (encode_errors (fun _ => Ok (Arr3 1 1 3 [7; 8; 9]))
                    "Gleason_3_1.png" 1)).
    split; [now exists 1%nat, 1%nat, 3%nat, [7; 8; 9]|]. split; [reflexivity|lia].
Defined.

(** X12.  What the decoder needs from a record.  [decode_example] returns
    exactly when the record has the three features, each with a single
    value, and the number of stored bytes is the product of [img_dims]; the
    image is then the stored bytes in the declared shape, the label the
    stored one cast to 32 bits, the path the stored one.  The record carries
    no shape of its own: any [img_dims] with the right product is accepted.
    Every failure is an [InvalidArgumentError]. *)
Theorem decode_example_ok_iff (img_dims : list nat) (ex : Example) :
  (forall image label path,
     decode_example img_dims ex = Ok (image, label, path)
     <-> exists raw stored,
           features ex !! "image_raw"%string = Some (BytesList [raw])
           /\ features ex !! "file_path"%string = Some (BytesList [path])
           /\ features ex !! "target_label"%string = Some (Int64List [stored])
           /\ numel img_dims = String.length raw
           /\ image = Tensor img_dims
                        (map (fun c => inject_Z (Z.of_N (N_of_ascii c)))
                             (list_ascii_of_string raw))
           /\ label = cast_int32 stored)
  /\ (forall e, decode_example img_dims ex = Raise e -> e = InvalidArgumentError).
Proof.
  assert (Hlen : forall raw, length (data (decode_raw_uint8 raw)) = String.length raw).
  { intros raw. unfold decode_raw_uint8. cbn [data].
    now rewrite length_map, <- string_length_of_list, string_of_list_ascii_of_string. }
  split.
  - intros image label path. split.
    + intros H. pose proof H as H'. unfold decode_example in H.
      unfold fixed_len_string, fixed_len_int64 in H.
      destruct (features ex !! "image_raw"%string) as [[[|raw []]| |]|] eqn:E1;
        try discriminate H.
      cbn [mbind result_bind] in H.
      destruct (features ex !! "file_path"%string) as [[[|fp []]| |]|] eqn:E2;
        try discriminate H.
      cbn [mbind result_bind] in H.
      destruct (features ex !! "target_label"%string) as [[|[|tl []]|]|] eqn:E3;
        try discriminate H.
      cbn [mbind result_bind] in H.
      unfold reshape in H. destruct (decide _) as [Hn|]; [|discriminate].
      cbn [mbind result_bind] in H. injection H as <- <- <-.
      exists raw, tl. rewrite Hlen in Hn. repeat split; try assumption.
      rewrite astype_float32_bytes by apply decode_raw_uint8_bytes.
      unfold decode_raw_uint8. cbn [data]. now rewrite map_map.
    + intros (raw & stored & E1 & E2 & E3 & Hn & -> & ->).
      unfold decode_example, fixed_len_string, fixed_len_int64.
      rewrite E1, E2, E3. cbn [mbind result_bind].
      unfold reshape. destruct (decide _) as [_|Hne].
      2:{ exfalso. apply Hne. now rewrite Hlen. }
      cbn [mbind result_bind].
      rewrite astype_float32_bytes by apply decode_raw_uint8_bytes.
      unfold decode_raw_uint8. cbn [data]. now rewrite map_map.
  - intros e H. unfold decode_example, fixed_len_string, fixed_len_int64 in H.
    destruct (features ex !! "image_raw"%string) as [[[|raw []]| |]|];
      try (injection H as <-; reflexivity).
    cbn [mbind result_bind] in H.
    destruct (features ex !! "file_path"%string) as [[[|fp []]| |]|];
      try (injection H as <-; reflexivity).
    cbn [mbind result_bind] in H.
    destruct (features ex !! "target_label"%string) as [[|[|tl []]|]|];
      try (injection H as <-; reflexivity).
    cbn [mbind result_bind] in H.
    unfold reshape in H. destruct (decide _); [discriminate|].
    injection H as <-. reflexivity.
Qed.

Lemma decode_example_ok_iff_witness :
  decode_example [3; 2; 1]%nat
    {| features := {[ "image_raw" := BytesList ["abcdef"%string];
                      "file_path" := BytesList ["Gleason_4_2.png"%string];
                      "target_label" := Int64List [2] ]} |}
  = Ok (Tensor [3; 2; 1]%nat [97; 98; 99; 100; 101; 102]%Q, 2, "Gleason_4_2.png"%string)
  /\ decode_example [1; 2; 3]%nat
       {| features := {[ "image_raw" := BytesList ["abcdef"%string];
                         "target_label" := Int64List [2] ]} |}
     = Raise InvalidArgumentError.
Proof.
  split.
  - apply (proj1 (decode_example_ok_iff [3; 2; 1]%nat _)).
    exists "abcdef"%string, 2. repeat split.
  - destruct (decode_example [1; 2; 3]%nat _) as [r|e] eqn:E; [discriminate E|].
    f_equal. exact (proj2 (decode_example_ok_iff _ _) e E).
Defined.

(** X13.  The label that comes out of the decoder is always a signed 32-bit
    integer congruent to the stored 64-bit one modulo 2^32; it is the stored
    label exactly when that one fits 32 bits. *)
Theorem decoded_label_wraps (img_dims : list nat) (ex : Example)
    (image : tensor Q) (label : Z) (path : string) :
  decode_example img_dims ex = Ok (image, label, path) ->
  exists stored,
    fixed_len_int64 ex "target_label" = Ok stored
    /\ - 2 ^ 31 <= label < 2 ^ 31
    /\ (label - stored) mod 2 ^ 32 = 0
    /\ (label = stored <-> - 2 ^ 31 <= stored < 2 ^ 31).
Proof.
  intros H. unfold decode_example in H.
  destruct (fixed_len_string ex "image_raw") as [raw|]; [|discriminate].
  cbn [mbind result_bind] in H.
  destruct (fixed_len_string ex "file_path") as [fp|]; [|discriminate].
  cbn [mbind result_bind] in H.
  destruct (fixed_len_int64 ex "target_label") as [stored|]; [|discriminate].
  cbn [mbind result_bind] in H.
  destruct (reshape _ _); [|discriminate]. cbn [mbind result_bind] in H.
  injection H as _ <- _. exists stored. split; [reflexivity|].
  unfold cast_int32.
  pose proof (Z.mod_pos_bound (stored + 2 ^ 31) (2 ^ 32) ltac:(lia)) as B.
  pose proof (Z.div_mod (stored + 2 ^ 31) (2 ^ 32) ltac:(lia)) as D.
  split; [lia|]. split.
  - replace ((stored + 2 ^ 31) mod 2 ^ 32 - 2 ^ 31 - stored)
      with (- ((stored + 2 ^ 31) / 2 ^ 32) * 2 ^ 32) by lia.
    apply Z.mod_mul. lia.
  - split; [lia|]. intros R. rewrite Z.mod_small; lia.
Qed.

Lemma decoded_label_wraps_witness :
  exists stored,
    fixed_len_int64
      {| features := {[ "image_raw" := BytesList ["abc"%string];
                        "file_path" := BytesList ["Gleason_4_2.png"%string];
                        "target_label" := Int64List [4294967298] ]} |}
      "target_label" = Ok stored
    /\ - 2 ^ 31 <= 2 < 2 ^ 31
    /\ (2 - stored) mod 2 ^ 32 = 0
    /\ (2 = stored <-> - 2 ^ 31 <= stored < 2 ^ 31).
Proof.
  apply (decoded_label_wraps [1; 1; 3]%nat _
           (Tensor [1; 1; 3]%nat [97; 98; 99]%Q) 2 "Gleason_4_2.png").
  vm_compute. reflexivity.
Defined.

(** ** More on the decode and augment pipeline *)

Ltac ok_step H x E :=
  match type of H with
  | mbind _ ?m = Ok _ =>
      destruct m as [x|] eqn:E; [|discriminate H]; cbn [mbind result_bind] in H
  end.

(** What [read_and_decode] did, when it returns a batch. *)
Lemma read_and_decode_ok_inv tf dequeued noise img_dims model_dims size_of_batch
    augmentations_dic shuffle out labels paths :
  read_and_decode tf dequeued noise img_dims model_dims size_of_batch
                  augmentations_dic shuffle = Ok (out, labels, paths) ->
  exists (rand_crop flip_lr flip_ud rand_rotate warp grayscale : bool)
         crop_op examples stacked warped,
    augmentations_dic !! "rand_crop"%string = Some rand_crop
    /\ augmentations_dic !! "rand_flip_left_right"%string = Some flip_lr
    /\ augmentations_dic !! "rand_flip_top_bottom"%string = Some flip_ud
    /\ augmentations_dic !! "rand_rotate"%string = Some rand_rotate
    /\ augmentations_dic !! "warp"%string = Some warp
    /\ augmentations_dic !! "grayscale"%string = Some grayscale
    /\ (if rand_crop then
          crop_op = (fun (d : example_draws) (image : tensor Q) =>
                       random_crop image model_dims (crop_draw d))
        else exists h w, PyStr.index model_dims 0 = Ok h
                         /\ PyStr.index model_dims 1 = Ok w
                         /\ crop_op = (fun (_ : example_draws) (image : tensor Q) =>
                                         resize_image_with_crop_or_pad image h w))
    /\ comprehension (per_example tf img_dims crop_op flip_lr flip_ud rand_rotate)
                     dequeued = Ok examples
    /\ batch_ok shuffle size_of_batch (length examples) = true
    /\ stack_batch (map (fun e => fst (fst e)) examples) = Ok stacked
    /\ (if warp then warp_batch tf noise model_dims size_of_batch stacked = Ok warped
        else warped = stacked)
    /\ out = (if grayscale then tf_rgb_to_grayscale tf warped else warped)
    /\ labels = map (fun e => snd (fst e)) examples
    /\ paths = map (fun e => snd e) examples.
Proof.
  intros H. unfold read_and_decode in H.
  ok_step H rand_crop T1. ok_step H crop_op Hcrop.
  ok_step H flip_lr T2. ok_step H flip_ud T3. ok_step H rand_rotate T4.
  ok_step H warp T5. ok_step H warp_op Hwarp. ok_step H grayscale T6.
  ok_step H examples Hex.
  destruct (batch_ok shuffle size_of_batch (length examples)) eqn:Hb; [|discriminate].
  ok_step H stacked Hst. ok_step H warped Hw.
  injection H as <- <- <-.
  assert (Tg : forall key b, toggle augmentations_dic key = Ok b ->
                             augmentations_dic !! key = Some b).
  { intros key b. unfold toggle. destruct (augmentations_dic !! key); congruence. }
  exists rand_crop, flip_lr, flip_ud, rand_rotate, warp, grayscale,
         crop_op, examples, stacked, warped.
  repeat (split; [now apply Tg|]).
  split.
  { destruct rand_crop; [now injection Hcrop as <-|].
    destruct (PyStr.index model_dims 0) as [h|]; [|discriminate].
    destruct (PyStr.index model_dims 1) as [w|]; [|discriminate].
    cbn [mbind result_bind] in Hcrop. injection Hcrop as <-. now exists h, w. }
  split; [exact Hex|]. split; [exact Hb|]. split; [exact Hst|].
  split; [|auto].
  destruct warp.
  - destruct (PyStr.index model_dims 0); [|discriminate].
    destruct (PyStr.index model_dims 1); [|discriminate].
    destruct (PyStr.index model_dims 2); [|discriminate].
    cbn [mbind result_bind] in Hwarp. injection Hwarp as <-. exact Hw.
  - injection Hwarp as <-. now injection Hw as <-.
Qed.

(** What one example went through. *)
Lemma per_example_ok_inv tf img_dims crop_op (flip_lr flip_ud rand_rotate : bool)
    item image label path :
  per_example tf img_dims crop_op flip_lr flip_ud rand_rotate item
  = Ok (image, label, path) ->
  exists decoded cropped flipped flipped2,
    decode_example img_dims (fst item) = Ok (decoded, label, path)
    /\ crop_op (snd item) decoded = Ok cropped
    /\ (if flip_lr then random_flip_left_right cropped (flip_lr_draw (snd item))
        else Ok cropped) = Ok flipped
    /\ (if flip_ud then random_flip_up_down flipped (flip_ud_draw (snd item))
        else Ok flipped) = Ok flipped2
    /\ (if rand_rotate then random_rotate tf flipped2 (angle_draw (snd item))
        else Ok flipped2) = Ok image.
Proof.
  destruct item as [ex d]. unfold per_example. intros H.
  destruct (decode_example img_dims ex) as [[[dec l] p]|] eqn:Hd; [|discriminate].
  cbn [mbind result_bind] in H.
  ok_step H cropped Hc. ok_step H flipped Hf. ok_step H flipped2 Hf2.
  ok_step H rotated Hr. injection H as <- <- <-.
  exists dec, cropped, flipped, flipped2. auto.
Qed.

(** X14.  A dictionary that lacks one of the six toggles never yields a
    batch: the lookup [augmentations_dic[key]] raises.  The first toggle read
    is [rand_crop]; without it the call raises [KeyError] whatever the other
    arguments are. *)
Theorem missing_toggle_no_batch (tf : tf_kernels)
    (dequeued : list (Example * example_draws)) (noise : batch_draws)
    (img_dims model_dims : list nat) (size_of_batch : nat)
    (augmentations_dic : gmap string bool) (shuffle : bool) (key : string) :
  In key ["rand_crop"; "rand_flip_left_right"; "rand_flip_top_bottom";
          "rand_rotate"; "warp"; "grayscale"]%string ->
  augmentations_dic !! key = None ->
  is_ok (read_and_decode tf dequeued noise img_dims model_dims size_of_batch
                         augmentations_dic shuffle) = false
  /\ (key = "rand_crop"%string ->
      read_and_decode tf dequeued noise img_dims model_dims size_of_batch
                      augmentations_dic shuffle = Raise KeyError).
Proof.
  intros Hkey Hnone. split.
  - destruct (read_and_decode _ _ _ _ _ _ _ _) as [[[out labels] paths]|] eqn:E;
      [|reflexivity].
    destruct (read_and_decode_ok_inv _ _ _ _ _ _ _ _ _ _ _ E)
      as (b1 & b2 & b3 & b4 & b5 & b6 & ? & ? & ? & ? & T1 & T2 & T3 & T4 & T5 & T6 & _).
    simpl in Hkey.
    destruct Hkey as [<-|[<-|[<-|[<-|[<-|[<-|[]]]]]]]; congruence.
  - intros ->. unfold read_and_decode, toggle. now rewrite Hnone.
Qed.

Lemma missing_toggle_no_batch_witness :
  is_ok (read_and_decode blank_kernels [] {| uniform_X := fun _ => 0%Q; uniform_Y := fun _ => 0%Q |}
           [2; 2; 3]%nat [2; 2; 3]%nat 1
           {[ "rand_crop" := false; "rand_flip_left_right" := false;
              "rand_flip_top_bottom" := false; "rand_rotate" := false;
              "warp" := false ]} false) = false.
Proof.
  apply (missing_toggle_no_batch blank_kernels [] _ _ _ _ _ _ "grayscale").
  - simpl. auto 10.
  - reflexivity.
Defined.

(** X15.  Augmentation never touches the labels or the paths.  Whatever
    the toggles, a batch that is returned has one label and one path per
    dequeued example, in the order of the queue: the stored label cast to 32
    bits and the stored path.  With [shuffle] the batch has exactly
    [size_of_batch] examples; without it (a final batch may be smaller)
    between one and [size_of_batch]. *)
Theorem labels_and_paths_follow_examples (tf : tf_kernels)
    (dequeued : list (Example * example_draws)) (noise : batch_draws)
    (img_dims model_dims : list nat) (size_of_batch : nat)
    (augmentations_dic : gmap string bool) (shuffle : bool)
    (out : tensor Q) (labels : list Z) (paths : list string) :
  read_and_decode tf dequeued noise img_dims model_dims size_of_batch
                  augmentations_dic shuffle = Ok (out, labels, paths) ->
  Forall2 (fun item l => exists stored,
             fixed_len_int64 (fst item) "target_label" = Ok stored
             /\ l = cast_int32 stored) dequeued labels
  /\ Forall2 (fun item p => fixed_len_string (fst item) "file_path" = Ok p)
             dequeued paths
  /\ (if shuffle then length dequeued = size_of_batch
      else (1 <= length dequeued <= size_of_batch)%nat).
Proof.
  intros H.
  destruct (read_and_decode_ok_inv _ _ _ _ _ _ _ _ _ _ _ H)
    as (b1 & b2 & b3 & b4 & b5 & b6 & crop_op & examples & stacked & warped
        & _ & _ & _ & _ & _ & _ & _ & Hex & Hb & _ & _ & _ & -> & ->).
  apply comprehension_ok_inv in Hex.
  assert (Hlen : length dequeued = length examples) by exact (Forall2_length _ _ _ Hex).
  split; [|split].
  - clear -Hex. induction Hex as [|item [[image l] p] items exs Hitem _ IH];
      constructor; [|exact IH].
    destruct (per_example_ok_inv _ _ _ _ _ _ _ _ _ _ Hitem) as (dec & _ & _ & _ & Hd & _).
    unfold decode_example in Hd.
    destruct (fixed_len_string item.1 "image_raw"); [|discriminate].
    cbn [mbind result_bind] in Hd.
    destruct (fixed_len_string item.1 "file_path"); [|discriminate].
    cbn [mbind result_bind] in Hd.
    destruct (fixed_len_int64 item.1 "target_label") as [stored|]; [|discriminate].
    cbn [mbind result_bind] in Hd.
    destruct (reshape _ _); [|discriminate]. cbn [mbind result_bind] in Hd.
    injection Hd as _ <- _. now exists stored.
  - clear -Hex. induction Hex as [|item [[image l] p] items exs Hitem _ IH];
      constructor; [|exact IH].
    destruct (per_example_ok_inv _ _ _ _ _ _ _ _ _ _ Hitem) as (dec & _ & _ & _ & Hd & _).
    unfold decode_example in Hd.
    destruct (fixed_len_string item.1 "image_raw"); [|discriminate].
    cbn [mbind result_bind] in Hd.
    destruct (fixed_len_string item.1 "file_path") as [fp|]; [|discriminate].
    cbn [mbind result_bind] in Hd.
    destruct (fixed_len_int64 item.1 "target_label"); [|discriminate].
    cbn [mbind result_bind] in Hd.
    destruct (reshape _ _); [|discriminate]. cbn [mbind result_bind] in Hd.
    now injection Hd as _ _ <-.
  - rewrite Hlen. unfold batch_ok in Hb. destruct shuffle.
    + now apply Nat.eqb_eq in Hb.
    + apply andb_true_iff in Hb as [B1 B2].
      apply Nat.ltb_lt in B1. apply Nat.leb_le in B2. lia.
Qed.

Lemma labels_and_paths_follow_examples_witness :
  Forall2 (fun item l => exists stored,
             fixed_len_int64 (fst item) "target_label" = Ok stored
             /\ l = cast_int32 stored)
          [({| features := {[ "image_raw" := BytesList ["abcdef"%string];
                              "file_path" := BytesList ["Gleason_5_17.png"%string];
                              "target_label" := Int64List [3] ]} |},
            {| crop_draw := (5, 7, 0)%nat; flip_lr_draw := true;
               flip_ud_draw := true; angle_draw := 90%nat |})]
          [3].
Proof.
  refine (proj1 (labels_and_paths_follow_examples blank_kernels _
                   {| uniform_X := fun _ => 1 # 2; uniform_Y := fun _ => 1 # 3 |}
                   [1; 2; 3]%nat [1; 2; 3]%nat 4
                   {[ "rand_crop" := true; "rand_flip_left_right" := true;
                      "rand_flip_top_bottom" := true; "rand_rotate" := false;
                      "warp" := false; "grayscale" := false ]} false
                   (Tensor [1; 1; 2; 3]%nat [100; 101; 102; 97; 98; 99]%Q)
                   [3] ["Gleason_5_17.png"%string] _)).
  vm_compute. reflexivity.
Defined.

(** ** Shapes and values through the per-example stage *)

Lemma random_crop_shape image size draw out :
  random_crop image size draw = Ok out -> shape out = size.
Proof.
  unfold random_crop. intros H.
  destruct (shape image) as [|h [|w [|c [|]]]]; try discriminate.
  destruct size as [|sh [|sw [|sc [|]]]]; try discriminate.
  destruct (_ && _); [|discriminate]. destruct draw as [[dh dw] dc].
  now injection H as <-.
Qed.

Lemma crop_to_bounding_box_shape {A} (image : tensor A) oh ow th tw out :
  crop_to_bounding_box image oh ow th tw = Ok out ->
  exists h w c, shape image = [h; w; c] /\ shape out = [th; tw; c].
Proof.
  unfold crop_to_bounding_box. intros H.
  destruct (shape image) as [|h [|w [|c [|]]]]; try discriminate.
  destruct (_ && _); [|discriminate]. injection H as <-. now exists h, w, c.
Qed.

Lemma pad_to_bounding_box_shape image oh ow th tw out :
  pad_to_bounding_box image oh ow th tw = Ok out ->
  exists h w c, shape image = [h; w; c] /\ shape out = [th; tw; c].
Proof.
  unfold pad_to_bounding_box. intros H.
  destruct (shape image) as [|h [|w [|c [|]]]]; try discriminate.
  destruct (_ && _); [|discriminate]. injection H as <-. now exists h, w, c.
Qed.

Lemma resize_image_with_crop_or_pad_shape image th tw out :
  resize_image_with_crop_or_pad image th tw = Ok out ->
  exists h w c, shape image = [h; w; c] /\ shape out = [th; tw; c].
Proof.
  unfold resize_image_with_crop_or_pad. intros H.
  destruct (shape image) as [|h [|w [|c [|]]]] eqn:Hs; try discriminate.
  destruct (_ || _); [discriminate|].
  destruct (crop_to_bounding_box _ _ _ _ _) as [cropped|] eqn:Hc; [|discriminate].
  cbn [mbind result_bind] in H.
  destruct (crop_to_bounding_box_shape _ _ _ _ _ _ Hc) as (h1 & w1 & c1 & E1 & E2).
  destruct (pad_to_bounding_box_shape _ _ _ _ _ _ H) as (h2 & w2 & c2 & E3 & E4).
  rewrite Hs in E1. injection E1 as <- <- <-.
  rewrite E2 in E3. injection E3 as <- <- <-.
  now exists h, w, c.
Qed.

Lemma random_flip_left_right_shape image coin out :
  random_flip_left_right image coin = Ok out -> shape out = shape image.
Proof.
  unfold random_flip_left_right. intros H.
  destruct (shape image) as [|h [|w [|c [|]]]] eqn:Hs; try discriminate.
  destruct coin; injection H as <-; [reflexivity|exact Hs].
Qed.

Lemma random_flip_up_down_shape image coin out :
  random_flip_up_down image coin = Ok out -> shape out = shape image.
Proof.
  unfold random_flip_up_down. intros H.
  destruct (shape image) as [|h [|w [|c [|]]]] eqn:Hs; try discriminate.
  destruct coin; injection H as <-; [reflexivity|exact Hs].
Qed.

Lemma stack_batch_shape images out :
  stack_batch images = Ok out ->
  exists first rest, images = first :: rest
                     /\ shape out = length images :: shape first.
Proof.
  unfold stack_batch. destruct images as [|first rest]; [discriminate|].
  destruct (forallb _ _); [|discriminate]. intros [= <-]. now exists first, rest.
Qed.

Section ValuesKept.
Variable P : Q -> Prop.

Lemma random_crop_keeps image size draw out :
  random_crop image size draw = Ok out ->
  Forall P (data image) -> Forall P (data out).
Proof.
  unfold random_crop. intros H HP.
  destruct (shape image) as [|h [|w [|c [|]]]]; try discriminate.
  destruct size as [|sh [|sw [|sc [|]]]]; try discriminate.
  destruct (_ && _); [|discriminate]. destruct draw as [[dh dw] dc].
  injection H as <-. cbn [data image_of_rows].
  apply Forall_rows_data, Forall_map, Forall_take, Forall_drop.
  eapply Forall_impl; [apply image_rows_Forall, HP|].
  intros row Hrow. cbn beta. apply Forall_map, Forall_take, Forall_drop.
  eapply Forall_impl; [exact Hrow|].
  intros px Hpx. cbn beta. now apply Forall_take, Forall_drop.
Qed.

Lemma random_flip_left_right_keeps image coin out :
  random_flip_left_right image coin = Ok out ->
  Forall P (data image) -> Forall P (data out).
Proof.
  unfold random_flip_left_right. intros H HP.
  destruct (shape image) as [|h [|w [|c [|]]]]; try discriminate.
  destruct coin; injection H as <-; [|exact HP]. cbn [data image_of_rows].
  apply Forall_rows_data, Forall_map.
  eapply Forall_impl; [apply image_rows_Forall, HP|].
  intros row Hrow. cbn beta. now apply Forall_rev.
Qed.

Lemma random_flip_up_down_keeps image coin out :
  random_flip_up_down image coin = Ok out ->
  Forall P (data image) -> Forall P (data out).
Proof.
  unfold random_flip_up_down. intros H HP.
  destruct (shape image) as [|h [|w [|c [|]]]]; try discriminate.
  destruct coin; injection H as <-; [|exact HP]. cbn [data image_of_rows].
  apply Forall_rows_data, Forall_rev, image_rows_Forall, HP.
Qed.

End ValuesKept.

(** The first example decides the shape of the stacked batch. *)
Lemma first_example_shape tf img_dims crop_op (flip_lr flip_ud : bool)
    item image label path :
  per_example tf img_dims crop_op flip_lr flip_ud false item
  = Ok (image, label, path) ->
  exists decoded cropped,
    decode_example img_dims (fst item) = Ok (decoded, label, path)
    /\ shape decoded = img_dims
    /\ crop_op (snd item) decoded = Ok cropped
    /\ shape image = shape cropped.
Proof.
  intros H.
  destruct (per_example_ok_inv _ _ _ _ _ _ _ _ _ _ H)
    as (dec & cropped & f1 & f2 & Hd & Hc & Hf1 & Hf2 & Hr).
  injection Hr as <-.
  exists dec, cropped. split; [exact Hd|].
  split; [now destruct (decode_example_byte_valued _ _ _ _ _ Hd)|].
  split; [exact Hc|].
  assert (E1 : shape f1 = shape cropped).
  { destruct flip_lr; [now apply random_flip_left_right_shape in Hf1|].
    now injection Hf1 as <-. }
  assert (E2 : shape f2 = shape f1).
  { destruct flip_ud; [now apply random_flip_up_down_shape in Hf2|].
    now injection Hf2 as <-. }
  congruence.
Qed.

(** X16.  The shape of the batch when rotation, warp and grayscale are off.
    With [rand_crop] the batch is [n] examples of exactly [model_dims]; without
    it, the examples have the model height and width but keep the channel
    count of [img_dims]: [model_dims[2]] is not read on that path.  Flips do
    not change the shape. *)
Theorem batch_shape_without_warp (tf : tf_kernels)
    (dequeued : list (Example * example_draws)) (noise : batch_draws)
    (img_dims model_dims : list nat) (size_of_batch : nat)
    (augmentations_dic : gmap string bool) (shuffle : bool)
    (out : tensor Q) (labels : list Z) (paths : list string) :
  augmentations_dic !! "rand_rotate"%string = Some false ->
  augmentations_dic !! "warp"%string = Some false ->
  augmentations_dic !! "grayscale"%string = Some false ->
  read_and_decode tf dequeued noise img_dims model_dims size_of_batch
                  augmentations_dic shuffle = Ok (out, labels, paths) ->
  exists (rand_crop : bool) (mh mw c : nat),
    augmentations_dic !! "rand_crop"%string = Some rand_crop
    /\ shape out = [length dequeued; mh; mw; c]
    /\ (if rand_crop then model_dims = [mh; mw; c]
        else exists h w rest, img_dims = [h; w; c] /\ model_dims = mh :: mw :: rest).
Proof.
  intros Hrot Hwarp Hgray H.
  destruct (read_and_decode_ok_inv _ _ _ _ _ _ _ _ _ _ _ H)
    as (rand_crop & flip_lr & flip_ud & rot & warp & gray & crop_op & examples
        & stacked & warped & T1 & _ & _ & T4 & T5 & T6 & Hcrop & Hex & _ & Hst
        & Hw & -> & _ & _).
  rewrite Hrot in T4. injection T4 as <-.
  rewrite Hwarp in T5. injection T5 as <-.
  rewrite Hgray in T6. injection T6 as <-. subst warped.
  apply comprehension_ok_inv in Hex.
  destruct (stack_batch_shape _ _ Hst) as (first & others & Himgs & Hshape).
  rewrite length_map, <- (Forall2_length _ _ _ Hex) in Hshape.
  destruct Hex as [|item [[image l] p] items exs Hitem _]; [discriminate Himgs|].
  cbn [map fst] in Himgs. injection Himgs as <- _.
  destruct (first_example_shape _ _ _ _ _ _ _ _ _ Hitem)
    as (dec & cropped & _ & Hdec & Hc & Himg).
  exists rand_crop. destruct rand_crop.
  - subst crop_op. apply random_crop_shape in Hc.
    assert (Hmd : exists mh mw c, model_dims = [mh; mw; c]).
    { unfold random_crop in *. clear -Hc Hitem.
      destruct (per_example_ok_inv _ _ _ _ _ _ _ _ _ _ Hitem)
        as (d0 & c0 & _ & _ & _ & Hcr & _).
      unfold random_crop in Hcr.
      destruct (shape d0) as [|? [|? [|? [|]]]]; try discriminate.
      destruct model_dims as [|mh [|mw [|c [|]]]]; try discriminate. eauto. }
    destruct Hmd as (mh & mw & c & ->).
    exists mh, mw, c. split; [exact T1|]. split; [|reflexivity].
    rewrite Hshape, Himg, Hc. reflexivity.
  - destruct Hcrop as (mh & mw & Hh & Hw' & ->).
    destruct (resize_image_with_crop_or_pad_shape _ _ _ _ Hc)
      as (h & w & c & Es & Eo).
    exists mh, mw, c. split; [exact T1|]. split.
    + rewrite Hshape, Himg, Eo. reflexivity.
    + exists h, w. rewrite Hdec in Es.
      destruct model_dims as [|a [|b rest]]; try discriminate.
      injection Hh as <-. injection Hw' as <-. now exists rest.
Qed.

Lemma batch_shape_without_warp_witness :
  exists (rand_crop : bool) (mh mw c : nat),
    ({[ "rand_crop" := false; "rand_flip_left_right" := true;
        "rand_flip_top_bottom" := false; "rand_rotate" := false;
        "warp" := false; "grayscale" := false ]} : gmap string bool)
      !! "rand_crop"%string = Some rand_crop
    /\ [1; 1; 1; 3]%nat = [1%nat; mh; mw; c]
    /\ (if rand_crop then [1; 1; 1]%nat = [mh; mw; c]
        else exists h w rest, [1; 2; 3]%nat = [h; w; c]
                              /\ [1; 1; 1]%nat = mh :: mw :: rest).
Proof.
  apply (batch_shape_without_warp blank_kernels
           [({| features := {[ "image_raw" := BytesList ["abcdef"%string];
                               "file_path" := BytesList ["Gleason_5_17.png"%string];
                               "target_label" := Int64List [3] ]} |},
             {| crop_draw := (5, 7, 0)%nat; flip_lr_draw := true;
                flip_ud_draw := true; angle_draw := 90%nat |})]
           {| uniform_X := fun _ => 1 # 2; uniform_Y := fun _ => 1 # 3 |}
           [1; 2; 3]%nat [1; 1; 1]%nat 4 _ false
           (Tensor [1; 1; 1; 3]%nat [97; 98; 99]%Q)
           [3] ["Gleason_5_17.png"%string]);
    [reflexivity|reflexivity|reflexivity|vm_compute; reflexivity].
Defined.

(** X17.  Cropping and flipping only move pixels.  With rotation, warp and
    grayscale off, and whatever the crop and flip toggles and draws, every
    element of a returned batch is a stored byte or a padding zero: an integer
    from 0 to 255 held in a float. *)
Theorem crop_and_flips_keep_bytes (tf : tf_kernels)
    (dequeued : list (Example * example_draws)) (noise : batch_draws)
    (img_dims model_dims : list nat) (size_of_batch : nat)
    (augmentations_dic : gmap string bool) (shuffle : bool)
    (out : tensor Q) (labels : list Z) (paths : list string) :
  augmentations_dic !! "rand_rotate"%string = Some false ->
  augmentations_dic !! "warp"%string = Some false ->
  augmentations_dic !! "grayscale"%string = Some false ->
  read_and_decode tf dequeued noise img_dims model_dims size_of_batch
                  augmentations_dic shuffle = Ok (out, labels, paths) ->
  Forall byte_valued (data out).
Proof.
  intros Hrot Hwarp Hgray H.
  destruct (read_and_decode_ok_inv _ _ _ _ _ _ _ _ _ _ _ H)
    as (rand_crop & flip_lr & flip_ud & rot & warp & gray & crop_op & examples
        & stacked & warped & T1 & _ & _ & T4 & T5 & T6 & Hcrop & Hex & _ & Hst
        & Hw & -> & _ & _).
  rewrite Hrot in T4. injection T4 as <-.
  rewrite Hwarp in T5. injection T5 as <-.
  rewrite Hgray in T6. injection T6 as <-. subst warped.
  rewrite (stack_batch_data _ _ Hst).
  apply Forall_concat_nested. rewrite map_map. apply Forall_map.
  apply comprehension_ok_inv in Hex. clear Hst H.
  induction Hex as [|item [[image l] p] items exs Hitem _ IH];
    constructor; [|exact IH].
  destruct (per_example_ok_inv _ _ _ _ _ _ _ _ _ _ Hitem)
    as (dec & cropped & f1 & f2 & Hd & Hc & Hf1 & Hf2 & Hr).
  injection Hr as <-. cbn [fst].
  destruct (decode_example_byte_valued _ _ _ _ _ Hd) as (_ & _ & Hb).
  assert (Hcb : Forall byte_valued (data cropped)).
  { destruct rand_crop.
    - subst crop_op. eapply random_crop_keeps; eauto.
    - destruct Hcrop as (mh & mw & _ & _ & ->).
      eapply resize_image_with_crop_or_pad_keeps; [apply byte_valued_zero|exact Hc|exact Hb]. }
  assert (Hf1b : Forall byte_valued (data f1)).
  { destruct flip_lr; [eapply random_flip_left_right_keeps; eauto|].
    now injection Hf1 as <-. }
  destruct flip_ud; [eapply random_flip_up_down_keeps; eauto|].
  now injection Hf2 as <-.
Qed.

Lemma crop_and_flips_keep_bytes_witness :
  Forall byte_valued [100; 101; 102; 97; 98; 99]%Q.
Proof.
  apply (crop_and_flips_keep_bytes blank_kernels
           [({| features := {[ "image_raw" := BytesList ["abcdef"%string];
                               "file_path" := BytesList ["Gleason_5_17.png"%string];
                               "target_label" := Int64List [3] ]} |},
             {| crop_draw := (5, 7, 0)%nat; flip_lr_draw := true;
                flip_ud_draw := true; angle_draw := 90%nat |})]
           {| uniform_X := fun _ => 1 # 2; uniform_Y := fun _ => 1 # 3 |}
           [1; 2; 3]%nat [1; 2; 3]%nat 4
           {[ "rand_crop" := true; "rand_flip_left_right" := true;
              "rand_flip_top_bottom" := true; "rand_rotate" := false;
              "warp" := false; "grayscale" := false ]} false
           (Tensor [1; 1; 2; 3]%nat [100; 101; 102; 97; 98; 99]%Q)
           [3] ["Gleason_5_17.png"%string]);
    [reflexivity|reflexivity|reflexivity|vm_compute; reflexivity].
Defined.

(** X18.  The warp is built for full batches only.  The flow is tiled
    [size_of_batch] times and the batch is reshaped to
    [size_of_batch, h, w, c]; a batch with another number of elements, such
    as the smaller final batch that [tf.train.batch] is allowed to deliver
    when [shuffle] is off, makes the stage raise [InvalidArgumentError]. *)
Theorem warp_rejects_short_batch (tf : tf_kernels) (noise : batch_draws)
    (h w c : nat) (rest : list nat) (size_of_batch n : nat) (img : tensor Q) :
  conv2d_keeps_size tf ->
  length (data img) = (n * (h * w * c))%nat ->
  n <> size_of_batch -> (0 < h * w * c)%nat ->
  warp_batch tf noise (h :: w :: c :: rest) size_of_batch img
  = Raise InvalidArgumentError.
Proof.
  intros Hconv Himg Hn Hpos.
  destruct (displacement_field_ok tf Hconv (uniform_X noise) h w) as (xs & HX & Hxs).
  destruct (displacement_field_ok tf Hconv (uniform_Y noise) h w) as (ys & HY & Hys).
  set (flow := concat (zip_with (fun x y => [x; y]) xs ys)).
  assert (Hflow : length flow = (h * w * 2)%nat).
  { unfold flow. rewrite length_interleave by lia. lia. }
  unfold warp_batch.
  change (PyStr.index (h :: w :: c :: rest) 0) with (@Ok nat h).
  change (PyStr.index (h :: w :: c :: rest) 1) with (@Ok nat w).
  change (PyStr.index (h :: w :: c :: rest) 2) with (@Ok nat c).
  cbn [mbind result_bind]. rewrite HX, HY. cbn [mbind result_bind].
  unfold stack_last. cbn [shape data].
  destruct (decide _) as [_|Hne]; [|congruence].
  cbn [mbind result_bind shape data]. fold flow.
  unfold tile. cbn [shape data mbind result_bind].
  unfold reshape. cbn [data].
  destruct (decide (numel [size_of_batch; h; w; 2%nat] = _)) as [_|Hne].
  2:{ exfalso. apply Hne. rewrite length_concat_replicate, Hflow.
      unfold numel. cbn [fold_right]. lia. }
  cbn [mbind result_bind].
  destruct (decide (numel [size_of_batch; h; w; c] = _)) as [E|_]; [|reflexivity].
  exfalso. rewrite Himg in E. unfold numel in E. cbn [fold_right] in E. nia.
Qed.

Lemma warp_rejects_short_batch_witness :
  warp_batch blank_kernels
    {| uniform_X := fun _ => 1 # 4; uniform_Y := fun _ => 3 # 4 |}
    [1; 2; 1]%nat 2 (Tensor [1; 1; 2; 1]%nat [1; 2]%Q)
  = Raise InvalidArgumentError.
Proof.
  apply (warp_rejects_short_batch blank_kernels _ 1 2 1 [] 2 1).
  - exact blank_kernels_keep_size.
  - reflexivity.
  - discriminate.
  - simpl. lia.
Defined.

(** ** normalize on byte-valued images *)

Module NormalizeBytes.

Lemma in_below n v : 0 <= v < Z.of_nat n -> In v (map Z.of_nat (seq 0 n)).
Proof.
  intros H. apply in_map_iff. exists (Z.to_nat v).
  split; [lia|]. apply in_seq. lia.
Qed.

Lemma all_close : forallb normalize_byte_close (map Z.of_nat (seq 0 256)) = true.
Proof. vm_compute. reflexivity. Qed.

Lemma all_in_range : forallb normalize_byte_in_range (map Z.of_nat (seq 0 256)) = true.
Proof. vm_compute. reflexivity. Qed.

Lemma all_rising : forallb normalize_byte_rising (map Z.of_nat (seq 0 255)) = true.
Proof. vm_compute. reflexivity. Qed.

Lemma normalize_byte_is_close v : 0 <= v < 256 ->
  (Qabs (normalize_byte v - (inject_Z v - (15385 # 100)) / (2538 # 100)) <= 1 # 1000000)%Q.
Proof.
  intros H. apply Qle_bool_iff.
  exact (proj1 (forallb_forall _ _) all_close v (in_below 256 v H)).
Qed.

Lemma normalize_byte_range v : 0 <= v < 256 -> (- (607 # 100) <= normalize_byte v)%Q /\ (normalize_byte v <= 399 # 100)%Q.
Proof.
  intros H.
  pose proof (proj1 (forallb_forall _ _) all_in_range v (in_below 256 v H)) as R.
  unfold normalize_byte_in_range in R. apply andb_true_iff in R as [R1 R2].
  split; now apply Qle_bool_iff.
Qed.

Lemma normalize_byte_step v : 0 <= v < 255 -> (normalize_byte v < normalize_byte (v + 1))%Q.
Proof.
  intros H.
  pose proof (proj1 (forallb_forall _ _) all_rising v (in_below 255 v H)) as R.
  unfold normalize_byte_rising in R. apply negb_true_iff in R.
  apply Qnot_le_lt. intros L. apply Qle_bool_iff in L. congruence.
Qed.

Lemma normalize_byte_grows a b : 0 <= a -> a < b -> b < 256 -> (normalize_byte a < normalize_byte b)%Q.
Proof.
  intros Ha Hab Hb.
  replace b with (a + Z.of_nat (S (Z.to_nat (b - a - 1)))) in * by lia.
  induction (Z.to_nat (b - a - 1)) as [|n IH].
  - apply normalize_byte_step. lia.
  - eapply Qlt_trans; [apply IH; lia|].
    replace (a + Z.of_nat (S (S n))) with (a + Z.of_nat (S n) + 1) by lia.
    apply normalize_byte_step. lia.
Qed.

Lemma normalize_on_byte b :
  Float.binary32
    (Float.binary32 (inject_Z b - Float.binary32 GLEASON_MEAN_G)
     / Float.binary32 GLEASON_MEAN_STD_G) = normalize_byte b.
Proof. reflexivity. Qed.

End NormalizeBytes.

Lemma lookup_map_inv {A B} (f : A -> B) (l : list A) i y :
  map f l !! i = Some y -> exists x, l !! i = Some x /\ y = f x.
Proof.
  revert i. induction l as [|a l IH]; intros [|i] H; simpl in H; try discriminate.
  - injection H as <-. now exists a.
  - now apply IH.
Qed.

Lemma lookup_In {A} (l : list A) i x : l !! i = Some x -> In x l.
Proof.
  revert i. induction l as [|a l IH]; intros [|i] H; simpl in H; try discriminate.
  - injection H as <-. now left.
  - right. now apply (IH i).
Qed.

(** X19.  [normalize] on an image of bytes (what the decoder produces when
    rotation, warp and grayscale are off).  The shape is kept; every output is
    within 10^-6 of the exact normalize_byte-score (x - 153.85) / 25.38, so the float32
    rounding of the constants and of the two operations is harmless; every
    output lies between -6.07 and 3.99; and the order of intensities is
    preserved strictly: two different byte values never collapse. *)
Theorem normalize_on_bytes (image : tensor Q) :
  Forall byte_valued (data image) ->
  shape (normalize image) = shape image
  /\ Forall2 (fun x y =>
                (Qabs (y - (x - (15385 # 100)) / (2538 # 100)) <= 1 # 1000000)%Q)
             (data image) (data (normalize image))
  /\ Forall (fun y => (- (607 # 100) <= y)%Q /\ (y <= 399 # 100)%Q)
            (data (normalize image))
  /\ (forall i j x y x' y',
        data image !! i = Some x -> data image !! j = Some y ->
        data (normalize image) !! i = Some x' ->
        data (normalize image) !! j = Some y' ->
        (x < y)%Q -> (x' < y')%Q).
Proof.
  intros Hb. unfold normalize. cbn [shape data].
  split; [reflexivity|]. split; [|split].
  - induction Hb as [|x l (b & Hbyte & ->) _ IH]; cbn [map]; constructor; [|exact IH].
    rewrite NormalizeBytes.normalize_on_byte. apply NormalizeBytes.normalize_byte_is_close, Hbyte.
  - induction Hb as [|x l (b & Hbyte & ->) _ IH]; cbn [map]; constructor; [|exact IH].
    rewrite NormalizeBytes.normalize_on_byte. apply NormalizeBytes.normalize_byte_range, Hbyte.
  - intros i j x y x' y' Hx Hy Hx' Hy' Hlt.
    apply lookup_map_inv in Hx' as (x0 & Ex & ->).
    apply lookup_map_inv in Hy' as (y0 & Ey & ->).
    rewrite Hx in Ex. injection Ex as <-. rewrite Hy in Ey. injection Ey as <-.
    rewrite List.Forall_forall in Hb.
    destruct (Hb x (lookup_In _ _ _ Hx))
      as (a & [Ha0 Ha1] & ->).
    destruct (Hb y (lookup_In _ _ _ Hy))
      as (b & [Hb0 Hb1] & ->).
    rewrite !NormalizeBytes.normalize_on_byte.
    apply NormalizeBytes.normalize_byte_grows; try lia.
    now rewrite Zlt_Qlt.
Qed.

Lemma normalize_on_bytes_witness :
  Forall2 (fun x y => (Qabs (y - (x - (15385 # 100)) / (2538 # 100)) <= 1 # 1000000)%Q)
          [0; 154; 255]%Q (data (normalize (Tensor [1; 1; 3]%nat [0; 154; 255]%Q)))
  /\ Forall (fun y => (- (607 # 100) <= y)%Q /\ (y <= 399 # 100)%Q)
            (data (normalize (Tensor [1; 1; 3]%nat [0; 154; 255]%Q))).
Proof.
  destruct (normalize_on_bytes (Tensor [1; 1; 3]%nat [0; 154; 255]%Q))
    as (_ & H2 & H3 & _).
  - repeat constructor.
    + exists 0. split; [unfold is_byte; lia|reflexivity].
    + exists 154. split; [unfold is_byte; lia|reflexivity].
    + exists 255. split; [unfold is_byte; lia|reflexivity].
  - split; [exact H2|exact H3].
Defined.

(** ** vgg_preprocessing *)

Lemma chunks_map {A B} (f : A -> B) n k (l : list A) :
  chunks n k (map f l) = map (map f) (chunks n k l).
Proof.
  revert l. induction k as [|k IH]; intros l; simpl; [reflexivity|].
  rewrite firstn_map, skipn_map, IH. reflexivity.
Qed.

Lemma chunks_concat_uniform {A} m (ls : list (list A)) :
  Forall (fun ch => length ch = m) ls ->
  chunks m (length ls) (concat ls) = ls.
Proof.
  induction 1 as [|x ls Hx _ IH]; simpl; [reflexivity|].
  rewrite take_app_length', drop_app_length' by (symmetry; exact Hx).
  now rewrite IH.
Qed.

Lemma zip_with_map_same {A B C D} (f : B -> C -> D) (g : A -> B) (h : A -> C) l :
  zip_with f (map g l) (map h l) = map (fun x => f (g x) (h x)) l.
Proof. induction l as [|x l IH]; simpl; [reflexivity|now rewrite IH]. Qed.

Lemma map_ext_Forall {A B} (f g : A -> B) (l : list A) :
  Forall (fun x => f x = g x) l -> map f l = map g l.
Proof. induction 1 as [|x l Hx _ IH]; simpl; [reflexivity|now rewrite Hx, IH]. Qed.

(** the shape part of [split_axis3] *)
Lemma split_axis3_shapes value parts :
  split_axis3 3 value = Ok parts ->
  exists b h w c rest x y z,
    shape value = b :: h :: w :: c :: rest /\ (c mod 3 = 0)%nat
    /\ parts = [x; y; z]
    /\ shape x = b :: h :: w :: (c / 3)%nat :: rest
    /\ shape y = b :: h :: w :: (c / 3)%nat :: rest
    /\ shape z = b :: h :: w :: (c / 3)%nat :: rest.
Proof.
  unfold split_axis3. intros H.
  destruct (shape value) as [|b [|h [|w [|c rest]]]]; try discriminate.
  cbn [Nat.ltb Nat.leb andb] in H.
  destruct (Nat.eqb_spec (c mod 3) 0) as [Hc|]; [|discriminate].
  injection H as <-. cbn [seq map].
  eexists b, h, w, c, rest, _, _, _. repeat split; try reflexivity. exact Hc.
Qed.

Lemma split_axis3_raises value e :
  split_axis3 3 value = Raise e -> e = ValueError.
Proof.
  unfold split_axis3. intros H.
  destruct (shape value) as [|b [|h [|w [|c rest]]]]; try (now injection H as <-).
  destruct (_ && _); [discriminate|now injection H as <-].
Qed.

(** On a tensor of shape [b, 224, 224, 3] every check passes. *)
Lemma vgg_preprocessing_passes b px :
  exists data_bgr,
    vgg_preprocessing (Tensor [b; 224; 224; 3]%nat px)
    = Passed (Tensor [b; 224; 224; 3]%nat data_bgr)
    /\ data_bgr
       = let positions := chunks 3 (b * 224 * 224)
                            (map (fun x => Float.binary32 (x * Float.binary32 255)) px) in
         let part j m :=
           map (fun x => Float.binary32 (x - Float.binary32 m))
               (concat (map (fun p => take 1 (drop j p)) positions)) in
         concat (zip_with app
                   (chunks 1 (b * 224 * 224) (part 2%nat (nth 0 VGG_MEAN 0%Q)))
                   (zip_with app
                      (chunks 1 (b * 224 * 224) (part 1%nat (nth 1 VGG_MEAN 0%Q)))
                      (chunks 1 (b * 224 * 224) (part 0%nat (nth 2 VGG_MEAN 0%Q))))).
Proof.
  eexists. split; [|reflexivity].
  unfold vgg_preprocessing, split_axis3. cbn [shape scalar_mul data].
  change ((0 <? 3)%nat && (3 mod 3 =? 0)%nat) with true. cbv iota.
  change (3 / 3)%nat with 1%nat. change (numel []) with 1%nat.
  change (3 * 1)%nat with 3%nat. change (1 * 1)%nat with 1%nat.
  cbn [seq map]. unfold shape_tail. cbn [shape tail].
  rewrite bool_decide_eq_true_2 by reflexivity. cbn [negb].
  unfold concat_axis3. cbn [shape scalar_sub data].
  destruct (decide _) as [_|Hne]; [|exfalso; apply Hne; split; reflexivity].
  cbn [shape tail]. change (1 + 1 + 1)%nat with 3%nat.
  rewrite bool_decide_eq_true_2 by reflexivity.
  change (numel []) with 1%nat. change (1 * 1)%nat with 1%nat.
  change (0 * 1)%nat with 0%nat. change (2 * 1)%nat with 2%nat.
  reflexivity.
Qed.

(** X20.  What [vgg_preprocessing] computes.  On a batch of [b] RGB images
    of 224 x 224 pixels the result has the same shape and, pixel by pixel,
    the channels in the order blue, green, red, each scaled by 255 and shifted
    by its VGG mean (103.939, 116.779 and 123.68), every operation rounded to
    float32. *)
Theorem vgg_preprocessing_bgr (b : nat) (px : list Q) :
  length px = (b * 224 * 224 * 3)%nat ->
  let channel x m :=
    Float.binary32 (Float.binary32 (x * 255) - Float.binary32 (Float.binary64 m)) in
  let bgr p :=
    match p with
    | [red; green; blue] =>
        [channel blue (103939 # 1000); channel green (116779 # 1000);
         channel red (12368 # 100)]
    | _ => []
    end in
  vgg_preprocessing (Tensor [b; 224; 224; 3]%nat px)
  = Passed (Tensor [b; 224; 224; 3]%nat
              (concat (map bgr (chunks 3 (b * 224 * 224) px)))).
Proof.
  intros Hlen channel bgr.
  destruct (vgg_preprocessing_passes b px) as (data_bgr & -> & ->).
  do 2 f_equal. cbv beta zeta.
  set (n := (b * 224 * 224)%nat) in *.
  set (scale := fun x => Float.binary32 (x * Float.binary32 255)).
  assert (Hpx : Forall (fun p => length p = 3%nat) (chunks 3 n px)).
  { apply chunks_lengths. lia. }
  assert (Hpos : Forall (fun p => length p = 3%nat) (chunks 3 n (map scale px))).
  { apply chunks_lengths. rewrite length_map. lia. }
  assert (Hpart : forall j m, (j < 3)%nat ->
            chunks 1 n (map (fun x => Float.binary32 (x - Float.binary32 m))
                            (concat (map (fun p => take 1 (drop j p))
                                         (chunks 3 n (map scale px)))))
            = map (fun p => map (fun x => Float.binary32 (x - Float.binary32 m))
                                (take 1 (drop j p)))
                  (chunks 3 n (map scale px))).
  { intros j m Hj. rewrite concat_map, map_map.
    rewrite <- (length_chunks 3 n (map scale px)) at 1.
    rewrite <- (length_map (fun p => map (fun x => Float.binary32 (x - Float.binary32 m))
                                          (take 1 (drop j p)))).
    apply chunks_concat_uniform. apply Forall_map.
    eapply Forall_impl; [exact Hpos|]. intros p Hp. cbn beta in *.
    rewrite length_map, length_take, length_drop. lia. }
  rewrite !Hpart by lia.
  rewrite !zip_with_map_same.
  rewrite chunks_map, map_map. f_equal.
  apply map_ext_Forall. eapply Forall_impl; [exact Hpx|].
  intros p Hp. cbn beta in Hp.
  destruct p as [|r [|g [|bl [|]]]]; try discriminate Hp.
  unfold bgr, channel, scale.
  assert (E : Float.binary32 255 = 255%Q) by (vm_compute; reflexivity).
  rewrite E. reflexivity.
Qed.

Lemma vgg_preprocessing_bgr_witness :
  exists out,
    vgg_preprocessing (Tensor [1; 224; 224; 3]%nat (replicate (1 * 224 * 224 * 3) (1 # 2)%Q))
    = Passed (Tensor [1; 224; 224; 3]%nat out).
Proof.
  eexists.
  apply (vgg_preprocessing_bgr 1 (replicate (1 * 224 * 224 * 3) (1 # 2)%Q)).
  apply length_replicate.
Defined.

(** X21.  The shape check of [vgg_preprocessing].  It returns exactly on
    tensors of shape [b, 224, 224, 3], with a result of the same shape; any
    other height, width or multiple of three channels fails an [assert]; a
    channel count that three does not divide, or fewer than four axes, makes
    [tf.split] raise [ValueError]. *)
Theorem vgg_preprocessing_shape_check (image_rgb : tensor Q) :
  ((exists out, vgg_preprocessing image_rgb = Passed out)
   <-> exists b, shape image_rgb = [b; 224; 224; 3]%nat)
  /\ (forall out, vgg_preprocessing image_rgb = Passed out ->
        shape out = shape image_rgb)
  /\ (forall b h w c rest,
        shape image_rgb = b :: h :: w :: c :: rest -> (c mod 3 = 0)%nat ->
        (h, w, c, rest) <> (224, 224, 3, [])%nat ->
        vgg_preprocessing image_rgb = AssertionError)
  /\ (forall b h w c rest,
        shape image_rgb = b :: h :: w :: c :: rest -> (c mod 3 <> 0)%nat ->
        vgg_preprocessing image_rgb = Failed ValueError)
  /\ ((length (shape image_rgb) < 4)%nat ->
      vgg_preprocessing image_rgb = Failed ValueError).
Proof.
  destruct image_rgb as [sh px]. cbn [shape].
  assert (Hbad : forall b h w c rest,
            sh = b :: h :: w :: c :: rest -> (c mod 3 = 0)%nat ->
            (h, w, c, rest) <> (224, 224, 3, [])%nat ->
            vgg_preprocessing (Tensor sh px) = AssertionError).
  { intros b h w c rest -> Hc Hne.
    unfold vgg_preprocessing, split_axis3. cbn [shape scalar_mul data].
    cbn [Nat.ltb Nat.leb andb].
    destruct (Nat.eqb_spec (c mod 3) 0) as [_|]; [|contradiction].
    cbn [seq map]. unfold shape_tail. cbn [shape tail].
    destruct (decide (h :: w :: (c / 3)%nat :: rest = [224; 224; 1]%nat)) as [E|NE].
    - exfalso. apply Hne.
      assert (E3 : (c / 3)%nat = 1%nat) by congruence.
      assert (Eh : h = 224%nat) by congruence.
      assert (Ew : w = 224%nat) by congruence.
      assert (Er : rest = []) by congruence.
      assert (Ec : c = 3%nat).
      { pose proof (Nat.div_mod_eq c 3) as D. rewrite E3, Hc in D. exact D. }
      now rewrite Eh, Ew, Er, Ec.
    - now rewrite bool_decide_eq_false_2 by exact NE. }
  assert (Hval : forall b h w c rest,
            sh = b :: h :: w :: c :: rest -> (c mod 3 <> 0)%nat ->
            vgg_preprocessing (Tensor sh px) = Failed ValueError).
  { intros b h w c rest -> Hc.
    unfold vgg_preprocessing, split_axis3. cbn [shape scalar_mul data].
    cbn [Nat.ltb Nat.leb andb].
    now destruct (Nat.eqb_spec (c mod 3) 0). }
  assert (Hshort : (length sh < 4)%nat ->
            vgg_preprocessing (Tensor sh px) = Failed ValueError).
  { intros Hl. unfold vgg_preprocessing, split_axis3. cbn [shape scalar_mul data].
    destruct sh as [|b [|h [|w [|c rest]]]]; try reflexivity.
    simpl in Hl. lia. }
  assert (Hpass : forall out, vgg_preprocessing (Tensor sh px) = Passed out ->
            exists b, sh = [b; 224; 224; 3]%nat).
  { intros out H.
    destruct sh as [|b [|h [|w [|c rest]]]];
      try (rewrite Hshort in H by (simpl; lia); discriminate).
    destruct (Nat.eq_dec (c mod 3)%nat 0%nat) as [Hc|Hc].
    - destruct (decide ((h, w, c, rest) = (224, 224, 3, [])%nat)) as [E|NE].
      + injection E as -> -> -> ->. now exists b.
      + rewrite (Hbad b h w c rest eq_refl Hc NE) in H. discriminate.
    - rewrite (Hval b h w c rest eq_refl Hc) in H. discriminate. }
  split; [split|split; [|split; [exact Hbad|split; [exact Hval|exact Hshort]]]].
  - intros [out H]. exact (Hpass out H).
  - intros [b ->]. destruct (vgg_preprocessing_passes b px) as (d & H & _). eauto.
  - intros out H. destruct (Hpass out H) as [b ->].
    destruct (vgg_preprocessing_passes b px) as (d & H' & _).
    rewrite H' in H. now injection H as <-.
Qed.

Lemma vgg_preprocessing_shape_check_witness :
  vgg_preprocessing (Tensor [1; 256; 256; 3]%nat []) = AssertionError
  /\ vgg_preprocessing (Tensor [1; 224; 224; 4]%nat []) = Failed ValueError
  /\ vgg_preprocessing (Tensor [224; 224; 3]%nat []) = Failed ValueError.
Proof.
  split; [|split].
  - apply (proj1 (proj2 (proj2 (vgg_preprocessing_shape_check
                                  (Tensor [1; 256; 256; 3]%nat []))))
             1%nat 256%nat 256%nat 3%nat []); [reflexivity|reflexivity|].
    intros E. apply (f_equal (fun t => Nat.eqb (fst (fst (fst t))) 224)) in E.
    vm_compute in E. discriminate.
  - apply (proj1 (proj2 (proj2 (proj2 (vgg_preprocessing_shape_check
                                         (Tensor [1; 224; 224; 4]%nat [])))))
             1%nat 224%nat 224%nat 4%nat []); [reflexivity|].
    simpl. discriminate.
  - apply (proj2 (proj2 (proj2 (proj2 (vgg_preprocessing_shape_check
                                         (Tensor [224; 224; 3]%nat [])))))).
    simpl. lia.
Defined.

(** ** The colour distortions *)

Lemma clip_by_value_range t lo hi :
  (lo <= hi)%Q ->
  Forall (fun x => (lo <= x)%Q /\ (x <= hi)%Q) (data (clip_by_value t lo hi)).
Proof.
  intros H. unfold clip_by_value. cbn [data]. apply Forall_map, Forall_forall.
  intros x _. cbn beta zeta.
  destruct (Qle_bool x hi) eqn:E1.
  - apply Qle_bool_iff in E1. destruct (Qle_bool lo x) eqn:E2.
    + apply Qle_bool_iff in E2. split; assumption.
    + split; [apply Qle_refl|exact H].
  - destruct (Qle_bool lo hi) eqn:E2.
    + split; [exact H|apply Qle_refl].
    + split; [apply Qle_refl|exact H].
Qed.

(** X22.  Both distortion functions end with [tf.clip_by_value(image, 0.0,
    1.0)]: whatever the random colour operations return and whatever order
    they are applied in, every element of a returned image lies between 0 and
    1. *)
Theorem distortions_clamp (k : color_kernels) (d : color_draws)
    (image out : tensor Q) (ordering : Z) (fast_mode : bool) :
  distort_color k d image ordering fast_mode = Ok out
  \/ distort_brightness_constrast k d image ordering = Ok out ->
  Forall (fun x => (0 <= x)%Q /\ (x <= 1)%Q) (data out).
Proof.
  intros [H|H].
  - unfold distort_color in H.
    destruct (if fast_mode then _ else _) as [img|]; [|discriminate].
    injection H as <-. apply clip_by_value_range. discriminate.
  - unfold distort_brightness_constrast in H.
    destruct (if ordering =? 0 then _ else _) as [img|]; [|discriminate].
    injection H as <-. apply clip_by_value_range. discriminate.
Qed.

Lemma distortions_clamp_witness :
  Forall (fun x => (0 <= x)%Q /\ (x <= 1)%Q) [0; 1 # 4; 1]%Q.
Proof.
  apply (distortions_clamp shift_kernels
           {| brightness_draw := - (1 # 2); saturation_draw := 1;
              hue_draw := 0; contrast_draw := 1 |}
           (Tensor [1; 1; 3]%nat [1 # 4; 3 # 4; 2]%Q)
           (Tensor [1; 1; 3]%nat [0; 1 # 4; 1]%Q) 2 false).
  left. vm_compute. reflexivity.
Defined.

(** X23.  The check of [color_ordering].  Without [fast_mode] an ordering
    other than 0, 1, 2 or 3 raises [ValueError] before any colour operation is
    used.  With [fast_mode] the argument is not validated: every ordering
    other than 0 behaves as ordering 1, and neither the hue nor the contrast
    operation takes part in the result. *)
Theorem distort_color_ordering_check (k : color_kernels) (d : color_draws)
    (image : tensor Q) (color_ordering : Z) :
  (~ In color_ordering [0; 1; 2; 3] ->
   distort_color k d image color_ordering false = Raise ValueError)
  /\ (color_ordering <> 0 ->
      distort_color k d image color_ordering true = distort_color k d image 1 true)
  /\ (forall k' : color_kernels,
        tf_random_brightness k' = tf_random_brightness k ->
        tf_random_saturation k' = tf_random_saturation k ->
        distort_color k' d image color_ordering true
        = distort_color k d image color_ordering true).
Proof.
  split; [|split].
  - intros H. unfold distort_color.
    destruct (Z.eqb_spec color_ordering 0) as [->|_]; [exfalso; apply H; simpl; auto|].
    destruct (Z.eqb_spec color_ordering 1) as [->|_]; [exfalso; apply H; simpl; auto|].
    destruct (Z.eqb_spec color_ordering 2) as [->|_]; [exfalso; apply H; simpl; auto|].
    destruct (Z.eqb_spec color_ordering 3) as [->|_]; [exfalso; apply H; simpl; auto|].
    reflexivity.
  - intros H. unfold distort_color.
    destruct (Z.eqb_spec color_ordering 0); [contradiction|]. reflexivity.
  - intros k' Hb Hs. unfold distort_color, brightness, saturation.
    now rewrite Hb, Hs.
Qed.

Lemma distort_color_ordering_check_witness :
  distort_color shift_kernels
    {| brightness_draw := 1 # 8; saturation_draw := 1; hue_draw := 0;
       contrast_draw := 1 |}
    (Tensor [1; 1; 3]%nat [1 # 4; 3 # 4; 2]%Q) 7 false
  = Raise ValueError
  /\ distort_color shift_kernels
       {| brightness_draw := 1 # 8; saturation_draw := 1; hue_draw := 0;
          contrast_draw := 1 |}
       (Tensor [1; 1; 3]%nat [1 # 4; 3 # 4; 2]%Q) 7 true
     = Ok (Tensor [1; 1; 3]%nat [3 # 8; 7 # 8; 1]%Q).
Proof.
  split.
  - apply (proj1 (distort_color_ordering_check shift_kernels _ _ 7)).
    simpl. intros [H|[H|[H|[H|[]]]]]; discriminate H.
  - rewrite (proj1 (proj2 (distort_color_ordering_check shift_kernels _ _ 7)))
      by discriminate.
    vm_compute. reflexivity.
Defined.

(** ** More on the bulk encoder *)

Lemma container_of_create_tf_record open_image f file_pointers target_labels :
  container_of f (create_tf_record open_image f file_pointers target_labels)
  = successes (map (fun ft => encode open_image (fst ft) (snd ft))
                   (zip file_pointers target_labels)).
Proof.
  unfold create_tf_record.
  rewrite !container_of_app, container_of_write_examples.
  simpl. now rewrite app_nil_r.
Qed.

Lemma count_failed_write_examples f futures :
  length (List.filter (fun e => match e with EvPrint MsgFailedWrite => true | _ => false end)
                      (write_examples f futures))
  = failures futures.
Proof.
  induction futures as [|[ex|e] futures IH]; simpl; [reflexivity|exact IH|].
  now rewrite IH.
Qed.

(** X24.  Every record of the container belongs to its own pair.  The
    records written are, in order, those of the submitted (path, label) pairs
    on which [encode] succeeds; record k holds the path and the label of the
    k-th such pair and one image string.  Paths and labels are never mixed
    up, and every record has the three features the decoder asks for.  The
    line [Failed to write example!] is printed once per failing pair. *)
Theorem container_records_carry_their_pairs
    (open_image : string -> result pil_array) (tfrecords_filename : string)
    (file_pointers : list string) (target_labels : list Z) :
  let tr := create_tf_record open_image tfrecords_filename
              file_pointers target_labels in
  let pairs := zip file_pointers target_labels in
  let kept := List.filter (fun ft => is_ok (encode open_image (fst ft) (snd ft)))
                          pairs in
  Forall2 (fun record ft =>
             fixed_len_string record "file_path" = Ok (fst ft)
             /\ fixed_len_int64 record "target_label" = Ok (snd ft)
             /\ exists raw, fixed_len_string record "image_raw" = Ok raw)
          (container_of tfrecords_filename tr) kept
  /\ length (List.filter
               (fun e => match e with EvPrint MsgFailedWrite => true | _ => false end)
               tr)
     = (length pairs - length kept)%nat.
Proof.
  intros tr pairs kept. split.
  - unfold tr. rewrite container_of_create_tf_record. fold pairs. unfold kept.
    induction pairs as [|[fp l] pairs IH]; cbn [map List.filter successes fst snd];
      [constructor|].
    destruct (encode open_image fp l) as [record|e] eqn:E; cbn [is_ok successes];
      [|exact IH].
    constructor; [|exact IH].
    destruct (encode_ok_inv _ _ _ _ E) as (a & img & _ & _ & _ & _ & ->).
    cbn [fst snd]. split; [reflexivity|]. split; [reflexivity|].
    eexists. reflexivity.
  - unfold tr, create_tf_record. fold pairs.
    rewrite !List.filter_app, !length_app, count_failed_write_examples.
    cbn [List.filter length]. rewrite !Nat.add_0_l, Nat.add_0_r.
    unfold kept. clear. induction pairs as [|[fp l] pairs IH]; [reflexivity|].
    cbn [map failures List.filter fst snd length].
    destruct (encode open_image fp l); cbn [is_ok failures length].
    + exact IH.
    + rewrite IH.
      pose proof (List.filter_length_le
                    (fun ft => is_ok (encode open_image (fst ft) (snd ft))) pairs).
      lia.
Qed.

(** ** The size of a stored image *)

Lemma length_first_three h w c (px : list Z) :
  length px = (h * w * c)%nat ->
  length (concat (map (take 3) (chunks c (h * w) px))) = (h * w * Nat.min c 3)%nat.
Proof.
  intros H. rewrite (length_concat_uniform (Nat.min c 3)).
  - rewrite length_map, length_chunks. lia.
  - apply Forall_map. eapply Forall_impl; [apply (chunks_lengths c (h * w)); lia|].
    intros ch Hch. cbn beta in *. rewrite length_take. lia.
Qed.

Lemma length_decode_raw s : length (data (decode_raw_uint8 s)) = String.length s.
Proof.
  unfold decode_raw_uint8. cbn [data].
  now rewrite length_map, <- string_length_of_list, string_of_list_ascii_of_string.
Qed.

Lemma length_tostring t : String.length (tostring t) = length (data t).
Proof. unfold tostring. now rewrite string_length_of_list, length_map. Qed.

(** X25.  How many bytes [encode] stores, and which [img_dims] can read
    them back.  For an image array of shape [h, w, c] the record holds
    h * w * min(c, 3) bytes: channels beyond the third are dropped, fewer than
    three are kept as they are.  The decoder accepts the record exactly for
    the [img_dims] with that product, so a two-channel image is stored
    without error but cannot be read back with [img_dims = [h, w, 3]]. *)
Theorem encoded_image_size (open_image : string -> result pil_array)
    (img_path : string) (target_label : Z) (h w c : nat) (px : list Z)
    (record : Example) :
  open_image img_path = Ok (Arr3 h w c px) -> length px = (h * w * c)%nat ->
  encode open_image img_path target_label = Ok record ->
  exists raw,
    fixed_len_string record "image_raw" = Ok raw
    /\ String.length raw = (h * w * Nat.min c 3)%nat
    /\ forall img_dims,
         is_ok (decode_example img_dims record) = true
         <-> numel img_dims = (h * w * Nat.min c 3)%nat.
Proof.
  intros Hopen Hlen Henc.
  destruct (encode_ok_inv _ _ _ _ Henc) as (a & img & Ha & Hi & _ & _ & ->).
  rewrite Hopen in Ha. injection Ha as <-.
  cbn [first_three_channels] in Hi. injection Hi as <-.
  eexists. split; [reflexivity|].
  assert (Hraw : String.length
                   (tostring (astype_uint8 (astype_float32
                      (Tensor [h; w; Nat.min c 3]
                         (concat (map (take 3) (chunks c (h * w) px)))))))
                 = (h * w * Nat.min c 3)%nat).
  { rewrite length_tostring. unfold astype_uint8, astype_float32. cbn [data].
    rewrite !length_map. now apply length_first_three. }
  split; [exact Hraw|].
  intros img_dims. rewrite decode_example_of_features.
  unfold reshape. rewrite length_decode_raw, Hraw.
  destruct (decide _) as [E|NE]; cbn [mbind result_bind is_ok]; split; intros H;
    try assumption; try reflexivity; try discriminate; contradiction.
Qed.

Lemma encoded_image_size_witness :
  exists raw,
    fixed_len_string
      {| features := {[ "image_raw" := BytesList [String "010" (String "200" (String "020" (String "100" EmptyString)))];
                        "file_path" := BytesList ["Gleason_3_la.png"%string];
                        "target_label" := Int64List [1] ]} |} "image_raw" = Ok raw
    /\ String.length raw = 4%nat
    /\ forall img_dims,
         is_ok (decode_example img_dims
                  {| features := {[ "image_raw" := BytesList [String "010" (String "200" (String "020" (String "100" EmptyString)))];
                                    "file_path" := BytesList ["Gleason_3_la.png"%string];
                                    "target_label" := Int64List [1] ]} |}) = true
         <-> numel img_dims = 4%nat.
Proof.
  apply (encoded_image_size (fun _ => Ok (Arr3 1 2 2 [10; 200; 20; 100]))
           "Gleason_3_la.png" 1 1 2 2 [10; 200; 20; 100]).
  - reflexivity.
  - reflexivity.
  - vm_compute. reflexivity.
Defined.

Lemma decode_example_raises img_dims ex e :
  decode_example img_dims ex = Raise e -> e = InvalidArgumentError.
Proof.
  intros H. unfold decode_example, fixed_len_string, fixed_len_int64 in H.
  destruct (features ex !! "image_raw"%string) as [[[|raw []]| |]|];
    try (injection H as <-; reflexivity).
  cbn [mbind result_bind] in H.
  destruct (features ex !! "file_path"%string) as [[[|fp []]| |]|];
    try (injection H as <-; reflexivity).
  cbn [mbind result_bind] in H.
  destruct (features ex !! "target_label"%string) as [[|[|tl []]|]|];
    try (injection H as <-; reflexivity).
  cbn [mbind result_bind] in H.
  unfold reshape in H. destruct (decide _); [discriminate|].
  injection H as <-. reflexivity.
Qed.

(** X26.  A random crop cannot enlarge.  With [rand_crop] on and a model
    size that exceeds the image size on some axis, no batch is produced:
    evaluation stops on the first example with [InvalidArgumentError],
    whatever is drawn.  (Without [rand_crop] the same sizes are accepted and
    the image is padded with zeros.) *)
Theorem random_crop_needs_room (tf : tf_kernels)
    (item : Example * example_draws) (dequeued : list (Example * example_draws))
    (noise : batch_draws) (h w c mh mw mc : nat) (size_of_batch : nat)
    (augmentations_dic : gmap string bool) (shuffle : bool)
    (flip_lr flip_ud rand_rotate warp grayscale : bool) :
  augmentations_dic !! "rand_crop"%string = Some true ->
  augmentations_dic !! "rand_flip_left_right"%string = Some flip_lr ->
  augmentations_dic !! "rand_flip_top_bottom"%string = Some flip_ud ->
  augmentations_dic !! "rand_rotate"%string = Some rand_rotate ->
  augmentations_dic !! "warp"%string = Some warp ->
  augmentations_dic !! "grayscale"%string = Some grayscale ->
  (h < mh \/ w < mw \/ c < mc)%nat ->
  read_and_decode tf (item :: dequeued) noise [h; w; c] [mh; mw; mc] size_of_batch
                  augmentations_dic shuffle
  = Raise InvalidArgumentError.
Proof.
  intros T1 T2 T3 T4 T5 T6 Hsmall.
  unfold read_and_decode, toggle. rewrite T1, T2, T3, T4, T5, T6.
  cbn [mbind result_bind].
  assert (Hw : exists warp_op,
             (if warp
              then PyStr.index [mh; mw; mc] 0 ≫= (fun _ =>
                   PyStr.index [mh; mw; mc] 1 ≫= (fun _ =>
                   PyStr.index [mh; mw; mc] 2 ≫= (fun _ =>
                   Ok (warp_batch tf noise [mh; mw; mc] size_of_batch))))
              else Ok (fun img : tensor Q => Ok img)) = Ok warp_op).
  { destruct warp; eexists; reflexivity. }
  destruct Hw as [warp_op ->]. cbn [mbind result_bind].
  cbn [comprehension].
  assert (Hitem : per_example tf [h; w; c]
                    (fun (d : example_draws) (image : tensor Q) =>
                       random_crop image [mh; mw; mc] (crop_draw d))
                    flip_lr flip_ud rand_rotate item = Raise InvalidArgumentError).
  { destruct item as [ex d]. unfold per_example.
    destruct (decode_example [h; w; c] ex) as [[[image l] p]|e] eqn:Hd.
    - cbn [mbind result_bind].
      destruct (decode_example_byte_valued _ _ _ _ _ Hd) as (Hs & _ & _).
      unfold random_crop. rewrite Hs.
      assert (E : (mh <=? h)%nat && (mw <=? w)%nat && (mc <=? c)%nat = false).
      { apply not_true_is_false. intros E.
        apply andb_true_iff in E as [E E3]. apply andb_true_iff in E as [E1 E2].
        apply Nat.leb_le in E1, E2, E3. lia. }
      now rewrite E.
    - cbn [mbind result_bind]. now rewrite (decode_example_raises _ _ _ Hd). }
  now rewrite Hitem.
Qed.

Lemma random_crop_needs_room_witness :
  read_and_decode blank_kernels
    [({| features := {[ "image_raw" := BytesList ["abcdef"%string];
                        "file_path" := BytesList ["Gleason_5_17.png"%string];
                        "target_label" := Int64List [3] ]} |},
      {| crop_draw := (5, 7, 0)%nat; flip_lr_draw := true;
         flip_ud_draw := true; angle_draw := 90%nat |})]
    {| uniform_X := fun _ => 1 # 2; uniform_Y := fun _ => 1 # 3 |}
    [1; 2; 3]%nat [2; 2; 3]%nat 1
    {[ "rand_crop" := true; "rand_flip_left_right" := false;
       "rand_flip_top_bottom" := false; "rand_rotate" := false;
       "warp" := false; "grayscale" := false ]} false
  = Raise InvalidArgumentError.
Proof.
  apply (random_crop_needs_room blank_kernels _ [] _ 1 2 3 2 2 3 1 _ false
           false false false false false); try reflexivity.
  lia.
Defined.

(** ** Counts and stored labels *)

Lemma count_label_count_occ k files labels :
  Forall2 (fun img l => resolve_label img = Ok l) files labels ->
  count_label k files = Z.of_nat (count_occ Z.eq_dec labels k).
Proof.
  induction 1 as [|img l files labels Hi _ IH]; [reflexivity|].
  cbn [count_label count_occ]. unfold labelled. rewrite Hi, IH.
  destruct (Z.eqb_spec l k) as [->|Hne].
  - destruct (Z.eq_dec k k); [lia|contradiction].
  - destruct (Z.eq_dec l k); [contradiction|lia].
Qed.

(** X27.  The two loops over the listing agree.  [build_tfrecords] and
    [calculate_class_ratios] each carry their own copy of the if/elif chain;
    on a listing whose names all resolve, the count that the class-ratio loop
    reaches for class k is the number of times label k occurs in the labels
    that [build_tfrecords] stores, for each of the four classes, and the four
    counts add up to the number of files. *)
Theorem class_counts_match_stored_labels
    (open_image : string -> result pil_array) (glob : string -> list string)
    (main_data_dir main_tfrecords_dir dataset : string) :
  let files := glob (OsPath.join main_data_dir dataset +:+ "/*.png") in
  Forall (fun img => is_ok (resolve_label img) = true) files ->
  exists target_labels (targe_label_dic : gmap Z Z),
    build_tfrecords open_image glob main_data_dir main_tfrecords_dir dataset
    = Ok (create_tf_record open_image
            (OsPath.join main_tfrecords_dir (dataset +:+ ".tfrecords"))
            files target_labels)
    /\ for_each tally_step files {[ 0 := 0; 1 := 0; 2 := 0; 3 := 0 ]}
       = Ok targe_label_dic
    /\ (forall k, In k [0; 1; 2; 3] ->
          targe_label_dic !! k = Some (Z.of_nat (count_occ Z.eq_dec target_labels k)))
    /\ (count_occ Z.eq_dec target_labels 0%Z + count_occ Z.eq_dec target_labels 1%Z
        + count_occ Z.eq_dec target_labels 2%Z + count_occ Z.eq_dec target_labels 3%Z
        = length files)%nat.
Proof.
  intros files Hok.
  destruct (resolved_labels files Hok) as [labels Hl].
  destruct (tally_counts files {[ 0 := 0; 1 := 0; 2 := 0; 3 := 0 ]} 0 0 0 0)
    as (d & Hd & K0 & K1 & K2 & K3); try reflexivity; try assumption.
  exists labels, d. split; [|split; [exact Hd|split]].
  - unfold build_tfrecords. fold files.
    now rewrite (for_each_labels files [] labels Hl).
  - intros k Hk. rewrite <- (count_label_count_occ k files labels Hl).
    simpl in Hk. destruct Hk as [<-|[<-|[<-|[<-|[]]]]]; assumption.
  - rewrite (Forall2_length _ _ _ Hl).
    assert (Hr : Forall (fun l => 0 <= l <= 3) labels).
    { clear -Hl. induction Hl as [|img l fs ls Hi _ IH]; constructor; [|exact IH].
      now apply (resolve_label_range img). }
    clear -Hr. induction Hr as [|l ls Hl _ IH]; [reflexivity|].
    cbn [count_occ length].
    destruct (Z.eq_dec l 0), (Z.eq_dec l 1), (Z.eq_dec l 2), (Z.eq_dec l 3); lia.
Qed.

Lemma class_counts_match_stored_labels_witness :
  exists target_labels (targe_label_dic : gmap Z Z),
    build_tfrecords (fun _ => Raise IOError)
      (fun _ => ["/d/train/Gleason_5_a.png"; "/d/train/benign_0_b.png";
                 "/d/train/GLEASON_5_c.png"]%string)
      "/d" "/d/tfrecords" "train"
    = Ok (create_tf_record (fun _ => Raise IOError) "/d/tfrecords/train.tfrecords"
            ["/d/train/Gleason_5_a.png"; "/d/train/benign_0_b.png";
             "/d/train/GLEASON_5_c.png"]%string target_labels)
    /\ for_each tally_step
         ["/d/train/Gleason_5_a.png"; "/d/train/benign_0_b.png";
          "/d/train/GLEASON_5_c.png"]%string {[ 0 := 0; 1 := 0; 2 := 0; 3 := 0 ]}
       = Ok targe_label_dic
    /\ (forall k, In k [0; 1; 2; 3] ->
          targe_label_dic !! k = Some (Z.of_nat (count_occ Z.eq_dec target_labels k)))
    /\ (count_occ Z.eq_dec target_labels 0%Z + count_occ Z.eq_dec target_labels 1%Z
        + count_occ Z.eq_dec target_labels 2%Z + count_occ Z.eq_dec target_labels 3%Z
        = 3)%nat.
Proof.
  apply (class_counts_match_stored_labels (fun _ => Raise IOError)
           (fun _ => ["/d/train/Gleason_5_a.png"; "/d/train/benign_0_b.png";
                      "/d/train/GLEASON_5_c.png"]%string)
           "/d" "/d/tfrecords" "train").
  repeat constructor.
Defined.

(** ** compute_mean *)

Module MeanFacts.
Import Float FloatFacts FloatExact FloatOrder.

Lemma rnd_mono_nonneg prec a b :
  1 <= prec -> (0 <= a)%Q -> (a <= b)%Q -> (rnd prec a <= rnd prec b)%Q.
Proof.
  intros Hp Ha Hab.
  assert (Hnn : forall q, (0 <= q)%Q -> (0 <= rnd prec q)%Q).
  { intros q Hq. destruct (Qeq_dec q 0) as [E|NE].
    - rewrite (rnd_comp prec q 0 E). apply Qle_refl.
    - apply Qlt_le_weak, rnd_pos; [exact Hp|].
      apply Qle_lteq in Hq as [Hq|Hq]; [exact Hq|]. exfalso. apply NE. now symmetry. }
  destruct (Qeq_dec a 0) as [E|NE].
  - rewrite (rnd_comp prec a 0 E). change (rnd prec 0) with 0%Q.
    apply Hnn. now apply Qle_trans with a.
  - apply rnd_mono_pos; [exact Hp| |exact Hab].
    apply Qle_lteq in Ha as [Ha|Ha]; [exact Ha|]. exfalso. apply NE. now symmetry.
Qed.

Lemma sum_at_app px l r : sum_at px (l ++ r) = sum_at px l + sum_at px r.
Proof. induction l as [|i l IH]; simpl; [reflexivity|]. rewrite IH. lia. Qed.

Lemma nth_byte px i : Forall is_byte px -> 0 <= nth i px 0 <= 255.
Proof.
  intros H. revert i. induction H as [|v l Hv _ IH]; intros [|i]; simpl; try lia.
  - unfold is_byte in Hv. lia.
  - apply IH.
Qed.

Lemma sum_at_bounds px positions :
  Forall is_byte px ->
  0 <= sum_at px positions <= 255 * Z.of_nat (length positions).
Proof.
  intros H. induction positions as [|i l IH]; simpl; [lia|].
  pose proof (nth_byte px i H). lia.
Qed.

Lemma sum_at_perm px l l' : Permutation l l' -> sum_at px l = sum_at px l'.
Proof. induction 1; simpl; lia. Qed.

Lemma sum_at_seq px : forall pre,
  sum_at (pre ++ px) (seq (length pre) (length px)) = z_sum px.
Proof.
  induction px as [|v px IH]; intros pre; [reflexivity|].
  cbn [length seq sum_at fold_right z_sum].
  rewrite nth_middle. f_equal.
  specialize (IH (pre ++ [v])).
  rewrite <- app_assoc, length_app in IH. cbn [app length] in IH.
  rewrite Nat.add_1_r in IH. exact IH.
Qed.

Lemma sum_at_all px : sum_at px (seq 0 (length px)) = z_sum px.
Proof. exact (sum_at_seq px []). Qed.

(** Adding bytes in float64 is exact, in any order, as long as the sum stays
    below 2^53. *)
Lemma float_sum_in_exact px o :
  Forall is_byte px -> 255 * Z.of_nat (length (terms o)) < 2 ^ 53 ->
  float_sum_in o (map inject_Z px) = inject_Z (sum_at px (terms o)).
Proof.
  intros Hb. induction o as [i|l IHl r IHr]; intros Hn.
  - cbn [float_sum_in terms sum_at fold_right]. rewrite Z.add_0_r.
    change 0%Q with (inject_Z 0). apply map_nth.
  - cbn [float_sum_in terms] in *. rewrite length_app in Hn.
    rewrite IHl, IHr by lia. rewrite sum_at_app.
    pose proof (sum_at_bounds px (terms l) Hb).
    pose proof (sum_at_bounds px (terms r) Hb).
    rewrite (rnd_comp 53 _ (inject_Z (sum_at px (terms l) + sum_at px (terms r)))).
    + apply rnd_exact; lia.
    + now rewrite inject_Z_plus.
Qed.

Lemma z_sum_bounds px :
  Forall is_byte px -> 0 <= z_sum px <= 255 * Z.of_nat (length px).
Proof.
  induction 1 as [|v l Hv _ IH]; cbn [z_sum fold_right length]; [lia|].
  unfold is_byte in Hv. fold (z_sum l). lia.
Qed.

Lemma z_sum_constant v px :
  Forall (fun x => x = v) px -> z_sum px = v * Z.of_nat (length px).
Proof.
  induction 1 as [|x l Hx _ IH]; cbn [z_sum fold_right length]; [lia|].
  fold (z_sum l). rewrite IH, Hx. lia.
Qed.

(** the mean of bytes, rounded once *)
Lemma mean_range s n :
  0 < n -> 0 <= s <= 255 * n ->
  (0 <= binary64 (inject_Z s / inject_Z n))%Q
  /\ (binary64 (inject_Z s / inject_Z n) <= 255)%Q.
Proof.
  intros Hn Hs.
  assert (Pn : (0 < inject_Z n)%Q).
  { change 0%Q with (inject_Z 0). now rewrite <- Zlt_Qlt. }
  assert (H0 : (0 <= inject_Z s / inject_Z n)%Q).
  { apply Qle_shift_div_l; [exact Pn|]. rewrite Qmult_0_l.
    change 0%Q with (inject_Z 0). rewrite <- Zle_Qle. lia. }
  assert (H1 : (inject_Z s / inject_Z n <= 255)%Q).
  { apply Qle_shift_div_r; [exact Pn|].
    change 255%Q with (inject_Z 255). rewrite <- inject_Z_mult, <- Zle_Qle. lia. }
  assert (E0 : binary64 0 = 0%Q) by reflexivity.
  assert (E255 : binary64 255 = 255%Q) by (vm_compute; reflexivity).
  split.
  - rewrite <- E0 at 1. apply rnd_mono_nonneg; [lia|apply Qle_refl|exact H0].
  - rewrite <- E255. apply rnd_mono_nonneg; [lia|exact H0|exact H1].
Qed.

Lemma mean_constant v n :
  0 < n -> 0 <= v < 256 ->
  binary64 (inject_Z (v * n) / inject_Z n) = inject_Z v.
Proof.
  intros Hn Hv.
  assert (Pn : (0 < inject_Z n)%Q).
  { change 0%Q with (inject_Z 0). now rewrite <- Zlt_Qlt. }
  rewrite (rnd_comp 53 _ (inject_Z v)).
  - apply rnd_exact; lia.
  - rewrite inject_Z_mult. field. lra.
Qed.

End MeanFacts.

(** X28.  The mean grey level of an image.  For a non-empty image of fewer
    than 2^45 pixels, [compute_mean] returns the exact mean of the grey levels
    rounded once to float64, whatever order NumPy adds the pixels in (adding
    bytes in float64 is exact here); the value lies between 0 and 255, and a
    uniformly grey image gives exactly its grey level. *)
Theorem compute_mean_of_bytes (imread_L : string -> result (tensor Z))
    (np_sum_order : nat -> sum_order) (file : string) (sh : list nat)
    (px : list Z) :
  imread_L file = Ok (Tensor sh px) ->
  Forall is_byte px -> px <> [] -> Z.of_nat (length px) < 2 ^ 45 ->
  Permutation (terms (np_sum_order (length px))) (seq 0 (length px)) ->
  exists m,
    compute_mean imread_L np_sum_order file = Ok (Finite m)
    /\ m = Float.binary64 (inject_Z (z_sum px) / inject_Z (Z.of_nat (length px)))
    /\ (0 <= m)%Q /\ (m <= 255)%Q
    /\ (forall v, Forall (fun x => x = v) px -> m = inject_Z v).
Proof.
  intros Hread Hb Hne Hlen Hperm.
  assert (Hn : 0 < Z.of_nat (length px)) by (destruct px; [congruence|simpl; lia]).
  assert (Hsum : float_sum_in (np_sum_order (length px)) (map inject_Z px)
                 = inject_Z (z_sum px)).
  { rewrite MeanFacts.float_sum_in_exact; [|exact Hb|].
    - now rewrite (MeanFacts.sum_at_perm _ _ _ Hperm), MeanFacts.sum_at_all.
    - rewrite (Permutation_length Hperm), length_seq. lia. }
  eexists. split; [|split; [reflexivity|]].
  - unfold compute_mean. rewrite Hread. cbn [mbind result_bind].
    unfold np_mean_int. cbn [data].
    destruct px as [|v px']; [congruence|]. now rewrite Hsum.
  - pose proof (MeanFacts.z_sum_bounds px Hb) as Hs.
    destruct (MeanFacts.mean_range _ _ Hn Hs) as [H0 H1].
    split; [exact H0|]. split; [exact H1|].
    intros v Hv. rewrite (MeanFacts.z_sum_constant v px Hv).
    apply MeanFacts.mean_constant; [exact Hn|].
    destruct px as [|x px']; [congruence|].
    inversion Hv; subst. inversion Hb; subst. unfold is_byte in *. lia.
Qed.

Lemma left_to_right_terms n : (0 < n)%nat -> terms (left_to_right n) = seq 0 n.
Proof.
  induction n as [|[|m] IH]; intros H; [lia|reflexivity|].
  change (terms (left_to_right (S (S m))))
    with (terms (left_to_right (S m)) ++ [S m]).
  rewrite IH by lia. now rewrite (seq_S (S m) 0).
Qed.

Lemma compute_mean_of_bytes_witness :
  compute_mean (fun _ => Ok (Tensor [2; 2]%nat [10; 20; 30; 41])) left_to_right
               "Gleason_3_a.png"
  = Ok (Finite (101 # 4)).
Proof.
  destruct (compute_mean_of_bytes (fun _ => Ok (Tensor [2; 2]%nat [10; 20; 30; 41]))
              left_to_right "Gleason_3_a.png" [2; 2]%nat [10; 20; 30; 41])
    as (m & H & -> & _).
  - reflexivity.
  - repeat constructor; unfold is_byte; lia.
  - discriminate.
  - simpl. lia.
  - rewrite left_to_right_terms by (simpl; lia). reflexivity.
  - rewrite H. vm_compute. reflexivity.
Defined.

(** ** Writing a container and reading it back *)

Section ReadBack.
Variable tf : tf_kernels.
Variable open_image : string -> result pil_array.
Variables h w c : nat.
Hypothesis channels : (3 <= c)%nat.
Hypothesis height : (0 < h)%nat.
Hypothesis width : (0 < w)%nat.

Lemma rgb_of_bytes px :
  length px = (h * w * c)%nat -> Forall is_byte px ->
  Forall is_byte (rgb_of h w c px) /\ length (rgb_of h w c px) = (h * w * 3)%nat.
Proof.
  intros Hlen Hb. split.
  - apply Forall_concat_map_take, Forall_chunks, Hb.
  - unfold rgb_of. rewrite (length_concat_uniform 3).
    + rewrite length_map, length_chunks. lia.
    + apply Forall_map. eapply Forall_impl; [apply (chunks_lengths c (h * w)); lia|].
      intros ch Hch. cbn beta in *. rewrite length_take. lia.
Qed.

(** one pair: what [encode] stores is what the decoder returns *)
Lemma decode_of_encode fp l px :
  loads_as open_image h w c fp px -> - 2 ^ 31 <= l < 2 ^ 31 ->
  exists record,
    encode open_image fp l = Ok record
    /\ decode_example [h; w; 3%nat] record
       = Ok (Tensor [h; w; 3%nat] (map inject_Z (rgb_of h w c px)), l, fp).
Proof.
  intros (Hopen & Hlen & Hb & Hascii) Hl.
  destruct (rgb_of_bytes px Hlen Hb) as [Hpix Hpixlen].
  assert (Hfirst : first_three_channels (Arr3 h w c px)
                   = Ok (Tensor [h; w; 3%nat] (rgb_of h w c px))).
  { cbn [first_three_channels]. now rewrite Nat.min_r. }
  destruct (encode open_image fp l) as [record|e] eqn:Henc.
  2:{ pose proof (encode_ok open_image fp l _ _ Hopen Hfirst Hascii ltac:(lia)) as Hok.
      rewrite Henc in Hok. discriminate. }
  exists record. split; [reflexivity|].
  destruct (encode_ok_inv _ _ _ _ Henc) as (a & img & Ha & Hi & _ & _ & ->).
  rewrite Hopen in Ha. injection Ha as <-.
  rewrite Hfirst in Hi. injection Hi as <-.
  rewrite decode_example_of_features.
  rewrite astype_uint8_float32 by exact Hpix.
  rewrite decode_raw_tostring by exact Hpix.
  unfold reshape. cbn [data].
  destruct (decide (numel [h; w; 3%nat] = length (rgb_of h w c px))) as [_|Hne].
  2:{ exfalso. apply Hne. rewrite Hpixlen. unfold numel. cbn [fold_right]. lia. }
  cbn [mbind result_bind]. rewrite astype_float32_bytes by exact Hpix.
  now rewrite cast_int32_small.
Qed.

(** record by record: what the plain pipeline makes of the records written
    for a list of pairs *)
Lemma read_back_records file_pointers : forall images target_labels,
  Forall2 (loads_as open_image h w c) file_pointers images ->
  Forall2 (fun _ l => - 2 ^ 31 <= l < 2 ^ 31) file_pointers target_labels ->
  Forall2
    (fun record e =>
       forall d,
         per_example tf [h; w; 3%nat]
           (fun _ image => resize_image_with_crop_or_pad image h w)
           false false false (record, d) = Ok e)
    (successes (map (fun ft => encode open_image (fst ft) (snd ft))
                    (zip file_pointers target_labels)))
    (zip (zip (map (fun px => Tensor [h; w; 3%nat] (map inject_Z (rgb_of h w c px)))
                   images) target_labels) file_pointers).
Proof.
  induction file_pointers as [|fp fps IH]; intros images labels Hi Hl.
  - inversion Hi; subst. inversion Hl; subst. constructor.
  - inversion Hi as [|? px ? imgs Hfp Hrest]; subst.
    inversion Hl as [|? l ? ls Hlr Hlrest]; subst.
    cbn [zip zip_with map fst snd].
    destruct (decode_of_encode fp l px Hfp Hlr) as (record & Henc & Hdec).
    rewrite Henc. cbn [successes].
    constructor; [|exact (IH imgs ls Hrest Hlrest)].
    intros d. unfold per_example. cbv beta iota. rewrite Hdec.
    cbn [mbind result_bind].
    destruct Hfp as (_ & Hlen & Hb & _).
    destruct (rgb_of_bytes px Hlen Hb) as [_ Hpixlen].
    rewrite (resize_same_size _ h w 3); try assumption; try reflexivity.
    cbn [data]. rewrite length_map. exact Hpixlen.
Qed.

End ReadBack.

Lemma zip3_projections {A B C} (xs : list A) : forall (ys : list B) (zs : list C),
  length ys = length xs -> length zs = length xs ->
  map (fun e => fst (fst e)) (zip (zip xs ys) zs) = xs
  /\ map (fun e => snd (fst e)) (zip (zip xs ys) zs) = ys
  /\ map (fun e => snd e) (zip (zip xs ys) zs) = zs
  /\ length (zip (zip xs ys) zs) = length xs.
Proof.
  induction xs as [|x xs IH]; intros [|y ys] [|z zs] Hy Hz; try discriminate;
    [repeat split|].
  injection Hy as Hy. injection Hz as Hz.
  destruct (IH ys zs Hy Hz) as (E1 & E2 & E3 & E4).
  cbn [zip zip_with map fst snd length]. unfold zip in *.
  now rewrite E1, E2, E3, E4.
Qed.

(** the elements of two related lists at the positions of a list of indices *)
Lemma Forall2_picks {A B} (R : A -> B -> Prop) (xs : list A) (ys : list B)
    (picks : list nat) :
  Forall2 R xs ys ->
  Forall (fun k => (k < length xs)%nat) picks ->
  exists batch es,
    Forall2 (fun k x => xs !! k = Some x) picks batch
    /\ Forall2 (fun k y => ys !! k = Some y) picks es
    /\ Forall2 R batch es.
Proof.
  intros HR. induction 1 as [|k picks Hk _ IH].
  - exists [], []. repeat split; constructor.
  - destruct IH as (batch & es & H1 & H2 & H3).
    destruct (lookup_lt_is_Some_2 xs k Hk) as [x Hx].
    destruct (Forall2_lookup_l _ _ _ _ _ HR Hx) as (y & Hy & Hxy).
    exists (x :: batch), (y :: es). repeat split; constructor; assumption.
Qed.

Lemma comprehension_pairs {A D B} (f : A * D -> result B) (batch : list A) :
  forall (es : list B) (draws : list D),
  Forall2 (fun x e => forall d, f (x, d) = Ok e) batch es ->
  length draws = length batch ->
  comprehension f (zip batch draws) = Ok es.
Proof.
  induction batch as [|x batch IH]; intros es draws HF Hd.
  - inversion HF; subst. reflexivity.
  - inversion HF as [|? e ? es' Hx Hrest]; subst.
    destruct draws as [|d draws]; [discriminate Hd|].
    change (zip (x :: batch) (d :: draws)) with ((x, d) :: zip batch draws).
    cbn [comprehension]. rewrite Hx. cbn [mbind result_bind].
    rewrite (IH es' draws Hrest) by (simpl in Hd; lia).
    reflexivity.
Qed.

(** the components of the triples found at given positions of a zipped list *)
Lemma picks_of_zip3 {A B C} (xs : list A) (ys : list B) (zs : list C)
    (picks : list nat) (es : list (A * B * C)) :
  Forall2 (fun k e => zip (zip xs ys) zs !! k = Some e) picks es ->
  Forall2 (fun k x => xs !! k = Some x) picks (map (fun e => fst (fst e)) es)
  /\ Forall2 (fun k y => ys !! k = Some y) picks (map (fun e => snd (fst e)) es)
  /\ Forall2 (fun k z => zs !! k = Some z) picks (map (fun e => snd e) es).
Proof.
  induction 1 as [|k [[x y] z] picks es Hk _ (IH1 & IH2 & IH3)].
  - repeat split; constructor.
  - unfold zip in Hk. apply lookup_zip_with_Some in Hk as (xy & z' & E & Hxy & Hz).
    apply lookup_zip_with_Some in Hxy as (x' & y' & E' & Hx & Hy).
    subst xy. injection E as -> -> ->.
    repeat split; constructor; assumption.
Qed.

Lemma Forall2_right {A B} (R : A -> B -> Prop) (Q : B -> Prop) xs ys :
  Forall2 R xs ys -> (forall x y, R x y -> Q y) -> Forall Q ys.
Proof. induction 1; constructor; eauto. Qed.

Lemma Forall2_map_right {A B C} (R : A -> B -> Prop) (R' : A -> C -> Prop)
    (g : B -> C) xs ys :
  Forall2 R xs ys -> (forall x y, R x y -> R' x (g y)) -> Forall2 R' xs (map g ys).
Proof. induction 1; simpl; constructor; eauto. Qed.

(** X29.  Writing a container and reading it back.  Let every listed file
    load as an 8-bit array of shape [h, w, c] with at least three channels,
    every path be an ASCII string and every label fit 32 bits.
    [create_tf_record] then writes one record per file.  Whatever records of
    the container the queue hands over for one batch, and in whatever order
    ([picks] lists their positions: [tf.train.shuffle_batch] draws them at
    random, [tf.train.batch] fed by a single thread takes them in container
    order), [read_and_decode] with every toggle off and image and model size
    [h, w, 3] returns, position by position of the batch, the first three
    channels of the image of that very file, value for value, with the label
    and the path that were passed in for it. *)
Theorem container_read_back (tf : tf_kernels)
    (open_image : string -> result pil_array) (tfrecords_filename : string)
    (file_pointers : list string) (target_labels : list Z)
    (images : list (list Z)) (picks : list nat)
    (draws : list example_draws) (noise : batch_draws)
    (h w c size_of_batch : nat) (augmentations_dic : gmap string bool)
    (shuffle : bool) :
  (3 <= c)%nat -> (0 < h)%nat -> (0 < w)%nat ->
  Forall2 (loads_as open_image h w c) file_pointers images ->
  Forall2 (fun _ l => - 2 ^ 31 <= l < 2 ^ 31) file_pointers target_labels ->
  Forall (fun k => (k < length file_pointers)%nat) picks ->
  picks <> [] ->
  length draws = length picks ->
  batch_ok shuffle size_of_batch (length picks) = true ->
  all_toggles_off augmentations_dic ->
  let container :=
    container_of tfrecords_filename
      (create_tf_record open_image tfrecords_filename file_pointers target_labels) in
  length container = length file_pointers
  /\ exists batch pixels labels paths,
       Forall2 (fun k record => container !! k = Some record) picks batch
       /\ read_and_decode tf (zip batch draws) noise [h; w; 3%nat] [h; w; 3%nat]
                          size_of_batch augmentations_dic shuffle
          = Ok (Tensor [length picks; h; w; 3%nat] (concat pixels), labels, paths)
       /\ Forall2 (fun k px => exists image,
                      images !! k = Some image
                      /\ px = map inject_Z (rgb_of h w c image)) picks pixels
       /\ Forall2 (fun k l => target_labels !! k = Some l) picks labels
       /\ Forall2 (fun k p => file_pointers !! k = Some p) picks paths.
Proof.
  intros Hc Hh Hw Himgs Hlabels Hpicks Hne Hdraws Hbatch Hoff container.
  pose proof (read_back_records tf open_image h w c Hc Hh Hw file_pointers
                images target_labels Himgs Hlabels) as Hrec.
  assert (Hcont : container
                  = successes (map (fun ft => encode open_image (fst ft) (snd ft))
                                   (zip file_pointers target_labels))).
  { apply container_of_create_tf_record. }
  rewrite <- Hcont in Hrec.
  assert (Hli : length images = length file_pointers)
    by (symmetry; exact (Forall2_length _ _ _ Himgs)).
  assert (Hll : length target_labels = length file_pointers)
    by (symmetry; exact (Forall2_length _ _ _ Hlabels)).
  assert (Hlen : length container = length file_pointers).
  { rewrite (Forall2_length _ _ _ Hrec).
    destruct (zip3_projections
                (map (fun px => Tensor [h; w; 3%nat] (map inject_Z (rgb_of h w c px)))
                     images) target_labels file_pointers)
      as (_ & _ & _ & E4); [rewrite length_map; congruence..|].
    now rewrite E4, length_map. }
  split; [exact Hlen|].
  rewrite <- Hlen in Hpicks.
  destruct (Forall2_picks _ _ _ picks Hrec Hpicks) as (batch & es & Hb & He & Hbe).
  destruct (picks_of_zip3 _ _ _ _ _ He) as (P1 & P2 & P3).
  assert (Hnb : length batch = length picks)
    by (symmetry; exact (Forall2_length _ _ _ Hb)).
  assert (Hne' : length es = length picks)
    by (symmetry; exact (Forall2_length _ _ _ He)).
  exists batch, (map (fun e => data (fst (fst e))) es),
         (map (fun e => snd (fst e)) es), (map (fun e => snd e) es).
  split; [exact Hb|]. split; [|split; [|split; [exact P2|exact P3]]].
  - rewrite (read_and_decode_toggles_off tf) by exact Hoff.
    change (PyStr.index [h; w; 3%nat] 0) with (@Ok nat h).
    change (PyStr.index [h; w; 3%nat] 1) with (@Ok nat w).
    cbn [mbind result_bind].
    rewrite (comprehension_pairs _ batch es draws Hbe) by congruence.
    cbn [mbind result_bind]. rewrite Hne', Hbatch.
    rewrite (stack_batch_same_shape [h; w; 3%nat]).
    + cbn [mbind result_bind]. rewrite length_map, Hne', map_map. reflexivity.
    + destruct es; [|discriminate]. destruct picks; [congruence|discriminate].
    + apply (Forall2_right _ _ _ _ P1). intros k t Ht.
      apply lookup_map_inv in Ht as (px & _ & ->). reflexivity.
  - rewrite <- (map_map (fun e => fst (fst e)) data).
    apply (Forall2_map_right _ _ _ _ _ P1). intros k t Ht.
    apply lookup_map_inv in Ht as (px & Hpx & ->). exists px. split; [exact Hpx|reflexivity].
Qed.

Lemma container_read_back_witness :
  read_and_decode blank_kernels
    [({| features := {[ "image_raw" := BytesList ["(2<"%string];
                        "file_path" := BytesList ["/d/val/Gleason_3_b.png"%string];
                        "target_label" := Int64List [1] ]} |},
      {| crop_draw := (0, 0, 0)%nat; flip_lr_draw := true;
         flip_ud_draw := false; angle_draw := 7%nat |});
     ({| features := {[ "image_raw" := BytesList [String "010" (String "020" (String "030" ""))];
                        "file_path" := BytesList ["/d/val/Gleason_4_a.png"%string];
                        "target_label" := Int64List [2] ]} |},
      {| crop_draw := (0, 0, 0)%nat; flip_lr_draw := false;
         flip_ud_draw := false; angle_draw := 0%nat |})]
    {| uniform_X := fun _ => 0%Q; uniform_Y := fun _ => 0%Q |}
    [1; 1; 3]%nat [1; 1; 3]%nat 2
    {[ "rand_crop" := false; "rand_flip_left_right" := false;
       "rand_flip_top_bottom" := false; "rand_rotate" := false;
       "warp" := false; "grayscale" := false ]} true
  = Ok (Tensor [2; 1; 1; 3]%nat [40; 50; 60; 10; 20; 30]%Q, [1; 2],
        ["/d/val/Gleason_3_b.png"%string; "/d/val/Gleason_4_a.png"%string]).
Proof.
  destruct (container_read_back blank_kernels
              (fun p => if String.eqb p "/d/val/Gleason_4_a.png"
                        then Ok (Arr3 1 1 4 [10; 20; 30; 255])
                        else Ok (Arr3 1 1 4 [40; 50; 60; 255]))
              "/d/val.tfrecords"
              ["/d/val/Gleason_4_a.png"%string; "/d/val/Gleason_3_b.png"%string] [2; 1]
              [[10; 20; 30; 255]; [40; 50; 60; 255]] [1; 0]%nat
              [{| crop_draw := (0, 0, 0)%nat; flip_lr_draw := true;
                  flip_ud_draw := false; angle_draw := 7%nat |};
               {| crop_draw := (0, 0, 0)%nat; flip_lr_draw := false;
                  flip_ud_draw := false; angle_draw := 0%nat |}]
              {| uniform_X := fun _ => 0%Q; uniform_Y := fun _ => 0%Q |}
              1 1 4 2
              {[ "rand_crop" := false; "rand_flip_left_right" := false;
                 "rand_flip_top_bottom" := false; "rand_rotate" := false;
                 "warp" := false; "grayscale" := false ]} true)
    as (_ & batch & pixels & labels & paths & Hb & Hread & Hpx & Hl & Hp).
  - lia.
  - lia.
  - lia.
  - repeat constructor; unfold is_byte; lia.
  - repeat constructor; lia.
  - repeat constructor; simpl; lia.
  - discriminate.
  - reflexivity.
  - reflexivity.
  - repeat split; reflexivity.
  - inversion Hb as [|? r1 ? b1 Hr1 Hb1]; subst.
    inversion Hb1 as [|? r2 ? b2 Hr2 Hb2]; subst. inversion Hb2; subst.
    inversion Hpx as [|? p1 ? q1 (i1 & Hi1 & E1) Hq1]; subst.
    inversion Hq1 as [|? p2 ? q2 (i2 & Hi2 & E2) Hq2]; subst. inversion Hq2; subst.
    inversion Hl as [|? l1 ? m1 Hl1 Hm1]; subst.
    inversion Hm1 as [|? l2 ? m2 Hl2 Hm2]; subst. inversion Hm2; subst.
    inversion Hp as [|? f1 ? g1 Hf1 Hg1]; subst.
    inversion Hg1 as [|? f2 ? g2 Hf2 Hg2]; subst. inversion Hg2; subst.
    vm_compute in Hr1, Hr2, Hi1, Hi2, Hl1, Hl2, Hf1, Hf2.
    injection Hr1 as <-. injection Hr2 as <-.
    injection Hi1 as <-. injection Hi2 as <-.
    injection Hl1 as <-. injection Hl2 as <-.
    injection Hf1 as <-. injection Hf2 as <-.
    exact Hread.
Defined.
